(** * Trace-context propagation and signal correlation of the demo mesh

    A shallow embedding of the four instrumented services under [apm/services]
    (api-gateway, user-service, order-service, notification-service) and of the
    structured-logging demo application ([logger/main.go]), together with the
    properties the specification states about them.

    Handlers are written with explicit state passing in a small state monad;
    everything the Go code obtains from outside the process (environment
    variables, the random source, the clock, downstream HTTP responses, body
    decoding) is read from an explicit environment record. *)

From Stdlib Require Import ZArith NArith QArith String Ascii List Lia.
From Stdlib Require Import DecimalString HexadecimalString.
From stdpp Require Import base option gmap strings list.

Open Scope string_scope.
Open Scope list_scope.

(** ** Trace identity *)

(** [trace.SpanContext]: a 128-bit trace id, a 64-bit span id and the sampling
    flag.  The ids are [N] values; every encoder below writes out the
    truncation to the field width. *)
Record SpanContext := mkSpanContext {
  traceID : N;
  spanID : N;
  sampled : bool
}.

Definition trace_bits : N := 128.
Definition span_bits : N := 64.

(** A context is well formed when both ids fit their fields. *)
Definition wf_context (sc : SpanContext) : Prop :=
  (traceID sc < 2 ^ trace_bits)%N ∧ (spanID sc < 2 ^ span_bits)%N.

(** ** Hexadecimal fields *)

Module Hex.

Definition digit (d : N) : ascii :=
  match d with
  | 0 => "0" | 1 => "1" | 2 => "2" | 3 => "3" | 4 => "4" | 5 => "5"
  | 6 => "6" | 7 => "7" | 8 => "8" | 9 => "9" | 10 => "a" | 11 => "b"
  | 12 => "c" | 13 => "d" | 14 => "e" | _ => "f"
  end%N%char.

Definition value (c : ascii) : option N :=
  let n := N_of_ascii c in
  if (48 <=? n)%N && (n <=? 57)%N then Some (n - 48)%N
  else if (97 <=? n)%N && (n <=? 102)%N then Some (n - 87)%N
  else None.

(** [fixed w n]: the [w] low hexadecimal digits of [n], most significant
    first, lower case (the ids' [String] methods and the header fields). *)
Fixpoint fixed (w : nat) (n : N) : string :=
  match w with
  | O => ""
  | S w' => fixed w' (n / 16) +:+ String (digit (n mod 16)) ""
  end.

(** Left-to-right parser with an accumulator; fails on any character that
    is not a lower-case hexadecimal digit. *)
Fixpoint parse (acc : N) (s : string) : option N :=
  match s with
  | "" => Some acc
  | String c s' =>
      match value c with
      | Some d => parse (16 * acc + d) s'
      | None => None
      end
  end.

End Hex.

(** ** Context propagator *)

Module Propagation.

(** Modelled from the spec: the propagator installed by [initTracer]
    ([otel.SetTextMapPropagator(propagation.TraceContext{})]) is library
    code outside the repository.  Section 6 of the specification fixes the
    carrier: one text header holding the hexadecimal trace id, the
    hexadecimal span id and a one-byte sampling flag, delimited by a fixed
    separator; [propagation.TraceContext] names that header [traceparent]
    and prefixes the version field [00]. *)
Definition header_name : string := "Traceparent".

Definition flags_byte (sc : SpanContext) : N := if sampled sc then 1 else 0.

Definition encode (sc : SpanContext) : string :=
  "00-" +:+ Hex.fixed 32 (traceID sc) +:+ "-" +:+ Hex.fixed 16 (spanID sc)
        +:+ "-" +:+ Hex.fixed 2 (flags_byte sc).

(** Modelled from the spec: [Inject(ctx, carrier)] writes trace id, span id
    and the sampling flag onto the outbound carrier. *)
Definition Inject (sc : SpanContext) (carrier : gmap string string)
  : gmap string string :=
  <[header_name := encode sc]> carrier.

(** [split_at n s] cuts exactly [n] characters off the front of [s]. *)
Fixpoint split_at (n : nat) (s : string) : option (string * string) :=
  match n, s with
  | O, _ => Some ("", s)
  | S n', String c s' =>
      match split_at n' s' with
      | Some (a, b) => Some (String c a, b)
      | None => None
      end
  | S _, "" => None
  end.

Definition expect (lit : string) (s : string) : option string :=
  match split_at (String.length lit) s with
  | Some (a, b) => if String.eqb a lit then Some b else None
  | None => None
  end.

Definition field (w : nat) (s : string) : option (N * string) :=
  match split_at w s with
  | Some (a, b) =>
      match Hex.parse 0 a with
      | Some n => Some (n, b)
      | None => None
      end
  | None => None
  end.

Definition decode (h : string) : option SpanContext :=
  r0 ← expect "00-" h;
  '(t, r1) ← field 32 r0;
  r2 ← expect "-" r1;
  '(s, r3) ← field 16 r2;
  r4 ← expect "-" r3;
  '(f, r5) ← field 2 r4;
  if String.eqb r5 "" then Some (mkSpanContext t s (N.testbit f 0)) else None.

(** Modelled from the spec: [Extract(carrier)] reads the inbound header;
    [None] is the specification's [MissingContext] (absent or malformed). *)
Definition Extract (carrier : gmap string string) : option SpanContext :=
  carrier !! header_name ≫= decode.

End Propagation.

(** ** Formatting verbs *)

(** [%d] of [fmt.Sprintf] (and [strconv.Itoa]). *)
Definition itoa (z : Z) : string := DecimalString.NilZero.string_of_int (Z.to_int z).

(** [%x] of [fmt.Sprintf] on a non-negative integer. *)
Definition hex_of (n : N) : string :=
  HexadecimalString.NilZero.string_of_uint (N.to_hex_uint n).

(** ** Data carried by requests and responses *)

(** JSON values as [encoding/json] produces and [c.JSON] consumes them.
    Numbers are rationals: the handlers only copy them. *)
#[warnings="-register-all"]
Inductive JSON :=
| JNull
| JBool (b : bool)
| JNum (q : Q)
| JStr (s : string)
| JArr (items : list JSON)
| JObj (fields : list (string * JSON)).

Definition JInt (z : Z) : JSON := JNum (inject_Z z).

(** A [map[string]interface{}] value: [None] is the nil map, which
    [encoding/json] renders as [null]. *)
Definition json_of_map (m : option (list (string * JSON))) : JSON :=
  match m with
  | Some kv => JObj kv
  | None => JNull
  end.

Fixpoint jget (k : string) (kv : list (string * JSON)) : option JSON :=
  match kv with
  | [] => None
  | (k', v) :: rest => if String.eqb k k' then Some v else jget k rest
  end.

Definition field_of (k : string) (j : JSON) : option JSON :=
  match j with
  | JObj kv => jget k kv
  | _ => None
  end.

Inductive Body :=
| NoBody
| JSONBody (j : JSON)
| TextBody (s : string).

Record Request := mkRequest {
  method : string;
  path : string;
  header : gmap string string;
  payload : string
}.

Record Response := mkResponse {
  resp_status : Z;
  resp_body : Body
}.

(** *** Service data (the structs of the three downstream services) *)

Record User := mkUser {
  user_ID : Z;
  user_Name : string;
  user_Email : string;
  user_Age : Z;
  user_Status : string;
  user_CreateAt : string
}.

Record Order := mkOrder {
  order_ID : Z;
  order_UserID : Z;
  order_Product : string;
  order_Amount : Q;
  order_Status : string;
  order_CreateAt : string
}.

(** The anonymous request struct of [createOrder]. *)
Record OrderReq := mkOrderReq {
  req_UserID : Z;
  req_Product : string;
  req_Amount : Q
}.

Record Notification := mkNotification {
  notif_ID : Z;
  notif_Type : string;
  notif_Message : string;
  notif_Status : string;
  notif_SentAt : string
}.

Definition json_of_user (u : User) : JSON :=
  JObj [("id", JInt (user_ID u)); ("name", JStr (user_Name u));
        ("email", JStr (user_Email u)); ("age", JInt (user_Age u));
        ("status", JStr (user_Status u)); ("create_at", JStr (user_CreateAt u))].

Definition json_of_order (o : Order) : JSON :=
  JObj [("id", JInt (order_ID o)); ("user_id", JInt (order_UserID o));
        ("product", JStr (order_Product o)); ("amount", JNum (order_Amount o));
        ("status", JStr (order_Status o)); ("create_at", JStr (order_CreateAt o))].

Definition json_of_notification (n : Notification) : JSON :=
  JObj [("id", JInt (notif_ID n)); ("type", JStr (notif_Type n));
        ("message", JStr (notif_Message n)); ("status", JStr (notif_Status n));
        ("sent_at", JStr (notif_SentAt n))].

(** A slice built by [append] from [var l []T]: nil, hence [null], when
    nothing was appended. *)
Definition json_of_slice {A} (f : A → JSON) (l : list A) : JSON :=
  match l with
  | [] => JNull
  | _ => JArr (f <$> l)
  end.

(** ** Signals *)

Inductive AttrValue :=
| AStr (s : string)
| AInt (z : Z)
| AFloat (q : Q).

Inductive SpanStatus :=
| StatusUnset
| StatusError (message : string).

Record Span := mkSpan {
  span_context : SpanContext;
  parentSpanID : option N;
  span_name : string;
  attributes : list (string * AttrValue);
  recorded_errors : list string;
  span_status : SpanStatus;
  ended : bool
}.

(** One update of the metric registry.  Histogram observations are kept in
    nanoseconds ([Duration.Seconds] of that many nanoseconds in the source). *)
Inductive MetricEvent :=
| Inc (name : string) (labels : list string)
| Observe (name : string) (labels : list string) (nanos : Z).

Definition metric_name (e : MetricEvent) : string :=
  match e with
  | Inc n _ => n
  | Observe n _ _ => n
  end.

Definition metric_labels (e : MetricEvent) : list string :=
  match e with
  | Inc _ l => l
  | Observe _ l _ => l
  end.

(** A line of log output: the JSON line written by the access-log formatter
    of [loggingMiddleware] (its keys as fields; the gateway's format has no
    [service] key), a line of the standard [log] package, or a record of a
    [slog] logger with the attributes it carries. *)
Inductive LogRecord :=
| AccessLog (time : string) (service : option string) (method uri : string)
            (status : Z) (latency : Z) (user_agent : string) (trace_id : string)
| StdLog (message : string)
| Structured (time level message : string) (attrs : list (string * AttrValue)).

Fixpoint attr_string (k : string) (attrs : list (string * AttrValue)) : option string :=
  match attrs with
  | [] => None
  | (k', v) :: rest =>
      if String.eqb k k'
      then match v with AStr s => Some s | _ => None end
      else attr_string k rest
  end.

(** The fields a record offers for correlation. *)
Definition log_trace_id (r : LogRecord) : option string :=
  match r with
  | AccessLog _ _ _ _ _ _ _ t => Some t
  | StdLog _ => None
  | Structured _ _ _ attrs => attr_string "trace_id" attrs
  end.

Definition log_request_id (r : LogRecord) : option string :=
  match r with
  | AccessLog _ _ _ _ _ _ _ _ => None
  | StdLog _ => None
  | Structured _ _ _ attrs => attr_string "request_id" attrs
  end.

Definition log_service_name (r : LogRecord) : option string :=
  match r with
  | AccessLog _ service _ _ _ _ _ _ => service
  | StdLog _ => None
  | Structured _ _ _ attrs => attr_string "service_name" attrs
  end.

Definition log_service_version (r : LogRecord) : option string :=
  match r with
  | AccessLog _ _ _ _ _ _ _ _ => None
  | StdLog _ => None
  | Structured _ _ _ attrs => attr_string "service_version" attrs
  end.

Record OutboundCall := mkCall {
  call_url : string;
  call_header : gmap string string
}.

Inductive MetricKind := Counter | Histogram.

(** A collector handed to [prometheus.MustRegister]. *)
Record Family := mkFamily {
  family_name : string;
  family_kind : MetricKind;
  family_labels : list string
}.

(** ** The outside of the process *)

(** What [http.Client.Do] and [io.ReadAll] give back for one outbound call:
    a transport failure (connection error or the 10 s client timeout), or a
    response with its status and either the body bytes or a read error. *)
Inductive Hop :=
| DoError (elapsed : Z) (err : string)
| Responded (elapsed : Z) (status : Z) (body : string + string).

(** Everything the handlers read from outside: environment variables, the
    raw draws of [math/rand], the id generator of the tracer, the network,
    and the library decoders and formatters whose results the handlers only
    branch on or copy. *)
Record Env := mkEnv {
  getenv : string → string;
  rand_src : nat → N;
  id_src : nat → N;
  new_request_error : string → option string;
  transport : nat → string → Hop;
  json_unmarshal : string → string + option (list (string * JSON));
  bind_map : string → string + option (list (string * JSON));
  bind_user : string → string + User;
  bind_order_req : string → string + OrderReq;
  format_rfc3339 : Z → string;
  exposition : list Family → list MetricEvent → string
}.

(** [context.Context] as far as tracing reads it: no span, the remote parent
    put there by [Extract], or a span of the current request. *)
Inductive Context :=
| Background
| RemoteParent (sc : SpanContext)
| Current (handle : nat).

(** Process-wide state.  The output lists hold the newest entry first. *)
Record World (S : Type) := mkWorld {
  clock : Z;
  rand_pos : nat;
  id_pos : nat;
  exported : list Span;
  registry : list MetricEvent;
  log_output : list LogRecord;
  outbound : list OutboundCall;
  store : S
}.
Arguments mkWorld {S}.
Arguments clock {S}.
Arguments rand_pos {S}.
Arguments id_pos {S}.
Arguments exported {S}.
Arguments registry {S}.
Arguments log_output {S}.
Arguments outbound {S}.
Arguments store {S}.

(** [*gin.Context]: the request with its context, the matched route and the
    response writer. *)
Record Gin := mkGin {
  gin_request : Request;
  request_context : Context;
  full_path : string;
  gin_params : list (string * string);
  writer_status : Z;
  writer_body : Body
}.

(** State threaded through one request: the gin context, the spans this
    request has started (a span's handle is its index) and the world. *)
Record St (S : Type) := mkSt {
  gin : Gin;
  spans : list Span;
  world : World S
}.
Arguments mkSt {S}.
Arguments gin {S}.
Arguments spans {S}.
Arguments world {S}.

Definition M (S A : Type) : Type := St S → A * St S.

Definition ret {S A} (a : A) : M S A := λ st, (a, st).

Definition bind {S A B} (m : M S A) (k : A → M S B) : M S B :=
  λ st, let '(a, st') := m st in k a st'.

Notation "'let*' x ':=' m 'in' k" := (bind m (λ x, k))
  (at level 10, x pattern, m at level 100, k at level 200).
Notation "m1 ;; m2" := (bind m1 (λ _, m2))
  (at level 100, m2 at level 200, right associativity).

Section Primitives.
Context {S : Type}.

Definition get : M S (St S) := λ st, (st, st).

Definition with_world (f : World S → World S) : M S unit :=
  λ st, (tt, mkSt (gin st) (spans st) (f (world st))).

Definition with_gin (f : Gin → Gin) : M S unit :=
  λ st, (tt, mkSt (f (gin st)) (spans st) (world st)).

Definition with_spans (f : list Span → list Span) : M S unit :=
  λ st, (tt, mkSt (gin st) (f (spans st)) (world st)).

(** *** Clock and random source

    The clock is logical: it moves by the duration of a [time.Sleep] and by
    the duration the environment gives an outbound hop, and by nothing
    else.  The time the program spends computing is not modelled, so a
    duration the program measures with [time.Since] is, here, the sum of
    the sleeps and hops in between. *)

Definition time_Now : M S Z := λ st, (clock (world st), st).

Definition advance (d : Z) : M S unit :=
  with_world (λ w, mkWorld (clock w + d) (rand_pos w) (id_pos w) (exported w)
                           (registry w) (log_output w) (outbound w) (store w)).

Definition time_Sleep (d : Z) : M S unit := advance d.

Definition next_draw (E : Env) : M S N :=
  λ st, let w := world st in
        (rand_src E (rand_pos w),
         mkSt (gin st) (spans st)
              (mkWorld (clock w) (Datatypes.S (rand_pos w)) (id_pos w) (exported w)
                       (registry w) (log_output w) (outbound w) (store w))).

(** [rand.Intn(n)] for a positive constant [n]. *)
Definition rand_Intn (E : Env) (n : Z) : M S Z :=
  let* r := next_draw E in ret (Z.of_N r mod n)%Z.

(** [rand.Float32()]: a multiple of 2^-24 in [0, 1). *)
Definition rand_Float32 (E : Env) : M S Q :=
  let* r := next_draw E in ret (Z.of_N (r mod 2 ^ 24)%N # 2 ^ 24).

Definition next_id (E : Env) : M S N :=
  λ st, let w := world st in
        (id_src E (id_pos w),
         mkSt (gin st) (spans st)
              (mkWorld (clock w) (rand_pos w) (Datatypes.S (id_pos w)) (exported w)
                       (registry w) (log_output w) (outbound w) (store w))).

(** *** Metric registry, log output, service store *)

Definition emit_metric (e : MetricEvent) : M S unit :=
  with_world (λ w, mkWorld (clock w) (rand_pos w) (id_pos w) (exported w)
                           (e :: registry w) (log_output w) (outbound w) (store w)).

Definition emit_log (r : LogRecord) : M S unit :=
  with_world (λ w, mkWorld (clock w) (rand_pos w) (id_pos w) (exported w)
                           (registry w) (r :: log_output w) (outbound w) (store w)).

Definition export_span (s : Span) : M S unit :=
  with_world (λ w, mkWorld (clock w) (rand_pos w) (id_pos w) (s :: exported w)
                           (registry w) (log_output w) (outbound w) (store w)).

Definition record_call (c : OutboundCall) : M S unit :=
  with_world (λ w, mkWorld (clock w) (rand_pos w) (id_pos w) (exported w)
                           (registry w) (log_output w) (c :: outbound w) (store w)).

Definition get_store : M S S := λ st, (store (world st), st).

Definition put_store (s : S) : M S unit :=
  with_world (λ w, mkWorld (clock w) (rand_pos w) (id_pos w) (exported w)
                           (registry w) (log_output w) (outbound w) s).

(** *** The gin context *)

Definition c_Request : M S Request := λ st, (gin_request (gin st), st).

Definition c_Request_Context : M S Context := λ st, (request_context (gin st), st).

Definition set_request_context (ctx : Context) : M S unit :=
  with_gin (λ g, mkGin (gin_request g) ctx (full_path g) (gin_params g)
                       (writer_status g) (writer_body g)).

Definition c_FullPath : M S string := λ st, (full_path (gin st), st).

Definition c_Writer_Status : M S Z := λ st, (writer_status (gin st), st).

Fixpoint lookup_param (k : string) (ps : list (string * string)) : string :=
  match ps with
  | [] => ""
  | (k', v) :: rest => if String.eqb k k' then v else lookup_param k rest
  end.

Definition c_Param (k : string) : M S string :=
  λ st, (lookup_param k (gin_params (gin st)), st).

Definition write (code : Z) (b : Body) : M S unit :=
  with_gin (λ g, mkGin (gin_request g) (request_context g) (full_path g)
                       (gin_params g) code b).

Definition c_JSON (code : Z) (obj : JSON) : M S unit := write code (JSONBody obj).

End Primitives.

(** ** Span tracker *)

Definition SpanRef : Type := option nat.

Definition zero_context : SpanContext := mkSpanContext 0 0 false.

(** [trace.SpanContextFromContext]: the zero context when there is no span. *)
Definition span_context_of (sp : list Span) (ctx : Context) : SpanContext :=
  match ctx with
  | Background => zero_context
  | RemoteParent sc => sc
  | Current h => from_option span_context zero_context (sp !! h)
  end.

(** [trace.SpanFromContext]: only a span of this request records. *)
Definition SpanFromContext (ctx : Context) : SpanRef :=
  match ctx with
  | Current h => Some h
  | _ => None
  end.

Definition parent_context (sp : list Span) (ctx : Context) : option SpanContext :=
  match ctx with
  | Background => None
  | RemoteParent sc => Some sc
  | Current h => span_context <$> sp !! h
  end.

Definition add_attributes (kvs : list (string * AttrValue)) (s : Span) : Span :=
  mkSpan (span_context s) (parentSpanID s) (span_name s) (attributes s ++ kvs)
         (recorded_errors s) (span_status s) (ended s).

Definition add_error (err : string) (s : Span) : Span :=
  mkSpan (span_context s) (parentSpanID s) (span_name s) (attributes s)
         (recorded_errors s ++ [err]) (span_status s) (ended s).

Definition set_status (status : SpanStatus) (s : Span) : Span :=
  mkSpan (span_context s) (parentSpanID s) (span_name s) (attributes s)
         (recorded_errors s) status (ended s).

Definition close (s : Span) : Span :=
  mkSpan (span_context s) (parentSpanID s) (span_name s) (attributes s)
         (recorded_errors s) (span_status s) true.

Section Tracer.
Context {S : Type}.

(** Modelled from the spec: [Start(name, parentContext)] of the tracing
    library returns a new open span whose trace id equals the parent's (or
    a newly synthesized one if there is no parent), with a freshly
    generated span id and the parent's span id as [parentSpanID].  The
    provider of [initTracer] samples every span ([AlwaysSample]). *)
Definition Start (E : Env) (ctx : Context) (name : string) : M S (Context * SpanRef) :=
  let* st := get in
  let parent := parent_context (spans st) ctx in
  let* tid := match parent with
              | Some p => ret (traceID p)
              | None => let* r := next_id E in ret (r mod 2 ^ trace_bits)%N
              end in
  let* r := next_id E in
  let h := length (spans st) in
  with_spans (λ l, l ++ [mkSpan (mkSpanContext tid (r mod 2 ^ span_bits)%N true)
                                (spanID <$> parent) name [] [] StatusUnset false]);;
  ret (Current h, Some h).

(** Mutations reach only a span that is still open. *)
Definition update_span (sp : SpanRef) (f : Span → Span) : M S unit :=
  match sp with
  | None => ret tt
  | Some h =>
      with_spans (λ l, match l !! h with
                       | Some s => if ended s then l else <[h := f s]> l
                       | None => l
                       end)
  end.

Definition SetAttributes (sp : SpanRef) (kvs : list (string * AttrValue)) : M S unit :=
  update_span sp (add_attributes kvs).

Definition RecordError (sp : SpanRef) (err : string) : M S unit :=
  update_span sp (add_error err).

Definition SetStatus (sp : SpanRef) (status : SpanStatus) : M S unit :=
  update_span sp (set_status status).

(** Modelled from the spec: [End] closes the span and is the only point at
    which it is handed (copied) to the exporter. *)
Definition End (sp : SpanRef) : M S unit :=
  match sp with
  | None => ret tt
  | Some h =>
      let* st := get in
      match spans st !! h with
      | Some s =>
          if ended s then ret tt
          else with_spans (λ l, <[h := close s]> l);; export_span (close s)
      | None => ret tt
      end
  end.

End Tracer.

(** ** Middleware *)

Section Middleware.
Context {S : Type}.

(** Modelled from the spec: the tracing middleware ([otelgin.Middleware],
    mounted first by every [main]) is library code.  Following the
    specification's flow it extracts the inbound context (continuing
    without a parent on [MissingContext], so that [Start] synthesizes a
    root context), opens the root span, binds it to the request for the
    rest of the chain, and closes it when the chain returns, recording the
    response status on it ([otelgin_close], its deferred part). *)
Definition otelgin_close (span : SpanRef) (saved : Context) : M S unit :=
  let* status := c_Writer_Status in
  (if (500 <=? status)%Z then SetStatus span (StatusError "") else ret tt);;
  SetAttributes span [("http.status_code", AInt status)];;
  End span;;
  set_request_context saved.

Definition otelginMiddleware (E : Env) (next : M S unit) : M S unit :=
  let* saved := c_Request_Context in
  let* req := c_Request in
  let* route := c_FullPath in
  let ctx := match Propagation.Extract (header req) with
             | Some sc => RemoteParent sc
             | None => saved
             end in
  let* (ctx', span) := Start E ctx (if String.eqb route ""
                                    then "HTTP " +:+ method req +:+ " route not found"
                                    else route) in
  set_request_context ctx';;
  next;;
  otelgin_close span saved.

(** [prometheusMiddleware] (the same text in all four services). *)
Definition prometheusMiddleware (next : M S unit) : M S unit :=
  let* start := time_Now in
  next;;
  let* stop := time_Now in
  let duration := (stop - start)%Z in
  let* status := c_Writer_Status in
  let statusCode := itoa status in
  let* req := c_Request in
  let* route := c_FullPath in
  emit_metric (Inc "http_requests_total" [method req; route; statusCode]);;
  emit_metric (Observe "http_request_duration_seconds" [method req; route] duration).

(** [loggingMiddleware]: gin's logger times the rest of the chain and then
    writes the line built by the formatter, which reads the trace id from
    the span context of the request.  [service] is the literal of the
    format string ([None] in the gateway, whose format has no such key). *)
Definition loggingMiddleware (E : Env) (service : option string) (next : M S unit) : M S unit :=
  let* start := time_Now in
  next;;
  let* stop := time_Now in
  let* st := get in
  let req := gin_request (gin st) in
  let spanCtx := span_context_of (spans st) (request_context (gin st)) in
  emit_log (AccessLog (format_rfc3339 E stop) service (method req) (path req)
                      (writer_status (gin st)) (stop - start)
                      (default "" (header req !! "User-Agent"))
                      (Hex.fixed 32 (traceID spanCtx))).

End Middleware.

(** ** Outbound calls *)

Section Client.
Context {S : Type}.

Definition hop_elapsed (h : Hop) : Z :=
  match h with
  | DoError d _ => d
  | Responded d _ _ => d
  end.

(** [client.Do(req)] followed by reading the body: the call is put on the
    wire with the headers set so far, and the network answers. *)
Definition client_Do (E : Env) (url : string) (hdr : gmap string string) : M S Hop :=
  let* st := get in
  let hop := transport E (length (outbound (world st))) url in
  record_call (mkCall url hdr);;
  advance (hop_elapsed hop);;
  ret hop.

(** [otel.GetTextMapPropagator().Inject(ctx, carrier)]. *)
Definition Inject (ctx : Context) (carrier : gmap string string)
  : M S (gmap string string) :=
  let* st := get in
  ret (Propagation.Inject (span_context_of (spans st) ctx) carrier).

(** [os.Getenv] with the default the handlers substitute for [""]. *)
Definition env_or (E : Env) (name fallback : string) : string :=
  if String.eqb (getenv E name) "" then fallback else getenv E name.

End Client.

(** ** Routing and the handler chain *)

Record Route (S : Type) := mkRoute {
  route_method : string;
  route_pattern : string;
  route_handler : Env → M S unit
}.
Arguments mkRoute {S}.
Arguments route_method {S}.
Arguments route_pattern {S}.
Arguments route_handler {S}.

(** What each [main] sets up: the name given to the tracer resource, the
    [service] literal of its access-log format, the collectors registered by
    [init], and the route table. *)
Record Service (S : Type) := mkService {
  service_name : string;
  log_service : option string;
  families : list Family;
  routes : list (Route S)
}.
Arguments mkService {S}.
Arguments service_name {S}.
Arguments log_service {S}.
Arguments families {S}.
Arguments routes {S}.

(** The router of the web framework, for the patterns the services use:
    literal segments and [:name] segments, which match one non-empty path
    segment.  (Its automatic redirects are not modelled.) *)
Fixpoint split_slash (cur : string) (s : string) : list string :=
  match s with
  | "" => [cur]
  | String c s' =>
      if Ascii.eqb c "/" then cur :: split_slash "" s'
      else split_slash (cur +:+ String c "") s'
  end.

Fixpoint match_segments (pat segs : list string) : option (list (string * string)) :=
  match pat, segs with
  | [], [] => Some []
  | String ":" name :: pat', x :: segs' =>
      if String.eqb x "" then None
      else cons (name, x) <$> match_segments pat' segs'
  | p :: pat', x :: segs' =>
      if String.eqb p x then match_segments pat' segs' else None
  | _, _ => None
  end.

Definition match_route {S} (r : Route S) (m p : string) : option (list (string * string)) :=
  if String.eqb (route_method r) m
  then match_segments (split_slash "" (route_pattern r)) (split_slash "" p)
  else None.

Fixpoint dispatch {S} (rs : list (Route S)) (m p : string)
  : option (Route S * list (string * string)) :=
  match rs with
  | [] => None
  | r :: rs' =>
      match match_route r m p with
      | Some ps => Some (r, ps)
      | None => dispatch rs' m p
      end
  end.

Record Result (S : Type) := mkResult {
  response : Response;
  request_spans : list Span;
  final_world : World S
}.
Arguments mkResult {S}.
Arguments response {S}.
Arguments request_spans {S}.
Arguments final_world {S}.

(** The chain every [main] mounts, outermost first: recovery (no handler of
    these services panics, so it is the identity here), tracing, metrics,
    access log, then the route's handler. *)
Definition chain {S} (svc : Service S) (E : Env) (h : M S unit) : M S unit :=
  otelginMiddleware E (prometheusMiddleware (loggingMiddleware E (log_service svc) h)).

Definition finish {S} (out : unit * St S) : Result S :=
  let st := snd out in
  mkResult (mkResponse (writer_status (gin st)) (writer_body (gin st)))
           (spans st) (world st).

(** One inbound request.  An unmatched request still runs the middleware,
    around the framework's 404 answer.  The router's automatic redirect of a
    path that differs from a registered one only by a trailing slash is not
    modelled: such a request is handled here as an unmatched one. *)
Definition serve {S} (svc : Service S) (E : Env) (req : Request) (w : World S) : Result S :=
  match dispatch (routes svc) (method req) (path req) with
  | Some (r, ps) =>
      finish (chain svc E (route_handler r E)
                    (mkSt (mkGin req Background (route_pattern r) ps 200 NoBody) [] w))
  | None =>
      finish (chain svc E (ret tt)
                    (mkSt (mkGin req Background "" [] 404 (TextBody "404 page not found")) [] w))
  end.

(** *** Routes every service mounts *)

Section CommonRoutes.
Context {S : Type}.

(** [GET /health]. *)
Definition health (name : string) (E : Env) : M S unit :=
  c_JSON 200 (JObj [("status", JStr "healthy"); ("service", JStr name)]).

(** [GET /metrics]: [promhttp.Handler()] over the default registry, in which
    [init] registered [fams]. *)
Definition metrics (fams : list Family) (E : Env) : M S unit :=
  let* st := get in
  write 200 (TextBody (exposition E fams (registry (world st)))).

End CommonRoutes.

Definition http_families : list Family :=
  [mkFamily "http_requests_total" Counter ["method"; "endpoint"; "status_code"];
   mkFamily "http_request_duration_seconds" Histogram ["method"; "endpoint"]].

(** [strconv.Atoi]: an optional sign and at least one decimal digit, within
    the 64-bit range of [int]. *)
Fixpoint parse_digits (acc : Z) (s : string) : option Z :=
  match s with
  | "" => Some acc
  | String c s' =>
      let n := Z.of_N (N_of_ascii c) in
      if ((48 <=? n) && (n <=? 57))%Z then parse_digits (10 * acc + (n - 48))%Z s'
      else None
  end.

Definition Atoi (s : string) : option Z :=
  let '(neg, ds) := match s with
                    | String "-" r => (true, r)
                    | String "+" r => (false, r)
                    | _ => (false, s)
                    end in
  match ds with
  | "" => None
  | _ =>
      match parse_digits 0 ds with
      | Some v =>
          let z := if neg then (- v)%Z else v in
          if ((- 2 ^ 63 <=? z) && (z <? 2 ^ 63))%Z then Some z else None
      | None => None
      end
  end.

(** Increment of a Go [int] (64-bit, wrapping). *)
Definition incr (z : Z) : Z := ((z + 1 + 2 ^ 63) mod 2 ^ 64 - 2 ^ 63)%Z.

Definition millisecond : Z := 1000000.

(** ** user-service *)

Module UserService.

Definition name : string := "user-service".

(** The package-level [users] map as [main] finds it. *)
Definition users : gmap Z User :=
  <[1%Z := mkUser 1 "张三" "zhangsan@example.com" 25 "active" "2023-01-01T00:00:00Z"]>
  (<[2%Z := mkUser 2 "李四" "lisi@example.com" 30 "active" "2023-01-02T00:00:00Z"]>
  (<[3%Z := mkUser 3 "王五" "wangwu@example.com" 28 "inactive" "2023-01-03T00:00:00Z"]> ∅)).

Definition userOperations (operation status : string) : MetricEvent :=
  Inc "user_operations_total" [operation; status].

Definition simulateWork (E : Env) (ctx : Context) (operation : string)
  : M (gmap Z User) unit :=
  let* (_, span) := Start E ctx ("simulate-" +:+ operation) in
  let* r := rand_Intn E 500 in
  let workTime := ((r + 50) * millisecond)%Z in
  time_Sleep workTime;;
  SetAttributes span [("operation", AStr operation);
                      ("work_duration_ms", AInt (workTime / millisecond))];;
  End span.

Definition getUserByID (E : Env) : M (gmap Z User) unit :=
  let* userIDStr := c_Param "id" in
  match Atoi userIDStr with
  | None =>
      emit_metric (userOperations "get_user" "error");;
      c_JSON 400 (JObj [("error", JStr "Invalid user ID")])
  | Some userID =>
      let* ctx := c_Request_Context in
      let span := SpanFromContext ctx in
      SetAttributes span [("user.id", AInt userID); ("operation", AStr "get_user")];;
      simulateWork E ctx "database_query";;
      let* users := get_store in
      match users !! userID with
      | None =>
          emit_metric (userOperations "get_user" "not_found");;
          SetAttributes span [("result", AStr "not_found")];;
          c_JSON 404 (JObj [("error", JStr "User not found")])
      | Some user =>
          simulateWork E ctx "data_processing";;
          emit_metric (userOperations "get_user" "success");;
          SetAttributes span [("result", AStr "success");
                              ("user.name", AStr (user_Name user));
                              ("user.email", AStr (user_Email user))];;
          c_JSON 200 (json_of_user user)
      end
  end.

(** The order of [range users] is unspecified in Go; the embedding lists
    the map in the order of its enumeration. *)
Definition getAllUsers (E : Env) : M (gmap Z User) unit :=
  let* ctx := c_Request_Context in
  let span := SpanFromContext ctx in
  SetAttributes span [("operation", AStr "get_all_users")];;
  simulateWork E ctx "database_query_all";;
  let* users := get_store in
  let userList := snd <$> map_to_list users in
  simulateWork E ctx "data_processing";;
  emit_metric (userOperations "get_all_users" "success");;
  SetAttributes span [("result", AStr "success");
                      ("users.count", AInt (Z.of_nat (length userList)))];;
  c_JSON 200 (JObj [("users", json_of_slice json_of_user userList);
                    ("total", JInt (Z.of_nat (length userList)))]).

Definition createUser (E : Env) : M (gmap Z User) unit :=
  let* req := c_Request in
  match bind_user E (payload req) with
  | inl err =>
      emit_metric (userOperations "create_user" "error");;
      c_JSON 400 (JObj [("error", JStr err)])
  | inr newUser =>
      let* ctx := c_Request_Context in
      let span := SpanFromContext ctx in
      SetAttributes span [("operation", AStr "create_user");
                          ("user.name", AStr (user_Name newUser));
                          ("user.email", AStr (user_Email newUser))];;
      let* users := get_store in
      let* now := time_Now in
      let newUser := mkUser (Z.of_nat (size users) + 1) (user_Name newUser)
                            (user_Email newUser) (user_Age newUser) "active"
                            (format_rfc3339 E now) in
      simulateWork E ctx "database_insert";;
      let* users := get_store in
      put_store (<[user_ID newUser := newUser]> users);;
      emit_metric (userOperations "create_user" "success");;
      SetAttributes span [("result", AStr "success"); ("user.id", AInt (user_ID newUser))];;
      c_JSON 201 (json_of_user newUser)
  end.

Definition registered : list Family :=
  http_families ++ [mkFamily "user_operations_total" Counter ["operation"; "status"]].

Definition service : Service (gmap Z User) :=
  mkService name (Some name) registered
    [mkRoute "GET" "/health" (health name);
     mkRoute "GET" "/metrics" (metrics registered);
     mkRoute "GET" "/users/:id" getUserByID;
     mkRoute "GET" "/users" getAllUsers;
     mkRoute "POST" "/users" createUser].

End UserService.

(** ** order-service *)

Record OrderStore := mkOrderStore {
  orders : list Order;
  nextOrderID : Z
}.

Module OrderService.

Definition name : string := "order-service".

(** The package-level [orders] and [nextOrderID] as [main] finds them; the
    amounts are the decimal literals of the source. *)
Definition initial : OrderStore :=
  mkOrderStore
    [mkOrder 1 1 "笔记本电脑" (599999 # 100) "completed" "2023-01-01T10:00:00Z";
     mkOrder 2 2 "智能手机" (299999 # 100) "processing" "2023-01-02T11:00:00Z"]
    3.

Definition orderOperations (operation status : string) : MetricEvent :=
  Inc "order_operations_total" [operation; status].

(** Result and error of a downstream call, as the Go pair. *)
Definition callUserService (E : Env) (ctx : Context) (userID : Z)
  : M OrderStore (option (list (string * JSON)) * option string) :=
  let* (ctx, span) := Start E ctx "call-user-service" in
  let userServiceURL := env_or E "USER_SERVICE_URL" "http://localhost:8081" in
  let url := userServiceURL +:+ "/users/" +:+ itoa userID in
  SetAttributes span [("http.url", AStr url); ("user.id", AInt userID)];;
  match new_request_error E url with
  | Some err => RecordError span err;; End span;; ret (None, Some err)
  | None =>
      let* hdr := Inject ctx ∅ in
      let* hop := client_Do E url hdr in
      match hop with
      | DoError _ err => RecordError span err;; End span;; ret (None, Some err)
      | Responded _ status (inl err) =>
          RecordError span err;; End span;; ret (None, Some err)
      | Responded _ status (inr body) =>
          match json_unmarshal E body with
          | inl err => RecordError span err;; End span;; ret (None, Some err)
          | inr user =>
              SetAttributes span [("http.status_code", AInt status)];;
              End span;;
              ret (user, None)
          end
      end
  end.

Definition simulateWork (E : Env) (ctx : Context) (operation : string)
  : M OrderStore unit :=
  let* (_, span) := Start E ctx ("simulate-" +:+ operation) in
  let* r := rand_Intn E 300 in
  let workTime := ((r + 100) * millisecond)%Z in
  time_Sleep workTime;;
  SetAttributes span [("operation", AStr operation);
                      ("work_duration_ms", AInt (workTime / millisecond))];;
  End span.

Definition getOrders (E : Env) : M OrderStore unit :=
  let* ctx := c_Request_Context in
  let span := SpanFromContext ctx in
  SetAttributes span [("operation", AStr "get_orders")];;
  simulateWork E ctx "database_query";;
  emit_metric (orderOperations "get_orders" "success");;
  let* s := get_store in
  SetAttributes span [("result", AStr "success");
                      ("orders.count", AInt (Z.of_nat (length (orders s))))];;
  c_JSON 200 (JObj [("orders", JArr (json_of_order <$> orders s));
                    ("total", JInt (Z.of_nat (length (orders s))))]).

Definition createOrder (E : Env) : M OrderStore unit :=
  let* req := c_Request in
  match bind_order_req E (payload req) with
  | inl err =>
      emit_metric (orderOperations "create_order" "error");;
      c_JSON 400 (JObj [("error", JStr err)])
  | inr orderReq =>
      let* ctx := c_Request_Context in
      let span := SpanFromContext ctx in
      SetAttributes span [("operation", AStr "create_order");
                          ("user.id", AInt (req_UserID orderReq));
                          ("product", AStr (req_Product orderReq));
                          ("amount", AFloat (req_Amount orderReq))];;
      let* (user, err) := callUserService E ctx (req_UserID orderReq) in
      match err with
      | Some e =>
          emit_metric (orderOperations "create_order" "error");;
          RecordError span e;;
          c_JSON 400 (JObj [("error", JStr "用户验证失败")])
      | None =>
          simulateWork E ctx "order_processing";;
          let* s := get_store in
          let* now := time_Now in
          let newOrder := mkOrder (nextOrderID s) (req_UserID orderReq)
                                  (req_Product orderReq) (req_Amount orderReq)
                                  "processing" (format_rfc3339 E now) in
          put_store (mkOrderStore (orders s ++ [newOrder]) (incr (nextOrderID s)));;
          emit_metric (orderOperations "create_order" "success");;
          SetAttributes span [("result", AStr "success");
                              ("order.id", AInt (order_ID newOrder))];;
          c_JSON 201 (JObj [("order", json_of_order newOrder);
                            ("user", json_of_map user)])
      end
  end.

Definition getOrderByID (E : Env) : M OrderStore unit :=
  let* orderIDStr := c_Param "id" in
  match Atoi orderIDStr with
  | None =>
      emit_metric (orderOperations "get_order" "error");;
      c_JSON 400 (JObj [("error", JStr "Invalid order ID")])
  | Some orderID =>
      let* ctx := c_Request_Context in
      let span := SpanFromContext ctx in
      SetAttributes span [("order.id", AInt orderID); ("operation", AStr "get_order")];;
      simulateWork E ctx "database_query";;
      let* s := get_store in
      match List.find (λ o, (order_ID o =? orderID)%Z) (orders s) with
      | Some order =>
          emit_metric (orderOperations "get_order" "success");;
          SetAttributes span [("result", AStr "success")];;
          c_JSON 200 (json_of_order order)
      | None =>
          emit_metric (orderOperations "get_order" "not_found");;
          SetAttributes span [("result", AStr "not_found")];;
          c_JSON 404 (JObj [("error", JStr "Order not found")])
      end
  end.

Definition registered : list Family :=
  http_families ++ [mkFamily "order_operations_total" Counter ["operation"; "status"]].

Definition service : Service OrderStore :=
  mkService name (Some name) registered
    [mkRoute "GET" "/health" (health name);
     mkRoute "GET" "/metrics" (metrics registered);
     mkRoute "GET" "/orders" getOrders;
     mkRoute "POST" "/orders" createOrder;
     mkRoute "GET" "/orders/:id" getOrderByID].

End OrderService.

(** ** notification-service *)

Module NotificationService.

Definition name : string := "notification-service".

(** The package-level [nextNotificationID] is the whole store. *)
Definition initial : Z := 1.

Definition notificationsSent (type status : string) : MetricEvent :=
  Inc "notifications_sent_total" [type; status].

(** [a < b] on the rationals that stand for [float32] values. *)
Definition Qltb (a b : Q) : bool := negb (Qle_bool b a).

(** The constant [0.05] of the source as the [float32] it is compared at. *)
Definition failure_rate : Q := 13421773 # 268435456.

Definition simulateNotificationSending (E : Env) (ctx : Context)
    (notificationType : string) : M Z unit :=
  let* (_, span) := Start E ctx ("send-" +:+ notificationType +:+ "-notification") in
  let* sendTime :=
    if String.eqb notificationType "email" then
      let* r := rand_Intn E 1000 in ret ((r + 500) * millisecond)%Z
    else if String.eqb notificationType "sms" then
      let* r := rand_Intn E 300 in ret ((r + 100) * millisecond)%Z
    else if String.eqb notificationType "push" then
      let* r := rand_Intn E 200 in ret ((r + 50) * millisecond)%Z
    else
      let* r := rand_Intn E 500 in ret ((r + 200) * millisecond)%Z in
  time_Sleep sendTime;;
  SetAttributes span [("notification.type", AStr notificationType);
                      ("send_duration_ms", AInt (sendTime / millisecond))];;
  let* f := rand_Float32 E in
  (if Qltb f failure_rate then
     SetAttributes span [("result", AStr "failed")];;
     emit_metric (notificationsSent notificationType "failed");;
     RecordError span "notification sending failed"
   else
     SetAttributes span [("result", AStr "success")];;
     emit_metric (notificationsSent notificationType "success"));;
  End span.

Definition notificationTypes : list string := ["email"; "sms"; "push"].

Definition sendNotification (E : Env) : M Z unit :=
  let* ctx := c_Request_Context in
  let span := SpanFromContext ctx in
  SetAttributes span [("operation", AStr "send_notification")];;
  let* i := rand_Intn E (Z.of_nat (length notificationTypes)) in
  let notificationType := default "" (notificationTypes !! Z.to_nat i) in
  simulateNotificationSending E ctx notificationType;;
  let* nextNotificationID := get_store in
  let* n := rand_Intn E 10000 in
  let* now := time_Now in
  let notification :=
    mkNotification nextNotificationID notificationType
      ("您的订单已创建成功，订单号：" +:+ itoa (n + 1000))
      "sent" (format_rfc3339 E now) in
  put_store (incr nextNotificationID);;
  SetAttributes span [("notification.type", AStr notificationType);
                      ("notification.id", AInt (notif_ID notification));
                      ("result", AStr "success")];;
  c_JSON 200 (json_of_notification notification).

Definition sendFixed (operation type message : string) (E : Env) : M Z unit :=
  let* ctx := c_Request_Context in
  let span := SpanFromContext ctx in
  SetAttributes span [("operation", AStr operation)];;
  simulateNotificationSending E ctx type;;
  let* nextNotificationID := get_store in
  let* now := time_Now in
  let notification :=
    mkNotification nextNotificationID type message "sent" (format_rfc3339 E now) in
  put_store (incr nextNotificationID);;
  SetAttributes span [("notification.id", AInt (notif_ID notification));
                      ("result", AStr "success")];;
  c_JSON 200 (json_of_notification notification).

(** [sendEmail] and [sendSMS] differ only in their literals. *)
Definition sendEmail : Env → M Z unit := sendFixed "send_email" "email" "邮件通知已发送".
Definition sendSMS : Env → M Z unit := sendFixed "send_sms" "sms" "短信通知已发送".

Definition registered : list Family :=
  http_families ++ [mkFamily "notifications_sent_total" Counter ["type"; "status"]].

Definition service : Service Z :=
  mkService name (Some name) registered
    [mkRoute "GET" "/health" (health name);
     mkRoute "GET" "/metrics" (metrics registered);
     mkRoute "GET" "/notify" sendNotification;
     mkRoute "POST" "/email" sendEmail;
     mkRoute "POST" "/sms" sendSMS].

End NotificationService.

(** ** api-gateway *)

Module Gateway.

Definition name : string := "api-gateway".

Definition serviceCalls (service status : string) : MetricEvent :=
  Inc "service_calls_total" [service; status].

Definition callService (E : Env) (ctx : Context) (serviceName url : string)
  : M unit (option (list (string * JSON)) * option string) :=
  let* (ctx, span) := Start E ctx ("call-" +:+ serviceName) in
  SetAttributes span [("service.name", AStr serviceName);
                      ("http.url", AStr url);
                      ("http.method", AStr "GET")];;
  match new_request_error E url with
  | Some err =>
      RecordError span err;;
      emit_metric (serviceCalls serviceName "error");;
      End span;;
      ret (None, Some err)
  | None =>
      let* hdr := Inject ctx ∅ in
      let* hop := client_Do E url hdr in
      match hop with
      | DoError _ err =>
          RecordError span err;;
          emit_metric (serviceCalls serviceName "error");;
          End span;;
          ret (None, Some err)
      | Responded _ status body =>
          (if ((200 <=? status) && (status <? 300))%Z
           then emit_metric (serviceCalls serviceName "success")
           else emit_metric (serviceCalls serviceName "error"));;
          match body with
          | inl err => RecordError span err;; End span;; ret (None, Some err)
          | inr bytes =>
              match json_unmarshal E bytes with
              | inl err => RecordError span err;; End span;; ret (None, Some err)
              | inr result =>
                  SetAttributes span [("http.status_code", AInt status)];;
                  End span;;
                  ret (result, None)
              end
          end
      end
  end.

Definition error_body (err : string) : JSON := JObj [("error", JStr err)].

(** [GET /api/v1/users/:id]. *)
Definition getUser (E : Env) : M unit unit :=
  let* userID := c_Param "id" in
  let userServiceURL := env_or E "USER_SERVICE_URL" "http://localhost:8081" in
  let* ctx := c_Request_Context in
  let* (user, err) := callService E ctx "user-service"
                                  (userServiceURL +:+ "/users/" +:+ userID) in
  match err with
  | Some e => c_JSON 500 (error_body e)
  | None => c_JSON 200 (json_of_map user)
  end.

(** [POST /api/v1/orders]: the composite create-order request. *)
Definition postOrders (E : Env) : M unit unit :=
  let* req := c_Request in
  match bind_map E (payload req) with
  | inl err => c_JSON 400 (error_body err)
  | inr orderReq =>
      let orderServiceURL := env_or E "ORDER_SERVICE_URL" "http://localhost:8082" in
      let* ctx := c_Request_Context in
      let* (order, err) := callService E ctx "order-service"
                                       (orderServiceURL +:+ "/orders") in
      match err with
      | Some e => c_JSON 500 (error_body e)
      | None =>
          let notificationServiceURL :=
            env_or E "NOTIFICATION_SERVICE_URL" "http://localhost:8083" in
          let* (notification, err) :=
            callService E ctx "notification-service"
                        (notificationServiceURL +:+ "/notify") in
          (match err with
           | Some e => emit_log (StdLog ("Failed to send notification: " +:+ e))
           | None => ret tt
           end);;
          c_JSON 200 (JObj [("order", json_of_map order);
                            ("notification", json_of_map notification)])
      end
  end.

(** [GET /api/v1/orders]. *)
Definition getOrders (E : Env) : M unit unit :=
  let orderServiceURL := env_or E "ORDER_SERVICE_URL" "http://localhost:8082" in
  let* ctx := c_Request_Context in
  let* (orders, err) := callService E ctx "order-service"
                                    (orderServiceURL +:+ "/orders") in
  match err with
  | Some e => c_JSON 500 (error_body e)
  | None => c_JSON 200 (json_of_map orders)
  end.

Definition registered : list Family :=
  http_families ++ [mkFamily "service_calls_total" Counter ["service"; "status"]].

(** The gateway's access-log format has no [service] key. *)
Definition service : Service unit :=
  mkService name None registered
    [mkRoute "GET" "/health" (health name);
     mkRoute "GET" "/metrics" (metrics registered);
     mkRoute "GET" "/api/v1/users/:id" getUser;
     mkRoute "POST" "/api/v1/orders" postOrders;
     mkRoute "GET" "/api/v1/orders" getOrders].

End Gateway.


(** ** The structured-logging demo application *)

Module LoggerApp.

Definition serviceName : string := "my-go-filebeat-app".
Definition serviceVersion : string := "1.0.0".

(** A [*slog.Logger] is the list of attributes attached to it by [With]. *)
Definition Logger : Type := list (string * AttrValue).

(** [InitLogger]: the base logger, installed as the default one. *)
Definition baseLogger : Logger :=
  [("service_name", AStr serviceName); ("service_version", AStr serviceVersion)].

Definition With (l : Logger) (attrs : list (string * AttrValue)) : Logger := l ++ attrs.

(** [l.Info] and [l.Error]: both levels pass the handler's minimum level. *)
Definition log (E : Env) (l : Logger) (level msg : string)
    (attrs : list (string * AttrValue)) : M unit unit :=
  let* now := time_Now in
  emit_log (Structured (format_rfc3339 E now) level msg (l ++ attrs)).

(** [rand.Int63n(n)] for the positive [n] the clock gives. *)
Definition rand_Int63n (E : Env) (n : Z) : M unit Z :=
  let* r := next_draw E in ret (Z.of_N r mod n)%Z.

(** [getMockTraceID]: the context is not consulted. *)
Definition getMockTraceID (E : Env) (ctx : Context) : M unit string :=
  let* now := time_Now in
  let* r := rand_Int63n E now in
  ret ("trace-" +:+ hex_of (Z.to_N r)).

Definition newline : string := String (ascii_of_nat 10) "".

(** The handler of [/hello]. *)
Definition hello (E : Env) : M unit unit :=
  let* req := c_Request in
  let* ctx := c_Request_Context in
  let* traceID := getMockTraceID E ctx in
  let* requestID :=
    if String.eqb (default "" (header req !! "X-Request-Id")) ""
    then let* now := time_Now in
         let* r := rand_Int63n E now in
         ret ("req-" +:+ hex_of (Z.to_N r))
    else ret (default "" (header req !! "X-Request-Id")) in
  let reqLogger := With baseLogger [("trace_id", AStr traceID);
                                    ("request_id", AStr requestID);
                                    ("http_method", AStr (method req));
                                    ("http_path", AStr (path req))] in
  log E reqLogger "INFO" "Received request for /hello." [];;
  let* r := rand_Intn E 100 in
  let processingTime := ((r + 20) * millisecond)%Z in
  time_Sleep processingTime;;
  let* r := rand_Intn E 10 in
  if (r <? 2)%Z then
    log E reqLogger "ERROR" "Failed to process /hello request."
        [("error", AStr "simulated internal error processing hello request");
         ("processing_time_ms", AInt processingTime)];;
    write 500 (TextBody ("Internal Server Error" +:+ newline))
  else
    log E reqLogger "INFO" "Successfully processed /hello request."
        [("processing_time_ms", AInt processingTime);
         ("response_payload", AStr "Hello Gopher!")];;
    write 200 (TextBody ("Hello Gopher!" +:+ newline)).

(** One request to [/hello] on the default mux. *)
Definition serve_hello (E : Env) (req : Request) (w : World unit) : Result unit :=
  finish (hello E (mkSt (mkGin req Background "/hello" [] 200 NoBody) [] w)).

End LoggerApp.

(** ** Notions the properties are stated with *)

(** How both [callService] and [callUserService] classify the answer to the
    [k]-th outbound request: their Go result pair. *)
Definition call_outcome (E : Env) (k : nat) (url : string)
  : option (list (string * JSON)) * option string :=
  match new_request_error E url with
  | Some err => (None, Some err)
  | None =>
      match transport E k url with
      | DoError _ err => (None, Some err)
      | Responded _ _ (inl err) => (None, Some err)
      | Responded _ _ (inr body) =>
          match json_unmarshal E body with
          | inl err => (None, Some err)
          | inr result => (result, None)
          end
      end
  end.

(** The trace a request belongs to: the inbound header's, or the one the
    tracer synthesizes from its next id. *)
Definition trace_of {S} (E : Env) (req : Request) (w : World S) : N :=
  match Propagation.Extract (header req) with
  | Some sc => traceID sc
  | None => (id_src E (id_pos w) mod 2 ^ trace_bits)%N
  end.

(** The route template a request is matched to ([c.FullPath()]). *)
Definition route_of {S} (svc : Service S) (req : Request) : string :=
  match dispatch (routes svc) (method req) (path req) with
  | Some (r, _) => route_pattern r
  | None => ""
  end.

Definition one_of (l : list string) (s : string) : bool := existsb (String.eqb s) l.

(** A domain counter update with its two labels drawn from fixed lists. *)
Definition domain_event (name : string) (firsts statuses : list string)
    (e : MetricEvent) : bool :=
  match e with
  | Inc n [a; b] => String.eqb n name && one_of firsts a && one_of statuses b
  | _ => false
  end.

(** The label literals each service passes to its domain counter. *)
Definition user_vocabulary : MetricEvent → bool :=
  domain_event "user_operations_total" ["get_user"; "get_all_users"; "create_user"]
               ["success"; "error"; "not_found"].

Definition order_vocabulary : MetricEvent → bool :=
  domain_event "order_operations_total" ["get_orders"; "create_order"; "get_order"]
               ["success"; "error"; "not_found"].

Definition notification_vocabulary : MetricEvent → bool :=
  domain_event "notifications_sent_total" ["email"; "sms"; "push"] ["success"; "failed"].

Definition gateway_vocabulary : MetricEvent → bool :=
  domain_event "service_calls_total"
               ["user-service"; "order-service"; "notification-service"]
               ["success"; "error"].

(** The outcome enumeration of the specification. *)
Definition outcome_enumeration : list string := ["success"; "error"; "not_found"].

Definition is_http_metric (e : MetricEvent) : bool :=
  one_of ["http_requests_total"; "http_request_duration_seconds"] (metric_name e).

(** The class of a status code (2 for 200..299, and so on). *)
Definition status_class (status : Z) : Z := (status / 100)%Z.

(** ** Hoare triples over the handler monad *)

Definition hoare {S A} (P : St S → Prop) (m : M S A) (Q : A → St S → Prop) : Prop :=
  ∀ st, P st → Q (m st).1 (m st).2.

(** What holds of the state all through the handling of one request, between
    the opening of the root span and its closing: the request, its route and
    its context stay as the tracing middleware left them; the root span keeps
    its parent; every span of the request is in trace [T]; the registry has
    grown by events that [ok] accepts and the log by lines that [okl]
    accepts. *)
Record Inv {S} (req : Request) (route : string) (w0 : World S) (T : N)
    (p0 : option N) (ok : MetricEvent → bool) (okl : LogRecord → bool)
    (st : St S) : Prop := mkInv {
  inv_request : gin_request (gin st) = req;
  inv_route : full_path (gin st) = route;
  inv_context : request_context (gin st) = Current 0;
  inv_root : ∃ root, spans st !! 0 = Some root ∧ parentSpanID root = p0;
  inv_trace : Forall (λ s, traceID (span_context s) = T) (spans st);
  inv_registry : ∃ evs, registry (world st) = evs ++ registry w0
                        ∧ Forall (λ e, ok e = true) evs;
  inv_log : ∃ ls, log_output (world st) = ls ++ log_output w0
                  ∧ Forall (λ r, okl r = true) ls
}.

(** A log line that offers no trace id. *)
Definition no_trace_id (r : LogRecord) : bool :=
  match log_trace_id r with
  | None => true
  | Some _ => false
  end.

(** A handler is well behaved when it keeps [Inv], whatever the request:
    it emits only domain events that [ok] accepts and only log lines without
    a trace id. *)
Definition well_behaved {S} (ok : MetricEvent → bool) (h : M S unit) : Prop :=
  ∀ req route (w0 : World S) T p0,
    hoare (Inv req route w0 T p0 ok no_trace_id) h
          (λ _, Inv req route w0 T p0 ok no_trace_id).
(** What the middleware chain guarantees of a handled request: every span
    of the request is in trace [T]; the root span has parent [p0]; the
    registry has grown by the handler's events, which [ok] accepts, then one
    increment of the request counter and one observation of the time spent;
    the log has grown by the handler's lines, which carry no trace id, then
    the access-log line, which carries [T]. *)
Definition handled {S} (svc : Service S) (ok : MetricEvent → bool) (req : Request)
    (route : string) (T : N) (p0 : option N) (w : World S) (res : Result S) : Prop :=
  Forall (λ s, traceID (span_context s) = T) (request_spans res)
  ∧ (∃ root, request_spans res !! 0 = Some root ∧ parentSpanID root = p0)
  ∧ (∃ evs, registry (final_world res)
            = Observe "http_request_duration_seconds" [method req; route]
                      (clock (final_world res) - clock w)
              :: Inc "http_requests_total"
                     [method req; route; itoa (resp_status (response res))]
              :: evs ++ registry w
            ∧ Forall (λ e, ok e = true) evs)
  ∧ (∃ time latency ls,
        log_output (final_world res)
        = AccessLog time (log_service svc) (method req) (path req)
                    (resp_status (response res)) latency
                    (default "" (header req !! "User-Agent")) (Hex.fixed 32 T)
          :: ls ++ log_output w
        ∧ Forall (λ r, log_trace_id r = None) ls).

(** ** The properties, as predicates *)

(** Correlation of the signals of one request: every span is in the
    request's trace, the root span's parent is the inbound header's span (if
    any), the access-log line carries the trace id, and the other lines
    logged meanwhile carry none.  With a valid inbound header the trace is
    the header's. *)
Definition correlated {S} (svc : Service S) : Prop :=
  ∀ E req w,
    let res := serve svc E req w in
    let T := trace_of E req w in
    Forall (λ s, traceID (span_context s) = T) (request_spans res)
    ∧ (∃ root, request_spans res !! 0 = Some root
               ∧ parentSpanID root = spanID <$> Propagation.Extract (header req))
    ∧ (∀ sc, Propagation.Extract (header req) = Some sc → T = traceID sc)
    ∧ (∃ access others,
          log_output (final_world res) = access :: others ++ log_output w
          ∧ log_trace_id access = Some (Hex.fixed 32 T)
          ∧ Forall (λ r, log_trace_id r = None) others).

(** Every line logged for the request carries its trace id. *)
Definition all_logs_carry_trace {S} (svc : Service S) (E : Env) (req : Request)
    (w : World S) : Prop :=
  ∃ new, log_output (final_world (serve svc E req w)) = new ++ log_output w
         ∧ Forall (λ r, log_trace_id r = Some (Hex.fixed 32 (trace_of E req w))) new.

(** The request metrics: exactly one counter increment and one latency
    observation per request, after whatever the handler recorded. *)
Definition metered {S} (svc : Service S) : Prop :=
  ∀ E req w,
    let res := serve svc E req w in
    ∃ evs,
      registry (final_world res)
      = Observe "http_request_duration_seconds" [method req; route_of svc req]
                (clock (final_world res) - clock w)
        :: Inc "http_requests_total"
               [method req; route_of svc req; itoa (resp_status (response res))]
        :: evs ++ registry w
      ∧ Forall (λ e, is_http_metric e = false) evs.

(** The status label of the request counter, as the registry shows it. *)
Definition status_label {S} (res : Result S) : option string :=
  match registry (final_world res) with
  | _ :: Inc _ [_; _; c] :: _ => Some c
  | _ => None
  end.

(** The status label is a function of the status class. *)
Definition labelled_by_class {S} (svc : Service S) : Prop :=
  ∃ f : Z → string, ∀ E req w,
    status_label (serve svc E req w)
    = Some (f (status_class (resp_status (response (serve svc E req w))))).

(** Label vocabulary: the handler's events are accepted by [ok], and the
    route label is a registered template or empty. *)
Definition labels_within {S} (svc : Service S) (ok : MetricEvent → bool) : Prop :=
  ∀ E req w,
    let res := serve svc E req w in
    ∃ evs d,
      registry (final_world res)
      = Observe "http_request_duration_seconds" [method req; route_of svc req] d
        :: Inc "http_requests_total"
               [method req; route_of svc req; itoa (resp_status (response res))]
        :: evs ++ registry w
      ∧ Forall (λ e, ok e = true) evs
      ∧ (route_of svc req = "" ∨ route_of svc req ∈ route_pattern <$> routes svc).

(** The outcome label of a domain event: its last label. *)
Definition outcome_label (e : MetricEvent) : option string :=
  if is_http_metric e then None else last (metric_labels e).

Definition outcomes_enumerated (evs : list MetricEvent) : Prop :=
  Forall (λ e, ∀ o, outcome_label e = Some o → one_of outcome_enumeration o = true) evs.

(** A log record that carries trace id, request id and service identity. *)
Definition fully_tagged (r : LogRecord) : Prop :=
  is_Some (log_trace_id r) ∧ is_Some (log_request_id r) ∧ is_Some (log_service_name r).

(** The access-log line of a service: trace id from the span context, the
    [service] literal of its format, and no request id. *)
Definition access_logged {S} (svc : Service S) : Prop :=
  ∀ E req w,
    ∃ access others,
      log_output (final_world (serve svc E req w)) = access :: others ++ log_output w
      ∧ log_trace_id access = Some (Hex.fixed 32 (trace_of E req w))
      ∧ log_service_name access = log_service svc
      ∧ log_request_id access = None.

(** [GET /health] and [GET /metrics] of a service. *)
Definition exposes {S} (svc : Service S) : Prop :=
  ∀ E hdr body w,
    response (serve svc E (mkRequest "GET" "/health" hdr body) w)
    = mkResponse 200 (JSONBody (JObj [("status", JStr "healthy");
                                      ("service", JStr (service_name svc))]))
    ∧ response (serve svc E (mkRequest "GET" "/metrics" hdr body) w)
      = mkResponse 200 (TextBody (exposition E (families svc) (registry w)))
    ∧ (∃ domain, families svc
                 = [mkFamily "http_requests_total" Counter
                             ["method"; "endpoint"; "status_code"];
                    mkFamily "http_request_duration_seconds" Histogram
                             ["method"; "endpoint"];
                    domain]
                 ∧ family_kind domain = Counter).

(** The draw that decides whether the simulated send fails, for a request
    to [/notify] that starts in world [w]. *)
Definition send_fails (E : Env) (w : World Z) : bool :=
  NotificationService.Qltb
    (Z.of_N (rand_src E (Datatypes.S (Datatypes.S (rand_pos w))) mod 2 ^ 24)%N # 2 ^ 24)
    NotificationService.failure_rate.



(** The URLs of the gateway's and the order service's downstream calls. *)
Definition order_url (E : Env) : string :=
  env_or E "ORDER_SERVICE_URL" "http://localhost:8082" +:+ "/orders".

Definition notify_url (E : Env) : string :=
  env_or E "NOTIFICATION_SERVICE_URL" "http://localhost:8083" +:+ "/notify".

Definition user_url (E : Env) (userID : Z) : string :=
  env_or E "USER_SERVICE_URL" "http://localhost:8081" +:+ "/users/" +:+ itoa userID.

(** ** The handler inside the middleware chain *)

(** The state in which the chain hands the request to its handler: the
    tracing middleware has opened the root span (context [root], parent
    [parent]) and made it current, and has drawn ids up to [ids]; everything
    else is as the request found it. *)
Definition entry_state {S} (req : Request) (route : string) (ps : list (string * string))
    (w : World S) (root : SpanContext) (parent : option N) (name : string) (ids : nat)
  : St S :=
  mkSt (mkGin req (Current 0) route ps 200 NoBody)
       [mkSpan root parent name [] [] StatusUnset false]
       (mkWorld (clock w) (rand_pos w) ids (exported w) (registry w) (log_output w)
                (outbound w) (store w)).

(** What the chain keeps of the state [st2] in which the handler returns:
    the response is what the handler wrote; store, outbound calls and clock
    are the handler's; so are the child spans and the errors recorded on the
    root span; the registry gets the two request metrics and the log the
    access-log line. *)
Definition framed {S} (res : Result S) (st2 : St S) : Prop :=
  response res = mkResponse (writer_status (gin st2)) (writer_body (gin st2))
  ∧ store (final_world res) = store (world st2)
  ∧ outbound (final_world res) = outbound (world st2)
  ∧ clock (final_world res) = clock (world st2)
  ∧ drop 1 (request_spans res) = drop 1 (spans st2)
  ∧ (recorded_errors <$> request_spans res !! 0) = (recorded_errors <$> spans st2 !! 0)
  ∧ (∃ observation increment,
        registry (final_world res) = observation :: increment :: registry (world st2))
  ∧ (∃ access, log_output (final_world res) = access :: log_output (world st2)).

(** The [notification] field of a JSON response. *)
Definition notification_field {S} (res : Result S) : option JSON :=
  match resp_body (response res) with
  | JSONBody j => field_of "notification" j
  | _ => None
  end.

(** The response marks the notification as failed. *)
Definition flagged_failed {S} (res : Result S) : Prop :=
  notification_field res = Some (JStr "failed").

(** The lines logged for one request, newest first, given the log before. *)
Definition logged_for {S} (res : Result S) (w : World S) : list LogRecord :=
  take (length (log_output (final_world res)) - length (log_output w))
       (log_output (final_world res)).

(** The request id the [/hello] handler attaches to its logger: the inbound
    [X-Request-Id] header when it is not empty, and otherwise [req-] followed
    by the second draw of the request, reduced by the clock, in
    hexadecimal. *)
Definition hello_request_id (E : Env) (req : Request) (w : World unit) : string :=
  let inbound := default "" (header req !! "X-Request-Id") in
  if String.eqb inbound ""
  then "req-" +:+ hex_of (Z.to_N (Z.of_N (rand_src E (Datatypes.S (rand_pos w)))
                                  mod clock w))
  else inbound.

(** The records of one request to [/hello] of the logging application: two
    of them, each with trace id [tid], request id [rid], the service name
    and the service version. *)
Definition hello_logged (E : Env) (req : Request) (w : World unit) (tid rid : string)
  : Prop :=
  ∃ first second,
    log_output (final_world (LoggerApp.serve_hello E req w))
    = second :: first :: log_output w
    ∧ Forall (λ r, log_trace_id r = Some tid ∧ log_request_id r = Some rid
                   ∧ log_service_name r = Some LoggerApp.serviceName
                   ∧ log_service_version r = Some LoggerApp.serviceVersion)
             [first; second].

(** ** Concrete inputs *)

Module Demo.

(** The network: the order service answers, nothing else is reachable. *)
Definition orders_only (k : nat) (url : string) : Hop :=
  if String.eqb url "http://localhost:8082/orders"
  then Responded 5 200 (inr "order O123")
  else DoError 7 "connection refused".

Definition unreachable (k : nat) (url : string) : Hop := DoError 7 "connection refused".

(** The user service answers 404 with a JSON error body. *)
Definition user_not_found (k : nat) (url : string) : Hop :=
  Responded 3 404 (inr "user not found").

(** The order service answers 500 with a JSON error body. *)
Definition orders_broken (k : nat) (url : string) : Hop :=
  Responded 3 500 (inr "order failure").

Definition decode (body : string) : string + option (list (string * JSON)) :=
  if String.eqb body "order O123" then inr (Some [("id", JStr "O123")])
  else if String.eqb body "user not found" then inr (Some [("error", JStr "User not found")])
  else if String.eqb body "order failure" then inr (Some [("error", JStr "boom")])
  else inl "invalid character".

Definition render (fams : list Family) (evs : list MetricEvent) : string :=
  String.concat "," (family_name <$> fams) +:+ ":" +:+ itoa (Z.of_nat (length evs)).

(** Every draw of the random source is [draw]. *)
Definition env (draw : N) (net : nat → string → Hop) : Env :=
  mkEnv (λ _, "") (λ _, draw) (λ k, 1000 + N.of_nat k)%N (λ _, None) net decode
        (λ _, inr (Some []))
        (λ body, if String.eqb body "new user"
                 then inr (mkUser 0 "Zhao" "zhao@example.com" 41 "" "")
                 else inl "EOF")
        (λ body, if String.eqb body "order for 99"
                 then inr (mkOrderReq 99 "book" 10)
                 else inl "EOF")
        itoa render.

Definition world {S} (s : S) : World S := mkWorld 100 0 0 [] [] [] [] s.

(** The inbound header of the specification's scenario. *)
Definition traced : gmap string string :=
  <["Traceparent" := "00-4bf92f3577b34da6a3ce929d0e0e4736-00f067aa0ba902b7-01"]> ∅.

Definition create_order : Request := mkRequest "POST" "/api/v1/orders" traced "{}".
Definition get_user : Request := mkRequest "GET" "/users/1" ∅ "".
Definition create_user : Request := mkRequest "POST" "/users" ∅ "new user".
Definition notify : Request := mkRequest "GET" "/notify" ∅ "".
Definition order_for_99 : Request := mkRequest "POST" "/orders" ∅ "order for 99".
Definition hello : Request := mkRequest "GET" "/hello" ∅ "".

End Demo.

(** ** Further properties: definitions *)

(** A path segment: a string without a slash. *)
Fixpoint segment (s : string) : bool :=
  match s with
  | "" => true
  | String c s' => negb (Ascii.eqb c "/") && segment s'
  end.

(** The context of the root span the tracing middleware opens for a
    request: the trace of the inbound header, or a synthesized one, and a
    fresh span id. *)
Definition root_context {S} (E : Env) (req : Request) (w : World S) : SpanContext :=
  match Propagation.Extract (header req) with
  | Some sc => mkSpanContext (traceID sc) (id_src E (id_pos w) mod 2 ^ span_bits)%N true
  | None => mkSpanContext (id_src E (id_pos w) mod 2 ^ trace_bits)%N
                          (id_src E (Datatypes.S (id_pos w)) mod 2 ^ span_bits)%N true
  end.

Definition root_name (req : Request) (route : string) : string :=
  if String.eqb route "" then "HTTP " +:+ method req +:+ " route not found" else route.

(** The state in which the chain hands a request to its handler. *)
Definition entry {S} (E : Env) (req : Request) (route : string)
    (ps : list (string * string)) (code : Z) (b : Body) (w : World S) : St S :=
  mkSt (mkGin req (Current 0) route ps code b)
       [mkSpan (root_context E req w) (spanID <$> Propagation.Extract (header req))
               (root_name req route) [] [] StatusUnset false]
       (mkWorld (clock w) (rand_pos w)
                (match Propagation.Extract (header req) with
                 | Some _ => Datatypes.S (id_pos w)
                 | None => Datatypes.S (Datatypes.S (id_pos w))
                 end)
                (exported w) (registry w) (log_output w) (outbound w) (store w)).

(** Every key of the users map lies between 1 and the number of users. *)
Definition keys_in_range (users : gmap Z User) : bool :=
  forallb (λ k, (1 <=? k)%Z && (k <=? Z.of_nat (size users))%Z) (fst <$> map_to_list users).

(** The order ids of a store are pairwise distinct and below [nextOrderID]. *)
Definition well_numbered (s : OrderStore) : bool :=
  bool_decide (NoDup (order_ID <$> orders s))
  && forallb (λ o, (order_ID o <? nextOrderID s)%Z) (orders s).

(** The status under which [callService] counts a call: [error] when the
    request cannot be built or sent, otherwise by the class of the answer's
    status code. *)
Definition call_status (E : Env) (k : nat) (url : string) : string :=
  match new_request_error E url with
  | Some _ => "error"
  | None =>
      match transport E k url with
      | DoError _ _ => "error"
      | Responded _ status _ =>
          if ((200 <=? status) && (status <? 300))%Z then "success" else "error"
      end
  end.

(** The draw that decides whether the simulated send of a request to
    [/email] or [/sms] fails. *)
Definition fixed_send_fails (E : Env) (w : World Z) : bool :=
  NotificationService.Qltb
    (Z.of_N (rand_src E (Datatypes.S (rand_pos w)) mod 2 ^ 24)%N # 2 ^ 24)
    NotificationService.failure_rate.

(** What a handler leaves of the request's tracing when it returns: the
    root span is still open; every other span of the request is ended, is a
    child of the root span in the root's trace, and has been handed to the
    exporter in the order of its end; every outbound call made meanwhile
    carries the context of one of these spans. *)
Definition well_traced {S} (E : Env) (req : Request) (w : World S) (st : St S) : Prop :=
  let rc := root_context E req w in
  (∃ root, spans st !! 0%nat = Some root ∧ ended root = false
           ∧ span_context root = rc
           ∧ parentSpanID root = spanID <$> Propagation.Extract (header req))
  ∧ Forall (λ s, ended s = true ∧ parentSpanID s = Some (spanID rc)
                 ∧ traceID (span_context s) = traceID rc
                 ∧ (spanID (span_context s) < 2 ^ span_bits)%N)
           (drop 1 (spans st))
  ∧ exported (world st) = rev (drop 1 (spans st)) ++ exported w
  ∧ ∃ calls, outbound (world st) = calls ++ outbound w
             ∧ Forall (λ c, ∃ child, child ∈ drop 1 (spans st)
                                     ∧ call_header c
                                       = Propagation.Inject (span_context child) ∅)
                      calls.

(** The outbound calls made for one request, newest first. *)
Definition calls_of {S} (res : Result S) (w : World S) : list OutboundCall :=
  take (length (outbound (final_world res)) - length (outbound w))
       (outbound (final_world res)).

(** The tracing of one handled request: the root span and its children are
    all ended; the children are direct children of the root in its trace;
    each span was handed to the exporter once, the root last; each outbound
    call carries the context of a child span. *)
Definition traced_request {S} (E : Env) (req : Request) (w : World S) (res : Result S)
  : Prop :=
  let rc := root_context E req w in
  ∃ root children,
    request_spans res = root :: children
    ∧ span_context root = rc
    ∧ parentSpanID root = spanID <$> Propagation.Extract (header req)
    ∧ Forall (λ s, ended s = true) (root :: children)
    ∧ Forall (λ s, parentSpanID s = Some (spanID rc)
                   ∧ traceID (span_context s) = traceID rc
                   ∧ (spanID (span_context s) < 2 ^ span_bits)%N) children
    ∧ exported (final_world res) = root :: rev children ++ exported w
    ∧ Forall (λ c, ∃ child, child ∈ children
                            ∧ call_header c = Propagation.Inject (span_context child) ∅)
             (calls_of res w).

(** A service closes and exports every span of every request. *)
Definition closes_spans {S} (svc : Service S) : Prop :=
  ∀ E req w,
    let res := serve svc E req w in
    Forall (λ s, ended s = true) (request_spans res)
    ∧ ∃ root children,
        request_spans res = root :: children
        ∧ exported (final_world res) = root :: rev children ++ exported w.

(** The spans of a request form a tree of depth one under the root span. *)
Definition flat_span_tree {S} (svc : Service S) : Prop :=
  ∀ E req w,
    ∃ root children,
      request_spans (serve svc E req w) = root :: children
      ∧ parentSpanID root = spanID <$> Propagation.Extract (header req)
      ∧ Forall (λ s, parentSpanID s = Some (spanID (span_context root))
                     ∧ traceID (span_context s) = traceID (span_context root))
               children.

(** Every outbound call of a request carries the header that [Inject] writes
    for a child span of that request, from which [Extract] reads that span's
    context back, in the request's trace. *)
Definition injects_context {S} (svc : Service S) : Prop :=
  ∀ E req w c,
    let res := serve svc E req w in
    c ∈ calls_of res w →
    ∃ child,
      child ∈ drop 1 (request_spans res)
      ∧ call_header c = Propagation.Inject (span_context child) ∅
      ∧ Propagation.Extract (call_header c) = Some (span_context child)
      ∧ traceID (span_context child) = trace_of E req w.


(** The operation label under which each route of the user service and of
    the order service counts a request. *)
Definition user_operation (r : Route (gmap Z User)) : option string :=
  if String.eqb (route_pattern r) "/users/:id" then Some "get_user"
  else if String.eqb (route_pattern r) "/users" then
         Some (if String.eqb (route_method r) "GET" then "get_all_users" else "create_user")
       else None.

Definition order_operation (r : Route OrderStore) : option string :=
  if String.eqb (route_pattern r) "/orders/:id" then Some "get_order"
  else if String.eqb (route_pattern r) "/orders" then
         Some (if String.eqb (route_method r) "GET" then "get_orders" else "create_order")
       else None.

(** The domain counter of a service is incremented once, under the
    operation of the matched route, by a request to a domain route, and not
    at all by any other request. *)
Definition counted_once {S} (svc : Service S) (counter : string → string → MetricEvent)
    (operation : Route S → option string) : Prop :=
  ∀ E req w,
    ∃ observation increment domain,
      registry (final_world (serve svc E req w))
      = observation :: increment :: domain ++ registry w
      ∧ match dispatch (routes svc) (method req) (path req) with
        | Some (r, _) =>
            match operation r with
            | Some op => ∃ status, domain = [counter op status]
                                   ∧ one_of outcome_enumeration status = true
            | None => domain = []
            end
        | None => domain = []
        end.

(** The simulated send of [req] takes [ms] milliseconds: the handler sleeps
    that long, and the one child span of the request records it as
    [send_duration_ms]. *)
Definition send_took {S} (svc : Service S) (E : Env) (req : Request) (w : World S) (ms : Z)
  : Prop :=
  let res := serve svc E req w in
  clock (final_world res) = (clock w + ms * millisecond)%Z
  ∧ ∃ child, drop 1 (request_spans res) = [child]
             ∧ ("send_duration_ms", AInt ms) ∈ attributes child.

(** More concrete inputs. *)
Module Scenario.

(** Every service answers 200 with the same JSON object. *)
Definition all_up (k : nat) (url : string) : Hop := Responded 4 200 (inr "order O123").

(** An environment whose binders refuse every body. *)
Definition strict : Env :=
  mkEnv (λ _, "") (λ _, 0%N) (λ k, 1000 + N.of_nat k)%N (λ _, None) Demo.unreachable
        Demo.decode (λ _, inl "EOF") (λ _, inl "EOF") (λ _, inl "EOF") itoa Demo.render.

Definition get_user_abc : Request := mkRequest "GET" "/users/abc" ∅ "".
Definition get_order_1 : Request := mkRequest "GET" "/orders/1" ∅ "".
Definition gateway_get_user_1 : Request := mkRequest "GET" "/api/v1/users/1" ∅ "".



End Scenario.

(** ** Properties of the hexadecimal codec *)

(** [String.app] is kept folded by the string library; these are its two
    defining equations. *)
Lemma string_app_nil (b : string) : "" +:+ b = b.
Proof. reflexivity. Qed.

Lemma string_app_cons (c : ascii) (a b : string) :
  String c a +:+ b = String c (a +:+ b).
Proof. reflexivity. Qed.

Lemma string_app_assoc (a b c : string) : (a +:+ b) +:+ c = a +:+ (b +:+ c).
Proof.
  induction a as [|x a IH]; [reflexivity|].
  now rewrite !string_app_cons, IH.
Qed.

Lemma string_length_app (a b : string) :
  String.length (a +:+ b) = (String.length a + String.length b)%nat.
Proof.
  induction a as [|x a IH]; [reflexivity|].
  rewrite string_app_cons. simpl. now rewrite IH.
Qed.

Lemma hex_fixed_length (w : nat) (n : N) : String.length (Hex.fixed w n) = w.
Proof.
  revert n. induction w as [|w IH]; intros n; simpl; [reflexivity|].
  rewrite string_length_app, IH. simpl. lia.
Qed.

Lemma hex_value_digit (d : N) : (d < 16)%N → Hex.value (Hex.digit d) = Some d.
Proof.
  intros Hd.
  assert (Hcases : (d = 0 ∨ d = 1 ∨ d = 2 ∨ d = 3 ∨ d = 4 ∨ d = 5 ∨ d = 6
                   ∨ d = 7 ∨ d = 8 ∨ d = 9 ∨ d = 10 ∨ d = 11 ∨ d = 12
                   ∨ d = 13 ∨ d = 14 ∨ d = 15)%N) by lia.
  repeat (destruct Hcases as [->|Hcases]; [reflexivity|]).
  now subst d.
Qed.

Lemma hex_parse_app (a b : string) (acc : N) :
  Hex.parse acc (a +:+ b) = Hex.parse acc a ≫= λ x, Hex.parse x b.
Proof.
  revert acc. induction a as [|c a IH]; intros acc; [reflexivity|].
  rewrite string_app_cons. simpl.
  destruct (Hex.value c); [apply IH | reflexivity].
Qed.

Lemma hex_parse_fixed (w : nat) (n acc : N) :
  Hex.parse acc (Hex.fixed w n) = Some (acc * 16 ^ N.of_nat w + n mod 16 ^ N.of_nat w)%N.
Proof.
  revert n acc. induction w as [|w IH]; intros n acc.
  - simpl. f_equal. rewrite N.mod_1_r. lia.
  - cbn [Hex.fixed]. rewrite hex_parse_app, IH. cbn [mbind option_bind Hex.parse].
    rewrite hex_value_digit by (apply N.mod_lt; lia).
    f_equal. rewrite Nat2N.inj_succ, N.pow_succ_r'.
    rewrite (N.Div0.mod_mul_r n 16 (16 ^ N.of_nat w)). lia.
Qed.

Lemma hex_parse_fixed_small (w : nat) (n : N) :
  (n < 16 ^ N.of_nat w)%N → Hex.parse 0 (Hex.fixed w n) = Some n.
Proof. intros H. rewrite hex_parse_fixed, N.mod_small by exact H. f_equal; lia. Qed.

Lemma split_at_app (a b : string) :
  Propagation.split_at (String.length a) (a +:+ b) = Some (a, b).
Proof.
  induction a as [|c a IH]; [reflexivity|].
  rewrite string_app_cons. simpl. now rewrite IH.
Qed.

Lemma expect_app (lit rest : string) :
  Propagation.expect lit (lit +:+ rest) = Some rest.
Proof.
  unfold Propagation.expect. rewrite split_at_app.
  now rewrite String.eqb_refl.
Qed.

Lemma field_app (w : nat) (n : N) (rest : string) :
  (n < 16 ^ N.of_nat w)%N →
  Propagation.field w (Hex.fixed w n +:+ rest) = Some (n, rest).
Proof.
  intros H. unfold Propagation.field.
  rewrite <- (hex_fixed_length w n) at 1.
  now rewrite split_at_app, hex_parse_fixed_small.
Qed.

Lemma decode_encode (sc : SpanContext) :
  wf_context sc → Propagation.decode (Propagation.encode sc) = Some sc.
Proof.
  intros [Ht Hs]. unfold Propagation.decode, Propagation.encode.
  rewrite expect_app. cbn [mbind option_bind].
  rewrite ?string_app_assoc.
  rewrite field_app by exact Ht. cbn [mbind option_bind].
  rewrite expect_app. cbn [mbind option_bind].
  rewrite field_app by exact Hs. cbn [mbind option_bind].
  rewrite expect_app. cbn [mbind option_bind].
  destruct sc as [t s [|]]; reflexivity.
Qed.

(** C2. Round-trip law of the propagator: for every trace context whose ids
    fit their 128-bit and 64-bit fields, extracting from the carrier that
    [Inject] wrote yields the identical trace id, span id and sampling flag. *)
Theorem extract_inject_roundtrip (sc : SpanContext) (carrier : gmap string string) :
  wf_context sc →
  Propagation.Extract (Propagation.Inject sc carrier) = Some sc.
Proof.
  intros Hwf. unfold Propagation.Extract, Propagation.Inject.
  rewrite lookup_insert_eq. cbn [mbind option_bind].
  now apply decode_encode.
Qed.

(** The scenario ids of the specification, injected and read back. *)
Lemma extract_inject_roundtrip_witness :
  let sc := mkSpanContext 0x4bf92f3577b34da6a3ce929d0e0e4736 0x00f067aa0ba902b7 true in
  wf_context sc ∧ Propagation.Extract (Propagation.Inject sc ∅) = Some sc.
Proof.
  split.
  - split; vm_compute; reflexivity.
  - apply (extract_inject_roundtrip
             (mkSpanContext 0x4bf92f3577b34da6a3ce929d0e0e4736 0x00f067aa0ba902b7 true) ∅).
    split; vm_compute; reflexivity.
Defined.


(** ** Rules of the Hoare logic *)

Section HoareRules.
Context {S : Type}.
Implicit Types (P : St S → Prop).

Lemma hoare_step {A B} (I : St S → Prop) (φ : A → Prop) (m : M S A) (k : A → M S B)
    (R : B → St S → Prop) :
  hoare I m (λ a st, φ a ∧ I st) →
  (∀ a, φ a → hoare I (k a) R) →
  hoare I (bind m k) R.
Proof.
  intros Hm Hk st HI. unfold bind.
  specialize (Hm st HI). destruct (m st) as [a st']. cbn in Hm.
  destruct Hm as [Ha HI']. exact (Hk a Ha st' HI').
Qed.

Lemma hoare_seq {A B} (I : St S → Prop) (m : M S A) (k : A → M S B)
    (R : B → St S → Prop) :
  hoare I m (λ _ st, I st) →
  (∀ a, hoare I (k a) R) →
  hoare I (bind m k) R.
Proof.
  intros Hm Hk st HI. unfold bind.
  specialize (Hm st HI). destruct (m st) as [a st']. exact (Hk a st' Hm).
Qed.

Lemma hoare_tail {A} (I : St S → Prop) (φ : A → Prop) (m : M S A) :
  hoare I m (λ a st, φ a ∧ I st) → hoare I m (λ _ st, I st).
Proof. intros Hm st HI. exact (proj2 (Hm st HI)). Qed.

Lemma hoare_true {A} (I : St S → Prop) (m : M S A) :
  hoare I m (λ _ st, I st) → hoare I m (λ _ st, True ∧ I st).
Proof. intros Hm st HI. split; [exact Logic.I | exact (Hm st HI)]. Qed.

Lemma hoare_untrue {A} (I : St S → Prop) (m : M S A) :
  hoare I m (λ _ st, True ∧ I st) → hoare I m (λ _ st, I st).
Proof. apply hoare_tail. Qed.

Lemma hoare_ret {A} (I : St S → Prop) (a : A) :
  hoare I (ret a) (λ x st, x = a ∧ I st).
Proof. intros st HI. split; [reflexivity | exact HI]. Qed.

Lemma hoare_ret_tail {A} (I : St S → Prop) (a : A) : hoare I (ret a) (λ _ st, I st).
Proof. intros st HI. exact HI. Qed.

(** A computation that only reads the state. *)
Lemma hoare_read {A} (I : St S → Prop) (f : St S → A) :
  hoare I (λ st, (f st, st)) (λ _ st, True ∧ I st).
Proof. intros st HI. split; [exact Logic.I | exact HI]. Qed.

End HoareRules.

(** ** The primitives keep the invariant *)

Section InvariantRules.
Context {S : Type}.
Variables (req : Request) (route : string) (w0 : World S) (T : N) (p0 : option N)
          (ok : MetricEvent → bool) (okl : LogRecord → bool).

Local Abbreviation I := (Inv req route w0 T p0 ok okl).

Lemma inv_c_Request_Context :
  hoare I c_Request_Context (λ ctx st, ctx = Current 0 ∧ I st).
Proof. intros st HI. split; [exact (inv_context _ _ _ _ _ _ _ _ HI) | exact HI]. Qed.

Lemma inv_c_Request : hoare I c_Request (λ r st, r = req ∧ I st).
Proof. intros st HI. split; [exact (inv_request _ _ _ _ _ _ _ _ HI) | exact HI]. Qed.

(** An update of the world that keeps the registry and the log. *)
Lemma inv_with_world (f : World S → World S) :
  (∀ w, registry (f w) = registry w) →
  (∀ w, log_output (f w) = log_output w) →
  hoare I (with_world f) (λ _ st, True ∧ I st).
Proof.
  intros Hr Hl st [H1 H2 H3 H4 H5 H6 H7]. split; [exact Logic.I|].
  constructor; cbn; try assumption.
  - now rewrite Hr.
  - now rewrite Hl.
Qed.

Lemma inv_advance (d : Z) : hoare I (advance d) (λ _ st, True ∧ I st).
Proof. now apply inv_with_world. Qed.

Lemma inv_time_Sleep (d : Z) : hoare I (time_Sleep d) (λ _ st, True ∧ I st).
Proof. apply inv_advance. Qed.

Lemma inv_put_store (s : S) : hoare I (put_store s) (λ _ st, True ∧ I st).
Proof. now apply inv_with_world. Qed.

Lemma inv_record_call (c : OutboundCall) : hoare I (record_call c) (λ _ st, True ∧ I st).
Proof. now apply inv_with_world. Qed.

Lemma inv_export_span (s : Span) : hoare I (export_span s) (λ _ st, True ∧ I st).
Proof. now apply inv_with_world. Qed.

Lemma inv_next_draw (E : Env) : hoare I (next_draw E) (λ _ st, True ∧ I st).
Proof.
  intros st [H1 H2 H3 H4 H5 H6 H7]. split; [exact Logic.I|].
  constructor; cbn; assumption.
Qed.

Lemma inv_rand_Intn (E : Env) (n : Z) :
  (0 < n)%Z → hoare I (rand_Intn E n) (λ r st, (0 ≤ r < n)%Z ∧ I st).
Proof.
  intros Hn st HI. unfold rand_Intn, bind.
  pose proof (inv_next_draw E st HI) as [_ HI'].
  destruct (next_draw E st) as [r st']. cbn in *. split; [|exact HI'].
  apply Z.mod_pos_bound, Hn.
Qed.

Lemma inv_rand_Float32 (E : Env) : hoare I (rand_Float32 E) (λ _ st, True ∧ I st).
Proof.
  intros st HI. unfold rand_Float32, bind.
  pose proof (inv_next_draw E st HI) as [_ HI'].
  destruct (next_draw E st) as [r st']. cbn in *. split; [exact Logic.I | exact HI'].
Qed.

Lemma inv_emit_metric (e : MetricEvent) :
  ok e = true → hoare I (emit_metric e) (λ _ st, True ∧ I st).
Proof.
  intros He st [H1 H2 H3 H4 H5 (evs & Hevs & Hok) H7]. split; [exact Logic.I|].
  constructor; cbn; try assumption.
  exists (e :: evs). split; [now rewrite Hevs | now constructor].
Qed.

Lemma inv_emit_log (r : LogRecord) :
  okl r = true → hoare I (emit_log r) (λ _ st, True ∧ I st).
Proof.
  intros Hr st [H1 H2 H3 H4 H5 H6 (ls & Hls & Hnone)]. split; [exact Logic.I|].
  constructor; cbn; try assumption.
  exists (r :: ls). split; [now rewrite Hls | now constructor].
Qed.

Lemma inv_write (code : Z) (b : Body) : hoare I (write code b) (λ _ st, True ∧ I st).
Proof.
  intros st [H1 H2 H3 H4 H5 H6 H7]. split; [exact Logic.I|].
  constructor; cbn; assumption.
Qed.

Lemma inv_c_JSON (code : Z) (obj : JSON) : hoare I (c_JSON code obj) (λ _ st, True ∧ I st).
Proof. apply inv_write. Qed.

(** A change of the span list that keeps the root's parent and the trace. *)
Lemma inv_with_spans (f : list Span → list Span) :
  (∀ l root, l !! 0 = Some root →
             ∃ root', f l !! 0 = Some root' ∧ parentSpanID root' = parentSpanID root) →
  (∀ l, l !! 0 ≠ None →
        Forall (λ s, traceID (span_context s) = T) l →
        Forall (λ s, traceID (span_context s) = T) (f l)) →
  hoare I (with_spans f) (λ _ st, True ∧ I st).
Proof.
  intros Hroot Htrace st [H1 H2 H3 (root & Hr & Hp) H5 H6 H7]. split; [exact Logic.I|].
  constructor; cbn; try assumption.
  - destruct (Hroot _ _ Hr) as (root' & Hr' & Hp'). exists root'. split; [exact Hr' | congruence].
  - apply Htrace; [congruence | exact H5].
Qed.

Lemma inv_update_span (sp : SpanRef) (f : Span → Span) :
  (∀ s, span_context (f s) = span_context s) →
  (∀ s, parentSpanID (f s) = parentSpanID s) →
  hoare I (update_span sp f) (λ _ st, True ∧ I st).
Proof.
  intros Hc Hp. destruct sp as [h|]; [|apply hoare_read].
  apply inv_with_spans.
  - intros l root Hr. destruct (l !! h) as [s|] eqn:Hs; [|eauto].
    destruct (ended s); [eauto|].
    destruct h as [|h].
    + assert (s = root) as -> by congruence.
      exists (f root). split; [|apply Hp].
      apply list_lookup_insert_eq. now apply lookup_lt_Some in Hr.
    + exists root. split; [|reflexivity]. now rewrite list_lookup_insert_ne.
  - intros l _ Hl. destruct (l !! h) as [s|] eqn:Hs; [|exact Hl].
    destruct (ended s); [exact Hl|].
    apply Forall_insert; [exact Hl|].
    rewrite Hc. exact (proj1 (Forall_lookup _ l) Hl h s Hs).
Qed.

Lemma inv_SetAttributes (sp : SpanRef) (kvs : list (string * AttrValue)) :
  hoare I (SetAttributes sp kvs) (λ _ st, True ∧ I st).
Proof. now apply inv_update_span. Qed.

Lemma inv_RecordError (sp : SpanRef) (err : string) :
  hoare I (RecordError sp err) (λ _ st, True ∧ I st).
Proof. now apply inv_update_span. Qed.

Lemma inv_SetStatus (sp : SpanRef) (status : SpanStatus) :
  hoare I (SetStatus sp status) (λ _ st, True ∧ I st).
Proof. now apply inv_update_span. Qed.

Lemma inv_End (sp : SpanRef) : hoare I (End sp) (λ _ st, True ∧ I st).
Proof.
  destruct sp as [h|]; [|apply hoare_read].
  intros st HI. unfold End, bind, get.
  destruct (spans st !! h) as [s|] eqn:Hs; [|split; [exact Logic.I | exact HI]].
  destruct (ended s) eqn:He; [split; [exact Logic.I | exact HI]|].
  assert (Hupd : hoare I (update_span (Some h) close) (λ _ st, True ∧ I st))
    by now apply inv_update_span.
  specialize (Hupd st HI). cbn in Hupd. rewrite Hs, He in Hupd.
  destruct Hupd as [_ HI'].
  exact (inv_export_span (close s) _ HI').
Qed.

Lemma inv_Start (E : Env) (name : string) :
  hoare I (Start E (Current 0) name) (λ _ st, True ∧ I st).
Proof.
  intros st [H1 H2 H3 (root & Hr & Hp) H5 H6 H7]. split; [exact Logic.I|].
  unfold Start, bind, get, parent_context. rewrite Hr. cbn.
  constructor; cbn; try assumption.
  - exists root. split; [|exact Hp].
    rewrite lookup_app_l; [exact Hr | now apply lookup_lt_Some in Hr].
  - apply Forall_app. split; [exact H5|].
    constructor; [|constructor]. cbn.
    exact (proj1 (Forall_lookup _ _) H5 0%nat root Hr).
Qed.

Lemma inv_Inject (ctx : Context) (carrier : gmap string string) :
  hoare I (Inject ctx carrier) (λ _ st, True ∧ I st).
Proof. intros st HI. split; [exact Logic.I | exact HI]. Qed.

Lemma inv_client_Do (E : Env) (url : string) (hdr : gmap string string) :
  hoare I (client_Do E url hdr) (λ _ st, True ∧ I st).
Proof.
  intros st HI. unfold client_Do, bind, get.
  pose proof (inv_record_call (mkCall url hdr) st HI) as [_ H1].
  destruct (record_call (mkCall url hdr) st) as [u st1]. cbn in H1.
  pose proof (inv_advance (hop_elapsed (transport E (length (outbound (world st))) url)) st1 H1)
    as [_ H2].
  destruct (advance _ st1) as [u' st2]. cbn in *. split; [exact Logic.I | exact H2].
Qed.

End InvariantRules.

Section ReadRules.
Context {S : Type}.
Variables (req : Request) (route : string) (w0 : World S) (T : N) (p0 : option N)
          (ok : MetricEvent → bool) (okl : LogRecord → bool).

Local Abbreviation I := (Inv req route w0 T p0 ok okl).

Lemma inv_get : hoare I get (λ _ st, True ∧ I st).
Proof. apply (hoare_read I (λ st, st)). Qed.

Lemma inv_c_Param (k : string) : hoare I (c_Param k) (λ _ st, True ∧ I st).
Proof. apply (hoare_read I (λ st, lookup_param k (gin_params (gin st)))). Qed.

Lemma inv_get_store : hoare I get_store (λ _ st, True ∧ I st).
Proof. apply (hoare_read I (λ st, store (world st))). Qed.

Lemma inv_time_Now : hoare I time_Now (λ _ st, True ∧ I st).
Proof. apply (hoare_read I (λ st, clock (world st))). Qed.

End ReadRules.

(** ** Walking a handler's code *)

Ltac inv_prim :=
  first
    [ apply inv_c_Request_Context | apply inv_c_Request | apply inv_c_Param
    | apply inv_get_store | apply inv_put_store | apply inv_get
    | apply inv_time_Now | apply inv_time_Sleep
    | apply inv_rand_Intn; first [lia | reflexivity] | apply inv_rand_Float32
    | apply inv_emit_metric; reflexivity
    | apply inv_emit_log; reflexivity
    | apply inv_c_JSON | apply inv_write
    | apply inv_SetAttributes | apply inv_RecordError | apply inv_SetStatus
    | apply inv_End | apply inv_Start | apply inv_Inject | apply inv_client_Do
    | apply hoare_ret
    | eassumption
    | solve [eauto with inv] ].

Ltac walk :=
  repeat (cbv zeta;
          lazymatch goal with
          | |- hoare _ (bind _ _) _ =>
              first [ eapply hoare_step; [inv_prim | intros ? ?; cbv beta in *; subst]
                    | eapply hoare_seq; [| intros ?] ]
          | |- hoare _ (match ?x with _ => _ end) _ => destruct x
          | |- hoare _ (ret _) _ => apply hoare_ret_tail
          | |- hoare _ _ _ =>
              first [ eapply hoare_tail; inv_prim | apply hoare_untrue; eassumption ]
          end).

Create HintDb inv.

(** ** The handlers keep the invariant *)

Section UserHandlers.
Variables (req : Request) (route : string) (w0 : World (gmap Z User)) (T : N)
          (p0 : option N).

Local Abbreviation I := (Inv req route w0 T p0 user_vocabulary no_trace_id).

Lemma user_simulateWork (E : Env) (operation : string) :
  hoare I (UserService.simulateWork E (Current 0) operation) (λ _ st, True ∧ I st).
Proof.
  unfold UserService.simulateWork.
  eapply hoare_step; [inv_prim | intros [c sp] _].
  eapply hoare_step; [inv_prim | intros r _].
  eapply hoare_step; [inv_prim | intros _ _].
  eapply hoare_step; [inv_prim | intros _ _].
  inv_prim.
Qed.

End UserHandlers.

#[local] Hint Extern 1 (hoare _ (UserService.simulateWork _ _ _) _) =>
  apply user_simulateWork : inv.

Lemma user_getUserByID (E : Env) : well_behaved user_vocabulary (UserService.getUserByID E).
Proof. intros req route w0 T p0. unfold UserService.getUserByID. walk. Qed.

Lemma user_getAllUsers (E : Env) : well_behaved user_vocabulary (UserService.getAllUsers E).
Proof. intros req route w0 T p0. unfold UserService.getAllUsers. walk. Qed.

Lemma user_createUser (E : Env) : well_behaved user_vocabulary (UserService.createUser E).
Proof. intros req route w0 T p0. unfold UserService.createUser. walk. Qed.

Lemma any_health {S} (ok : MetricEvent → bool) (name : string) (E : Env) :
  well_behaved (S := S) ok (health name E).
Proof. intros req route w0 T p0. unfold health. walk. Qed.

Lemma any_metrics {S} (ok : MetricEvent → bool) (fams : list Family) (E : Env) :
  well_behaved (S := S) ok (metrics fams E).
Proof. intros req route w0 T p0. unfold metrics. walk. Qed.

Lemma any_no_route {S} (ok : MetricEvent → bool) : well_behaved (S := S) ok (ret tt).
Proof. intros req route w0 T p0. walk. Qed.

Section OrderHandlers.
Variables (req : Request) (route : string) (w0 : World OrderStore) (T : N)
          (p0 : option N).

Local Abbreviation I := (Inv req route w0 T p0 order_vocabulary no_trace_id).

Lemma order_simulateWork (E : Env) (operation : string) :
  hoare I (OrderService.simulateWork E (Current 0) operation) (λ _ st, True ∧ I st).
Proof.
  apply hoare_true.
  unfold OrderService.simulateWork. walk.
Qed.

Lemma order_callUserService (E : Env) (userID : Z) :
  hoare I (OrderService.callUserService E (Current 0) userID) (λ _ st, True ∧ I st).
Proof.
  apply hoare_true.
  unfold OrderService.callUserService. walk.
Qed.

End OrderHandlers.

#[local] Hint Extern 1 (hoare _ (OrderService.simulateWork _ _ _) _) =>
  apply order_simulateWork : inv.
#[local] Hint Extern 1 (hoare _ (OrderService.callUserService _ _ _) _) =>
  apply order_callUserService : inv.

Lemma order_getOrders (E : Env) : well_behaved order_vocabulary (OrderService.getOrders E).
Proof. intros req route w0 T p0. unfold OrderService.getOrders. walk. Qed.

Lemma order_createOrder (E : Env) : well_behaved order_vocabulary (OrderService.createOrder E).
Proof. intros req route w0 T p0. unfold OrderService.createOrder. walk. Qed.

Lemma order_getOrderByID (E : Env) :
  well_behaved order_vocabulary (OrderService.getOrderByID E).
Proof. intros req route w0 T p0. unfold OrderService.getOrderByID. walk. Qed.

(** The index drawn by [sendNotification] always selects a listed type. *)
Lemma notificationTypes_pick (i : Z) :
  (0 ≤ i < Z.of_nat (length NotificationService.notificationTypes))%Z →
  one_of ["email"; "sms"; "push"]
         (default "" (NotificationService.notificationTypes !! Z.to_nat i)) = true.
Proof.
  cbn. intros Hi.
  assert (Hcases : (i = 0 ∨ i = 1 ∨ i = 2)%Z) by lia.
  destruct Hcases as [-> | [-> | ->]]; reflexivity.
Qed.

Section NotificationHandlers.
Variables (req : Request) (route : string) (w0 : World Z) (T : N) (p0 : option N).

Local Abbreviation I := (Inv req route w0 T p0 notification_vocabulary no_trace_id).

Lemma notification_emit (type status : string) :
  one_of ["email"; "sms"; "push"] type = true →
  one_of ["success"; "failed"] status = true →
  hoare I (emit_metric (NotificationService.notificationsSent type status))
        (λ _ st, True ∧ I st).
Proof.
  intros Ht Hs. apply inv_emit_metric.
  unfold notification_vocabulary, NotificationService.notificationsSent, domain_event.
  now rewrite Ht, Hs.
Qed.

Lemma notification_simulate (E : Env) (type : string) :
  one_of ["email"; "sms"; "push"] type = true →
  hoare I (NotificationService.simulateNotificationSending E (Current 0) type)
        (λ _ st, True ∧ I st).
Proof.
  intros Ht. apply hoare_true.
  unfold NotificationService.simulateNotificationSending.
  assert (Hf := notification_emit type "failed" Ht eq_refl).
  assert (Hs := notification_emit type "success" Ht eq_refl).
  walk.
Qed.

End NotificationHandlers.

#[local] Hint Extern 1 (hoare _ (NotificationService.simulateNotificationSending _ _ _) _) =>
  apply notification_simulate;
  first [reflexivity | apply notificationTypes_pick; assumption] : inv.

Lemma notification_sendNotification (E : Env) :
  well_behaved notification_vocabulary (NotificationService.sendNotification E).
Proof. intros req route w0 T p0. unfold NotificationService.sendNotification. walk. Qed.

Lemma notification_sendFixed (operation type message : string) (E : Env) :
  one_of ["email"; "sms"; "push"] type = true →
  well_behaved notification_vocabulary
               (NotificationService.sendFixed operation type message E).
Proof.
  intros Ht req route w0 T p0. unfold NotificationService.sendFixed.
  assert (Hsim := notification_simulate req route w0 T p0 E type Ht).
  walk.
Qed.

Section GatewayHandlers.
Variables (req : Request) (route : string) (w0 : World unit) (T : N) (p0 : option N).

Local Abbreviation I := (Inv req route w0 T p0 gateway_vocabulary no_trace_id).

Lemma gateway_emit (service status : string) :
  one_of ["user-service"; "order-service"; "notification-service"] service = true →
  one_of ["success"; "error"] status = true →
  hoare I (emit_metric (Gateway.serviceCalls service status)) (λ _ st, True ∧ I st).
Proof.
  intros Hn Hs. apply inv_emit_metric.
  unfold gateway_vocabulary, Gateway.serviceCalls, domain_event.
  now rewrite Hn, Hs.
Qed.

Lemma gateway_callService (E : Env) (serviceName url : string) :
  one_of ["user-service"; "order-service"; "notification-service"] serviceName = true →
  hoare I (Gateway.callService E (Current 0) serviceName url) (λ _ st, True ∧ I st).
Proof.
  intros Hn. apply hoare_true. unfold Gateway.callService.
  assert (He := gateway_emit serviceName "error" Hn eq_refl).
  assert (Hs := gateway_emit serviceName "success" Hn eq_refl).
  walk.
Qed.

End GatewayHandlers.

#[local] Hint Extern 1 (hoare _ (Gateway.callService _ _ _ _) _) =>
  apply gateway_callService; reflexivity : inv.

Lemma gateway_getUser (E : Env) : well_behaved gateway_vocabulary (Gateway.getUser E).
Proof. intros req route w0 T p0. unfold Gateway.getUser. walk. Qed.

Lemma gateway_postOrders (E : Env) : well_behaved gateway_vocabulary (Gateway.postOrders E).
Proof. intros req route w0 T p0. unfold Gateway.postOrders. walk. Qed.

Lemma gateway_getOrders (E : Env) : well_behaved gateway_vocabulary (Gateway.getOrders E).
Proof. intros req route w0 T p0. unfold Gateway.getOrders. walk. Qed.

(** ** Symbolic execution *)

Arguments Propagation.Extract : simpl never.
Arguments Propagation.Inject : simpl never.
Arguments Hex.fixed : simpl never.
Arguments itoa : simpl never.
Arguments hex_of : simpl never.
Arguments Atoi : simpl never.
Arguments incr : simpl never.
Arguments env_or : simpl never.
Arguments N.modulo : simpl never.
Arguments Z.modulo : simpl never.
Arguments N.pow : simpl never.
Arguments Z.mul : simpl never.
Arguments Z.add : simpl never.
Arguments Z.sub : simpl never.
Arguments Z.div : simpl never.
Arguments Z.leb : simpl never.
Arguments Z.ltb : simpl never.

Arguments bind {S A B} m k _ /.
Arguments ret {S A} a _ /.
Arguments chain {S} svc E h /.
Arguments finish {S} out /.
Arguments otelginMiddleware {S} E next /.
Arguments otelgin_close {S} span saved /.
Arguments prometheusMiddleware {S} next /.
Arguments loggingMiddleware {S} E service next /.
Arguments Start {S} E ctx name /.
Arguments SetAttributes {S} sp kvs /.
Arguments RecordError {S} sp err /.
Arguments SetStatus {S} sp status /.
Arguments End {S} sp /.
Arguments update_span {S} sp f /.
Arguments client_Do {S} E url hdr /.
Arguments Inject {S} ctx carrier /.
Arguments health {S} name E /.
Arguments metrics {S} fams E /.
Arguments rand_Intn {S} E n /.
Arguments rand_Float32 {S} E /.
Arguments c_JSON {S} code obj /.

(** The scrutinee on which evaluation is stuck, and a case split on it. *)
Ltac innermost x :=
  lazymatch x with
  | context [match ?y with _ => _ end] => innermost y
  | _ => x
  end.

Ltac step :=
  match goal with
  | |- context [match ?x with _ => _ end] =>
      let y := innermost x in destruct y eqn:?
  end.

(** ** What the middleware chain guarantees *)

Lemma no_trace_id_None (r : LogRecord) : no_trace_id r = true → log_trace_id r = None.
Proof. unfold no_trace_id. now destruct (log_trace_id r). Qed.

(** From the opened root span to the end of the chain. *)
Lemma after_root {S} (svc : Service S) (E : Env) (ok : MetricEvent → bool) (h : M S unit)
    (req : Request) (route : string) (T : N) (p0 : option N) (w : World S) (st1 : St S) :
  well_behaved ok h →
  Inv req route w T p0 ok no_trace_id st1 →
  clock (world st1) = clock w →
  handled svc ok req route T p0 w
    (finish ((prometheusMiddleware (loggingMiddleware E (log_service svc) h);;
              otelgin_close (Some 0%nat) Background) st1)).
Proof.
  intros Hwb HI Hclock. cbn.
  specialize (Hwb req route w T p0 st1 HI).
  destruct (h st1) as [u [g2 sp2 w2]]. cbn in Hwb.
  destruct Hwb as [Hreq Hroute Hctx (root & Hroot & Hp) Htrace
                     (evs & Hevs & Hok) (ls & Hls & Hnone)].
  cbn in *. subst.
  destruct sp2 as [|root' rest]; [discriminate|].
  injection Hroot as ->. cbn.
  apply Forall_cons in Htrace as [HT Hrest].
  rewrite Hctx, Hclock. cbn. rewrite HT. unfold handled.
  assert (Hlog : Forall (λ r, log_trace_id r = None) ls).
  { eapply Forall_impl; [exact Hnone | apply no_trace_id_None]. }
  destruct root as [rc rp rn ra re rs [|]]; cbn in *;
    destruct (500 <=? writer_status g2)%Z; cbn;
    (split; [constructor; [exact HT | exact Hrest] |]);
    (split; [eexists; split; reflexivity |]);
    (split; [exists evs; split; [now rewrite Hevs | exact Hok] |]);
    do 2 eexists; exists ls; (split; [now rewrite Hls | exact Hlog]).
Qed.

Lemma chain_state {S} (svc : Service S) (E : Env) (ok : MetricEvent → bool) (h : M S unit)
    (req : Request) (route : string) (ps : list (string * string)) (code : Z) (b : Body)
    (w : World S) :
  well_behaved ok h →
  handled svc ok req route (trace_of E req w)
          (spanID <$> Propagation.Extract (header req)) w
          (finish (chain svc E h (mkSt (mkGin req Background route ps code b) [] w))).
Proof.
  intros Hwb. unfold trace_of. cbn -[prometheusMiddleware otelgin_close finish].
  destruct (Propagation.Extract (header req)) as [sc|] eqn:Hex;
    cbn -[prometheusMiddleware otelgin_close finish];
    (apply (after_root svc E ok h); [exact Hwb | | reflexivity]);
    (constructor; cbn;
     [ reflexivity | reflexivity | reflexivity
     | eexists; split; reflexivity
     | repeat constructor
     | exists []; split; [reflexivity | constructor]
     | exists []; split; [reflexivity | constructor] ]).
Qed.

Lemma dispatch_Some {S} (rs : list (Route S)) (m p : string) (r : Route S)
    (ps : list (string * string)) :
  dispatch rs m p = Some (r, ps) → r ∈ rs.
Proof.
  induction rs as [|r' rs IH]; simpl; [discriminate|].
  destruct (match_route r' m p).
  - intros [= <- <-]. left.
  - intros H. right. auto.
Qed.

(** Every request to a service whose handlers are well behaved is handled. *)
Lemma serve_handled {S} (svc : Service S) (ok : MetricEvent → bool) (E : Env)
    (req : Request) (w : World S) :
  (∀ r, r ∈ routes svc → well_behaved ok (route_handler r E)) →
  handled svc ok req (route_of svc req) (trace_of E req w)
          (spanID <$> Propagation.Extract (header req)) w (serve svc E req w).
Proof.
  intros Hroutes. unfold serve, route_of.
  destruct (dispatch (routes svc) (method req) (path req)) as [[r ps]|] eqn:Hd.
  - apply chain_state, Hroutes. exact (dispatch_Some _ _ _ _ _ Hd).
  - apply chain_state, any_no_route.
Qed.

Lemma user_routes (E : Env) (r : Route (gmap Z User)) :
  r ∈ routes UserService.service → well_behaved user_vocabulary (route_handler r E).
Proof.
  intros Hr. unfold UserService.service, routes in Hr.
  repeat (apply elem_of_cons in Hr as [->|Hr]); cbn [route_handler].
  - apply any_health.
  - apply any_metrics.
  - apply user_getUserByID.
  - apply user_getAllUsers.
  - apply user_createUser.
  - now apply elem_of_nil in Hr.
Qed.

Lemma order_routes (E : Env) (r : Route OrderStore) :
  r ∈ routes OrderService.service → well_behaved order_vocabulary (route_handler r E).
Proof.
  intros Hr. unfold OrderService.service, routes in Hr.
  repeat (apply elem_of_cons in Hr as [->|Hr]); cbn [route_handler].
  - apply any_health.
  - apply any_metrics.
  - apply order_getOrders.
  - apply order_createOrder.
  - apply order_getOrderByID.
  - now apply elem_of_nil in Hr.
Qed.

Lemma notification_routes (E : Env) (r : Route Z) :
  r ∈ routes NotificationService.service →
  well_behaved notification_vocabulary (route_handler r E).
Proof.
  intros Hr. unfold NotificationService.service, routes in Hr.
  repeat (apply elem_of_cons in Hr as [->|Hr]); cbn [route_handler].
  - apply any_health.
  - apply any_metrics.
  - apply notification_sendNotification.
  - now apply notification_sendFixed.
  - now apply notification_sendFixed.
  - now apply elem_of_nil in Hr.
Qed.

Lemma gateway_routes (E : Env) (r : Route unit) :
  r ∈ routes Gateway.service → well_behaved gateway_vocabulary (route_handler r E).
Proof.
  intros Hr. unfold Gateway.service, routes in Hr.
  repeat (apply elem_of_cons in Hr as [->|Hr]); cbn [route_handler].
  - apply any_health.
  - apply any_metrics.
  - apply gateway_getUser.
  - apply gateway_postOrders.
  - apply gateway_getOrders.
  - now apply elem_of_nil in Hr.
Qed.

(** ** Correlation of spans and logs *)

Lemma handled_correlated {S} (svc : Service S) (ok : MetricEvent → bool) :
  (∀ E r, r ∈ routes svc → well_behaved ok (route_handler r E)) → correlated svc.
Proof.
  intros Hroutes E req w. cbv zeta.
  destruct (serve_handled svc ok E req w (Hroutes E))
    as (Htrace & Hroot & _ & (time & latency & ls & Hlog & Hnone)).
  split; [exact Htrace|]. split; [exact Hroot|]. split.
  - intros sc Hsc. unfold trace_of. now rewrite Hsc.
  - eexists _, ls. split; [exact Hlog|]. split; [reflexivity | exact Hnone].
Qed.

(** C1 (as amended). In each of the four services, every span created while
    a request is handled carries the request's trace id, and so does the
    access-log record written for it; with a valid inbound header that trace
    id is the header's and the root span's parent is the header's span id.
    The other lines logged during the request carry no trace id. *)
Theorem trace_correlation :
  correlated Gateway.service ∧ correlated UserService.service
  ∧ correlated OrderService.service ∧ correlated NotificationService.service.
Proof.
  split; [|split; [|split]].
  - apply (handled_correlated _ gateway_vocabulary), gateway_routes.
  - apply (handled_correlated _ user_vocabulary), user_routes.
  - apply (handled_correlated _ order_vocabulary), order_routes.
  - apply (handled_correlated _ notification_vocabulary), notification_routes.
Qed.

(** C1 as stated fails in the gateway: when the notification hop fails, the
    create-order handler logs through the standard logger, and that line
    carries no trace id. *)
Lemma gateway_log_without_trace :
  ¬ all_logs_carry_trace Gateway.service (Demo.env 0 Demo.orders_only)
                         Demo.create_order (Demo.world tt).
Proof.
  intros (new & Heq & Hall).
  change (log_output (Demo.world tt)) with (@nil LogRecord) in Heq.
  rewrite app_nil_r in Heq. subst new.
  let v := eval vm_compute in
             (log_output (final_world (serve Gateway.service (Demo.env 0 Demo.orders_only)
                                             Demo.create_order (Demo.world tt)))) in
  assert (Hlogs : log_output (final_world (serve Gateway.service
                                                 (Demo.env 0 Demo.orders_only)
                                                 Demo.create_order (Demo.world tt))) = v)
    by (vm_compute; reflexivity).
  rewrite Hlogs in Hall.
  inversion Hall as [|? ? _ Htail]. inversion Htail as [|? ? Hbad _].
  discriminate Hbad.
Qed.

(** ** Request metrics *)

Lemma one_of_eqb (name n : string) (l : list string) :
  String.eqb n name = true → one_of l name = false → one_of l n = false.
Proof. intros Hn Hl. apply String.eqb_eq in Hn. now subst n. Qed.

Lemma domain_event_not_http (name : string) (firsts statuses : list string)
    (e : MetricEvent) :
  one_of ["http_requests_total"; "http_request_duration_seconds"] name = false →
  domain_event name firsts statuses e = true →
  is_http_metric e = false.
Proof.
  intros Hname He. destruct e as [n l|n l d]; [|discriminate].
  destruct l as [|a [|b [|c l]]]; try discriminate. cbn in He.
  apply andb_true_iff in He as [He _]. apply andb_true_iff in He as [He _].
  unfold is_http_metric. cbn [metric_name]. now apply (one_of_eqb name).
Qed.

Lemma handled_metered {S} (svc : Service S) (ok : MetricEvent → bool) :
  (∀ e, ok e = true → is_http_metric e = false) →
  (∀ E r, r ∈ routes svc → well_behaved ok (route_handler r E)) → metered svc.
Proof.
  intros Hok Hroutes E req w. cbv zeta.
  destruct (serve_handled svc ok E req w (Hroutes E))
    as (_ & _ & (evs & Hreg & Hevs) & _).
  exists evs. split; [exact Hreg|].
  eapply Forall_impl; [exact Hevs | exact Hok].
Qed.

(** C5 (as amended). The metric middleware starts its timer before the
    wrapped handler runs and, when it returns, records one increment of the
    request counter labelled with method, route template and the decimal
    status code, and one latency observation labelled with method and route
    template, of the time the handler took.  In each of the four services
    these are the only request metrics recorded for a request. *)
Theorem request_metrics :
  (∀ S (next : M S unit) (st : St S),
      let st1 := (next st).2 in
      registry (world (prometheusMiddleware next st).2)
      = Observe "http_request_duration_seconds"
                [method (gin_request (gin st1)); full_path (gin st1)]
                (clock (world st1) - clock (world st))
        :: Inc "http_requests_total"
               [method (gin_request (gin st1)); full_path (gin st1);
                itoa (writer_status (gin st1))]
        :: registry (world st1))
  ∧ metered Gateway.service ∧ metered UserService.service
  ∧ metered OrderService.service ∧ metered NotificationService.service.
Proof.
  split; [|split; [|split; [|split]]].
  - intros S next st. cbn. now destruct (next st) as [u st1].
  - apply (handled_metered _ gateway_vocabulary); [|apply gateway_routes].
    intros e. now apply domain_event_not_http.
  - apply (handled_metered _ user_vocabulary); [|apply user_routes].
    intros e. now apply domain_event_not_http.
  - apply (handled_metered _ order_vocabulary); [|apply order_routes].
    intros e. now apply domain_event_not_http.
  - apply (handled_metered _ notification_vocabulary); [|apply notification_routes].
    intros e. now apply domain_event_not_http.
Qed.

(** C5 as stated fails: the third label is the status code, not its class.
    Reading a user answers 200 and creating one answers 201; both are of
    class 2, and the labels differ. *)
Lemma status_label_not_class : ¬ labelled_by_class UserService.service.
Proof.
  intros [f Hf].
  pose proof (Hf (Demo.env 0 Demo.unreachable) Demo.get_user
                 (Demo.world UserService.users)) as H200.
  pose proof (Hf (Demo.env 0 Demo.unreachable) Demo.create_user
                 (Demo.world UserService.users)) as H201.
  vm_compute in H200. vm_compute in H201. congruence.
Qed.

(** ** Label vocabularies *)

Lemma route_of_registered {S} (svc : Service S) (req : Request) :
  route_of svc req = "" ∨ route_of svc req ∈ route_pattern <$> routes svc.
Proof.
  unfold route_of.
  destruct (dispatch (routes svc) (method req) (path req)) as [[r ps]|] eqn:Hd;
    [right | now left].
  apply list_elem_of_fmap. exists r. split; [reflexivity|].
  exact (dispatch_Some _ _ _ _ _ Hd).
Qed.

Lemma handled_labels_within {S} (svc : Service S) (ok : MetricEvent → bool) :
  (∀ E r, r ∈ routes svc → well_behaved ok (route_handler r E)) → labels_within svc ok.
Proof.
  intros Hroutes E req w. cbv zeta.
  destruct (serve_handled svc ok E req w (Hroutes E))
    as (_ & _ & (evs & Hreg & Hevs) & _).
  exists evs. eexists. split; [exact Hreg|]. split; [exact Hevs|].
  apply route_of_registered.
Qed.

(** C6 (as amended). Every domain-operation metric a service emits carries
    labels drawn from the fixed literals of that service: an outcome in
    {success, error, not_found} for the user and order services, in
    {success, error} for the gateway's call counter and in {success, failed}
    for the notification counter, next to a fixed operation, service or
    notification type.  The request metrics carry the request's method, a
    registered route template (or the empty string) and the status code. *)
Theorem metric_labels_bounded :
  labels_within Gateway.service gateway_vocabulary
  ∧ labels_within UserService.service user_vocabulary
  ∧ labels_within OrderService.service order_vocabulary
  ∧ labels_within NotificationService.service notification_vocabulary.
Proof.
  split; [|split; [|split]].
  - apply handled_labels_within, gateway_routes.
  - apply handled_labels_within, user_routes.
  - apply handled_labels_within, order_routes.
  - apply handled_labels_within, notification_routes.
Qed.

(** C6 as stated fails in the notification service: a failed send is counted
    under the outcome [failed], which is not in {success, error, not_found}. *)
Lemma notification_outcome_failed :
  ¬ outcomes_enumerated
      (registry (final_world (serve NotificationService.service
                                    (Demo.env 0 Demo.unreachable) Demo.notify
                                    (Demo.world NotificationService.initial)))).
Proof.
  let v := eval vm_compute in
             (registry (final_world (serve NotificationService.service
                                           (Demo.env 0 Demo.unreachable) Demo.notify
                                           (Demo.world NotificationService.initial)))) in
  assert (Hreg : registry (final_world (serve NotificationService.service
                                              (Demo.env 0 Demo.unreachable) Demo.notify
                                              (Demo.world NotificationService.initial))) = v)
    by (vm_compute; reflexivity).
  rewrite Hreg. intros Hall.
  inversion Hall as [|? ? _ H1]. inversion H1 as [|? ? _ H2].
  inversion H2 as [|? ? Hbad _].
  specialize (Hbad "failed" eq_refl). discriminate Hbad.
Qed.

(** ** Health and metrics endpoints *)

Ltac run := repeat (cbn; try step).

(** A request that matches a route runs that route's handler in the chain. *)
Lemma serve_route {S} (svc : Service S) (E : Env) (req : Request) (w : World S)
    (r : Route S) (ps : list (string * string)) :
  dispatch (routes svc) (method req) (path req) = Some (r, ps) →
  serve svc E req w
  = finish (chain svc E (route_handler r E)
                  (mkSt (mkGin req Background (route_pattern r) ps 200 NoBody) [] w)).
Proof. intros Hd. unfold serve. now rewrite Hd. Qed.

Lemma any_exposes {S} (svc : Service S) (domain : Family) (others : list (Route S)) :
  families svc = http_families ++ [domain] →
  family_kind domain = Counter →
  routes svc = mkRoute "GET" "/health" (health (service_name svc))
               :: mkRoute "GET" "/metrics" (metrics (families svc)) :: others →
  exposes svc.
Proof.
  intros Hfams Hkind Hroutes E hdr body w. split; [|split].
  - rewrite (serve_route svc E _ w (mkRoute "GET" "/health" (health (service_name svc))) []);
      [|now rewrite Hroutes].
    run; reflexivity.
  - rewrite (serve_route svc E _ w (mkRoute "GET" "/metrics" (metrics (families svc))) []);
      [|now rewrite Hroutes].
    run; reflexivity.
  - exists domain. split; [exact Hfams | exact Hkind].
Qed.

(** C8. In every service, [GET /health] answers 200 with a [status] field
    and the service's name, and [GET /metrics] answers with the text
    exposition of the registry in which the service registered its request
    counter, its latency histogram and its domain counter. *)
Theorem health_and_metrics :
  exposes Gateway.service ∧ exposes UserService.service
  ∧ exposes OrderService.service ∧ exposes NotificationService.service.
Proof.
  split; [|split; [|split]]; eapply any_exposes; reflexivity.
Qed.

(** ** The handler inside the chain *)

(** Whatever the handler, the chain keeps of its final state what [framed]
    says. *)
Lemma chain_frame {S} (svc : Service S) (E : Env) (h : M S unit) (req : Request)
    (route : string) (ps : list (string * string)) (w : World S) :
  ∃ root parent name ids,
    framed (finish (chain svc E h (mkSt (mkGin req Background route ps 200 NoBody) [] w)))
           (h (entry_state req route ps w root parent name ids)).2.
Proof.
  unfold framed, entry_state.
  destruct (Propagation.Extract (header req)) as [sc|] eqn:Hex;
    cbn; rewrite Hex; cbn;
    match goal with
    | |- context [h (mkSt _ [mkSpan ?r ?p ?n _ _ _ _] (mkWorld _ _ ?i _ _ _ _ _))] =>
        exists r, p, n, i
    end;
    match goal with |- context [h ?st] => destruct (h st) as [u [g2 sp2 w2]] end;
    cbn; destruct sp2 as [|[rc rp rn ra re rs [|]] rest]; cbn;
    destruct (500 <=? writer_status g2)%Z; cbn; repeat split; eauto.
Qed.

Lemma serve_frame {S} (svc : Service S) (E : Env) (req : Request) (w : World S)
    (r : Route S) (ps : list (string * string)) :
  dispatch (routes svc) (method req) (path req) = Some (r, ps) →
  ∃ root parent name ids,
    framed (serve svc E req w)
           (route_handler r E (entry_state req (route_pattern r) ps w root parent name ids)).2.
Proof. intros Hd. rewrite (serve_route svc E req w r ps Hd). apply chain_frame. Qed.

(** ** Running a handler along one path *)

Lemma ev_bind {S A B} (m : M S A) (k : A → M S B) (st st1 : St S) (a : A) (r : B * St S) :
  m st = (a, st1) → k a st1 = r → bind m k st = r.
Proof. intros Hm Hk. unfold bind. now rewrite Hm. Qed.

(** Normal form of a state expression: everything is computed except what
    the environment decides and the arithmetic on its values. *)
Ltac norm_term x :=
  eval lazy -[Propagation.Extract Propagation.Inject Hex.fixed itoa hex_of Atoi incr env_or
              N.modulo Z.modulo N.pow Z.pow Z.mul Z.add Z.sub Z.div Z.leb Z.ltb Z.of_N
              Z.of_nat Z.to_nat N.of_nat Z.to_N andb String.append
              gmap_lookup gmap_partial_alter gmap_empty map_to_list
              NotificationService.Qltb NotificationService.failure_rate millisecond
              json_of_user json_of_order json_of_notification
              getenv rand_src id_src new_request_error transport json_unmarshal bind_map
              bind_user bind_order_req format_rfc3339 exposition] in x.

Ltac norm_lhs :=
  lazymatch goal with
  | |- ?l = ?r => let l' := norm_term l in change (l' = r)
  end.

Ltac norm_in H :=
  let T := type of H in let T' := norm_term T in change T' in H.

Ltac rewrite_hyps :=
  repeat match goal with
         | H : ?x = _ |- context [?x] => rewrite H
         end.

(** The scrutinee of the match in head position is settled by a hypothesis
    or, when it is closed, by computation. *)
Ltac settle :=
  progress
    (lazymatch goal with
     | |- (match ?x with _ => _ end) _ = _ =>
         let x' := norm_term x in change x with x'
     end;
     try rewrite_hyps;
     try (lazymatch goal with
          | |- (match ?y with _ => _ end) _ = _ =>
              let y' := norm_term y in change y with y'
          end);
     try (lazymatch goal with
          | |- (match ?y with _ => _ end) _ = _ =>
              let v := eval vm_compute in y in
              lazymatch v with
              | true => change y with true
              | false => change y with false
              end
          end);
     lazy beta iota).

Lemma emit_metric_if {S} (c : bool) (a b : MetricEvent) :
  (if c then emit_metric a else emit_metric b) = emit_metric (S:=S) (if c then a else b).
Proof. now destruct c. Qed.

Ltac ev :=
  lazy beta iota zeta;
  lazymatch goal with
  | |- bind _ _ _ = _ => eapply ev_bind; [ev | ev]
  | |- ret _ _ = _ => reflexivity
  | |- (if _ then emit_metric _ else emit_metric _) _ = _ => rewrite emit_metric_if; ev
  | |- (match ?x with _ => _ end) _ = _ => settle; ev
  | |- Gateway.postOrders _ _ = _ => unfold Gateway.postOrders; ev
  | |- Gateway.callService _ _ _ _ _ = _ => unfold Gateway.callService; ev
  | |- OrderService.createOrder _ _ = _ => unfold OrderService.createOrder; ev
  | |- OrderService.callUserService _ _ _ _ = _ => unfold OrderService.callUserService; ev
  | |- NotificationService.sendNotification _ _ = _ =>
      unfold NotificationService.sendNotification; ev
  | |- NotificationService.simulateNotificationSending _ _ _ _ = _ =>
      unfold NotificationService.simulateNotificationSending; ev
  | |- LoggerApp.hello _ _ = _ => unfold LoggerApp.hello; ev
  | |- _ = _ => norm_lhs; repeat (progress rewrite_hyps; norm_lhs); reflexivity
  end.

Ltac norm_hyps :=
  repeat match goal with
         | H : _ = _ |- _ => progress norm_in H
         end.

(** Replace the run of a handler by the state it computes. *)
Ltac run_at h st :=
  let out := fresh "out" in
  let Hrun := fresh "Hrun" in
  let T := type of (h st) in
  evar (out : T);
  assert (Hrun : h st = out) by (subst out; unfold entry_state; ev);
  rewrite Hrun; subst out; clear Hrun.

Ltac run_handler :=
  norm_hyps;
  match goal with
  | |- context [(?h ?st).2] => run_at h st
  | |- context [finish (?h ?st)] => run_at h st
  end.


(** ** The composite create-order request of the gateway *)

(** C3 (as amended). In the gateway's [POST /api/v1/orders], when the call
    to the order service returns an error ([callService] could not build or
    send the request, or read or decode the answer), the response is 500
    with that error as its body and nothing else; at most one outbound call
    was made, to the order service, and the only child spans are of that
    call: the notification service is not called. *)
Theorem required_hop_failure (E : Env) (hdr : gmap string string) (body : string)
    (w : World unit) (orderReq : option (list (string * JSON))) (e : string) :
  bind_map E body = inr orderReq →
  (call_outcome E (length (outbound w)) (order_url E)).2 = Some e →
  let res := serve Gateway.service E (mkRequest "POST" "/api/v1/orders" hdr body) w in
  response res = mkResponse 500 (JSONBody (JObj [("error", JStr e)]))
  ∧ (∃ calls, outbound (final_world res) = calls ++ outbound w
              ∧ (length calls ≤ 1)%nat
              ∧ Forall (λ c, call_url c = order_url E) calls)
  ∧ Forall (λ s, span_name s = "call-order-service") (drop 1 (request_spans res)).
Proof.
  intros Hbind Hcall res. subst res.
  destruct (serve_frame Gateway.service E (mkRequest "POST" "/api/v1/orders" hdr body) w
              (mkRoute "POST" "/api/v1/orders" Gateway.postOrders) [] eq_refl)
    as (root & parent & name & ids & Hresp & _ & Hout & _ & Hspans & _).
  rewrite Hresp, Hout, Hspans. clear Hresp Hout Hspans.
  cbn [route_handler route_pattern].
  unfold call_outcome, order_url in *. norm_in Hcall.
  destruct (new_request_error E _) as [e0|] eqn:Hnre;
    [|destruct (transport E _ _) as [d e1|d status [e2|bytes]] eqn:Htr;
      [| |destruct (json_unmarshal E bytes) as [e3|result] eqn:Hju]];
    try discriminate Hcall;
    injection Hcall as <-;
    run_handler;
    (split; [reflexivity|]);
    (split; [|repeat constructor]);
    first [ exists []; split; [reflexivity | split; [cbn; lia | constructor]]
          | eexists [_]; split; [reflexivity | split; [cbn; lia | repeat constructor]] ].
Qed.

(** The order service is unreachable: the caller of the scenario gets 500. *)
Lemma required_hop_failure_witness :
  let E := Demo.env 0 Demo.unreachable in
  let res := serve Gateway.service E Demo.create_order (Demo.world tt) in
  (call_outcome E 0 (order_url E)).2 = Some "connection refused"
  ∧ response res = mkResponse 500 (JSONBody (JObj [("error", JStr "connection refused")]))
  ∧ (∃ calls, outbound (final_world res) = calls ++ []
              ∧ (length calls ≤ 1)%nat
              ∧ Forall (λ c, call_url c = order_url E) calls)
  ∧ Forall (λ s, span_name s = "call-order-service") (drop 1 (request_spans res)).
Proof.
  split; [vm_compute; reflexivity|].
  apply (required_hop_failure (Demo.env 0 Demo.unreachable) Demo.traced "{}"
                              (Demo.world tt) (Some []) "connection refused");
    vm_compute; reflexivity.
Defined.

(** C3 as stated fails: the order service answers 500 with a JSON body.
    [callService] counts the call as an [error] but returns none, so the
    gateway goes on to the notification hop and answers 200, with the order
    service's error object under [order]. *)
Lemma order_service_500_is_not_a_failure :
  let E := Demo.env 0 Demo.orders_broken in
  let res := serve Gateway.service E Demo.create_order (Demo.world tt) in
  transport E 0 (order_url E) = Responded 3 500 (inr "order failure")
  ∧ Gateway.serviceCalls "order-service" "error" ∈ registry (final_world res)
  ∧ response res
    = mkResponse 200 (JSONBody (JObj [("order", JObj [("error", JStr "boom")]);
                                      ("notification", JObj [("error", JStr "boom")])]))
  ∧ call_url <$> outbound (final_world res) = [notify_url E; order_url E].
Proof.
  cbv zeta. split; [vm_compute; reflexivity|].
  split; [vm_compute; set_solver|].
  split; vm_compute; reflexivity.
Qed.

(** C4 (as amended). In the gateway's [POST /api/v1/orders], when the call
    to the order service succeeds and the call to the notification service
    returns an error, the response is 200 and carries the order service's
    result under [order]; its [notification] field is JSON null; the
    notification call's span records the error, and one line of the
    standard logger reports it. *)
Theorem optional_hop_failure (E : Env) (hdr : gmap string string) (body : string)
    (w : World unit) (orderReq order : option (list (string * JSON))) (e : string) :
  bind_map E body = inr orderReq →
  call_outcome E (length (outbound w)) (order_url E) = (order, None) →
  (call_outcome E (Datatypes.S (length (outbound w))) (notify_url E)).2 = Some e →
  let res := serve Gateway.service E (mkRequest "POST" "/api/v1/orders" hdr body) w in
  response res = mkResponse 200 (JSONBody (JObj [("order", json_of_map order);
                                                 ("notification", JNull)]))
  ∧ notification_field res = Some JNull
  ∧ (∃ first second,
        drop 1 (request_spans res) = [first; second]
        ∧ span_name first = "call-order-service"
        ∧ span_name second = "call-notification-service"
        ∧ recorded_errors second = [e])
  ∧ (∃ access, log_output (final_world res)
               = access :: StdLog ("Failed to send notification: " +:+ e) :: log_output w).
Proof.
  intros Hbind Horder Hnotify res. subst res. unfold notification_field.
  destruct (serve_frame Gateway.service E (mkRequest "POST" "/api/v1/orders" hdr body) w
              (mkRoute "POST" "/api/v1/orders" Gateway.postOrders) [] eq_refl)
    as (root & parent & name & ids & Hresp & _ & _ & _ & Hspans & _ & _ & (access & Hlog)).
  rewrite Hresp, Hspans, Hlog. clear Hresp Hspans Hlog.
  cbn [route_handler route_pattern resp_body].
  unfold call_outcome, order_url, notify_url in *. norm_in Horder. norm_in Hnotify.
  destruct (new_request_error E _) as [e0|] eqn:Hnre in Horder; [discriminate Horder|].
  destruct (transport E _ _) as [d e1|d status [e2|bytes]] eqn:Htr in Horder;
    try discriminate Horder.
  destruct (json_unmarshal E bytes) as [e3|result] eqn:Hju; [discriminate Horder|].
  injection Horder as ->.
  (destruct (new_request_error E _) as [e0'|] eqn:Hnre' in Hnotify;
   [|destruct (transport E _ _) as [d' e1'|d' status' [e2'|bytes']] eqn:Htr' in Hnotify;
     [| |destruct (json_unmarshal E bytes') as [e3'|result'] eqn:Hju' in Hnotify]]);
    try discriminate Hnotify;
    injection Hnotify as <-;
    run_handler;
    (split; [reflexivity|]);
    (split; [reflexivity|]);
    (split; [eexists _, _; repeat split; reflexivity | eexists; reflexivity]).
Qed.

(** The scenario of the specification: the order service answers, the
    notification service is unreachable. *)
Lemma optional_hop_failure_witness :
  let E := Demo.env 0 Demo.orders_only in
  let res := serve Gateway.service E Demo.create_order (Demo.world tt) in
  call_outcome E 0 (order_url E) = (Some [("id", JStr "O123")], None)
  ∧ (call_outcome E 1 (notify_url E)).2 = Some "connection refused"
  ∧ response res = mkResponse 200 (JSONBody (JObj [("order", JObj [("id", JStr "O123")]);
                                                   ("notification", JNull)])).
Proof.
  split; [vm_compute; reflexivity|]. split; [vm_compute; reflexivity|].
  apply (optional_hop_failure (Demo.env 0 Demo.orders_only) Demo.traced "{}"
                              (Demo.world tt) (Some []) (Some [("id", JStr "O123")])
                              "connection refused");
    vm_compute; reflexivity.
Defined.

(** C4 as stated fails: in the scenario of the specification the response
    does not mark the notification as failed; the field is null. *)
Lemma notification_not_flagged :
  ¬ flagged_failed (serve Gateway.service (Demo.env 0 Demo.orders_only)
                          Demo.create_order (Demo.world tt)).
Proof. unfold flagged_failed. vm_compute. discriminate. Qed.

(** ** The order service's createOrder *)




(** ** The notification service's /notify *)


(** A run in which the simulated send fails, and what the caller sees. *)
Example notify_failed_send :
  let E := Demo.env 0 Demo.unreachable in
  let res := serve NotificationService.service E Demo.notify (Demo.world 1%Z) in
  send_fails E (Demo.world 1%Z) = true
  ∧ resp_status (response res) = 200%Z
  ∧ (recorded_errors <$> request_spans res !! 1%nat) = Some ["notification sending failed"].
Proof. vm_compute. repeat split; reflexivity. Qed.

(** ** Log records *)

Lemma handled_access_logged {S} (svc : Service S) (ok : MetricEvent → bool) :
  (∀ E r, r ∈ routes svc → well_behaved ok (route_handler r E)) → access_logged svc.
Proof.
  intros Hroutes E req w.
  destruct (serve_handled svc ok E req w (Hroutes E))
    as (_ & _ & _ & (time & latency & ls & Hlog & _)).
  eexists _, ls. split; [exact Hlog|]. repeat split.
Qed.

(** The two records of a request to [/hello]. *)
Lemma hello_records (E : Env) (req : Request) (w : World unit) :
  hello_logged E req w
    ("trace-" +:+ hex_of (Z.to_N (Z.of_N (rand_src E (rand_pos w)) mod clock w)))
    (hello_request_id E req w).
Proof.
  unfold hello_logged, hello_request_id, LoggerApp.serve_hello. cbv zeta.
  destruct (header req !! "X-Request-Id") as [h|] eqn:Hhdr; cbn [default from_option id].
  - destruct (String.eqb h "") eqn:Hempty.
    + apply String.eqb_eq in Hempty as ->.
      destruct (Z.of_N (rand_src E (Datatypes.S (Datatypes.S (Datatypes.S (rand_pos w)))))
                mod 10 <? 2)%Z eqn:Hdraw.
      all: run_handler.
      all: eexists _, _; split; [reflexivity|]; repeat constructor.
    + destruct (Z.of_N (rand_src E (Datatypes.S (Datatypes.S (rand_pos w)))) mod 10 <? 2)%Z
        eqn:Hdraw.
      all: run_handler.
      all: eexists _, _; split; [reflexivity|]; repeat constructor.
  - destruct (Z.of_N (rand_src E (Datatypes.S (Datatypes.S (Datatypes.S (rand_pos w)))))
              mod 10 <? 2)%Z eqn:Hdraw.
    all: run_handler.
    all: eexists _, _; split; [reflexivity|]; repeat constructor.
Qed.

(** C7 (as amended). In the logging application, the two records of a
    request to [/hello] carry one trace id, one request id, the service name
    and the service version; the request id is the inbound [X-Request-Id]
    header when it is not empty and is otherwise generated from the
    request's second draw, and the trace id is generated from the first
    draw, whatever the request.  In the four services, the access-log record
    of a request carries the trace id of the request's span context and the
    [service] literal of the service's format (none in the gateway), and no
    request id. *)
Theorem log_fields :
  (∀ E req w,
      hello_logged E req w
        ("trace-" +:+ hex_of (Z.to_N (Z.of_N (rand_src E (rand_pos w)) mod clock w)))
        (hello_request_id E req w))
  ∧ access_logged Gateway.service ∧ access_logged UserService.service
  ∧ access_logged OrderService.service ∧ access_logged NotificationService.service.
Proof.
  split; [exact hello_records|]. split; [|split; [|split]].
  - apply (handled_access_logged _ gateway_vocabulary), gateway_routes.
  - apply (handled_access_logged _ user_vocabulary), user_routes.
  - apply (handled_access_logged _ order_vocabulary), order_routes.
  - apply (handled_access_logged _ notification_vocabulary), notification_routes.
Qed.

(** C7 as stated fails in the user service: the one record logged for a
    request is the access-log line, and it has no request id. *)
Lemma access_log_without_request_id :
  ¬ Forall fully_tagged
           (logged_for (serve UserService.service (Demo.env 0 Demo.unreachable)
                              Demo.get_user (Demo.world UserService.users))
                       (Demo.world UserService.users)).
Proof.
  let v := eval vm_compute in
             (logged_for (serve UserService.service (Demo.env 0 Demo.unreachable)
                                Demo.get_user (Demo.world UserService.users))
                         (Demo.world UserService.users)) in
  assert (Hlogs : logged_for (serve UserService.service (Demo.env 0 Demo.unreachable)
                                    Demo.get_user (Demo.world UserService.users))
                             (Demo.world UserService.users) = v)
    by (vm_compute; reflexivity).
  rewrite Hlogs. intros Hall.
  inversion Hall as [|? ? (_ & [rid Hrid] & _) _]. discriminate Hrid.
Qed.

(** The trace id of the logging application is not the inbound header's:
    with the header of the scenario, the records carry a drawn id. *)
Example hello_trace_id_ignores_header :
  let req := mkRequest "GET" "/hello" Demo.traced "" in
  let res := LoggerApp.serve_hello (Demo.env 7 Demo.unreachable) req (Demo.world tt) in
  (traceID <$> Propagation.Extract (header req)) = Some 0x4bf92f3577b34da6a3ce929d0e0e4736%N
  ∧ log_trace_id <$> logged_for res (Demo.world tt) = [Some "trace-7"; Some "trace-7"].
Proof. vm_compute. split; reflexivity. Qed.

(** ** Further properties *)

Lemma root_context_trace {S} (E : Env) (req : Request) (w : World S) :
  traceID (root_context E req w) = trace_of E req w.
Proof. unfold root_context, trace_of. now destruct (Propagation.Extract (header req)). Qed.

(** The chain around a handler, with the entry state written out. *)
Lemma chain_entry {S} (svc : Service S) (E : Env) (h : M S unit) (req : Request)
    (route : string) (ps : list (string * string)) (code : Z) (b : Body) (w : World S) :
  framed (finish (chain svc E h (mkSt (mkGin req Background route ps code b) [] w)))
         (h (entry E req route ps code b w)).2.
Proof.
  unfold framed, entry, root_context, root_name.
  destruct (Propagation.Extract (header req)) as [sc|] eqn:Hex;
    cbn; rewrite Hex; cbn;
    match goal with |- context [h ?st] => destruct (h st) as [u [g2 sp2 w2]] end;
    cbn; destruct sp2 as [|[rc rp rn ra re rs [|]] rest]; cbn;
    destruct (500 <=? writer_status g2)%Z; cbn; repeat split; eauto.
Qed.

Lemma serve_entry {S} (svc : Service S) (E : Env) (req : Request) (w : World S)
    (r : Route S) (ps : list (string * string)) :
  dispatch (routes svc) (method req) (path req) = Some (r, ps) →
  framed (serve svc E req w)
         (route_handler r E (entry E req (route_pattern r) ps 200 NoBody w)).2.
Proof. intros Hd. rewrite (serve_route svc E req w r ps Hd). apply chain_entry. Qed.

Lemma serve_unrouted {S} (svc : Service S) (E : Env) (req : Request) (w : World S) :
  dispatch (routes svc) (method req) (path req) = None →
  framed (serve svc E req w)
         (entry E req "" [] 404 (TextBody "404 page not found") w).
Proof.
  intros Hd. unfold serve. rewrite Hd.
  exact (chain_entry svc E (ret tt) req "" [] 404 (TextBody "404 page not found") w).
Qed.

(** *** Routing of the parameter routes *)

Lemma split_slash_segment (cur s : string) :
  segment s = true → split_slash cur s = [cur +:+ s].
Proof.
  revert cur. induction s as [|c s IH]; intros cur Hs.
  - clear Hs. cbn. f_equal. induction cur as [|x cur IH]; [reflexivity|].
    rewrite string_app_cons. now f_equal.
  - cbn in Hs. apply andb_prop in Hs as [Hc Hs].
    cbn [split_slash]. destruct (Ascii.eqb c "/"); [discriminate Hc|].
    rewrite (IH _ Hs). now rewrite string_app_assoc.
Qed.

Lemma route_getUserByID (id : string) :
  segment id = true → id ≠ "" →
  dispatch (routes UserService.service) "GET" ("/users/" +:+ id)
  = Some (mkRoute "GET" "/users/:id" UserService.getUserByID, [("id", id)]).
Proof.
  intros Hseg Hne. destruct id as [|c id]; [now destruct Hne|].
  unfold UserService.service, dispatch, match_route, routes, route_method, route_pattern.
  rewrite ?string_app_cons, ?string_app_nil.
  change (split_slash "" (String "/" (String "u" (String "s" (String "e" (String "r"
            (String "s" (String "/" (String c id)))))))))
    with ("" :: "users" :: split_slash "" (String c id)).
  rewrite (split_slash_segment "" _ Hseg). reflexivity.
Qed.

Lemma route_getOrderByID (id : string) :
  segment id = true → id ≠ "" →
  dispatch (routes OrderService.service) "GET" ("/orders/" +:+ id)
  = Some (mkRoute "GET" "/orders/:id" OrderService.getOrderByID, [("id", id)]).
Proof.
  intros Hseg Hne. destruct id as [|c id]; [now destruct Hne|].
  unfold OrderService.service, dispatch, match_route, routes, route_method, route_pattern.
  rewrite ?string_app_cons, ?string_app_nil.
  change (split_slash "" (String "/" (String "o" (String "r" (String "d" (String "e"
            (String "r" (String "s" (String "/" (String c id))))))))))
    with ("" :: "orders" :: split_slash "" (String c id)).
  rewrite (split_slash_segment "" _ Hseg). reflexivity.
Qed.

Lemma route_gateway_getUser (id : string) :
  segment id = true → id ≠ "" →
  dispatch (routes Gateway.service) "GET" ("/api/v1/users/" +:+ id)
  = Some (mkRoute "GET" "/api/v1/users/:id" Gateway.getUser, [("id", id)]).
Proof.
  intros Hseg Hne. destruct id as [|c id]; [now destruct Hne|].
  unfold Gateway.service, dispatch, match_route, routes, route_method, route_pattern.
  rewrite ?string_app_cons, ?string_app_nil.
  change (split_slash "" (String "/" (String "a" (String "p" (String "i" (String "/"
            (String "v" (String "1" (String "/" (String "u" (String "s" (String "e"
            (String "r" (String "s" (String "/" (String c id))))))))))))))))
    with ("" :: "api" :: "v1" :: "users" :: split_slash "" (String c id)).
  rewrite (split_slash_segment "" _ Hseg). reflexivity.
Qed.

(** *** Running a handler from its entry state *)

(** Evaluation of the monadic code and of the state's records and lists;
    the values the handlers only carry are left alone. *)
Declare Reduction run :=
  lazy beta iota zeta delta
       [UserService.simulateWork OrderService.simulateWork
        LoggerApp.getMockTraceID LoggerApp.rand_Int63n LoggerApp.log
        LoggerApp.With LoggerApp.baseLogger
        health metrics
        bind ret get with_world with_gin with_spans time_Now advance time_Sleep next_draw
        rand_Intn rand_Float32 next_id emit_metric emit_log export_span record_call
        get_store put_store c_Request c_Request_Context set_request_context c_FullPath
        c_Writer_Status c_Param lookup_param write c_JSON
        Start update_span SetAttributes RecordError
        SetStatus End client_Do Inject SpanFromContext parent_context span_context_of
        add_attributes add_error set_status close hop_elapsed
        gin spans world clock rand_pos id_pos exported registry log_output outbound store
        gin_request request_context full_path gin_params writer_status writer_body
        span_context parentSpanID span_name attributes recorded_errors span_status ended
        traceID spanID sampled method path header payload
        orders nextOrderID
        user_ID user_Name user_Email user_Age user_Status user_CreateAt
        order_ID order_UserID order_Product order_Amount order_Status order_CreateAt
        req_UserID req_Product req_Amount
        notif_ID notif_Type notif_Message notif_Status notif_SentAt
        call_url call_header
        lookup list_lookup insert list_insert app length fmap list_fmap option_fmap
        option_map from_option default id fst snd drop
        String.eqb Ascii.eqb Bool.eqb andb negb].

Ltac run_lhs :=
  lazymatch goal with
  | |- ?l = ?r => let l' := eval run in l in change (l' = r)
  end.

Ltac run_in H :=
  let T := type of H in let T' := eval run in T in change T' in H.

Ltac run_hyps :=
  repeat match goal with
         | H : _ = _ |- _ => progress run_in H
         end.

(** The scrutinee of the match in head position, settled by a hypothesis
    or by evaluation. *)
Ltac decide_head :=
  progress
    (lazymatch goal with
     | |- (match ?x with _ => _ end) _ = _ =>
         let x' := eval run in x in change x with x'
     end;
     try rewrite_hyps;
     lazy beta iota).

Ltac exec :=
  lazy beta iota zeta;
  lazymatch goal with
  | |- bind _ _ _ = _ => eapply ev_bind; [exec | exec]
  | |- ret _ _ = _ => reflexivity
  | |- (match ?x with _ => _ end) _ = _ => decide_head; exec
  | |- UserService.getUserByID _ _ = _ => unfold UserService.getUserByID; exec
  | |- UserService.createUser _ _ = _ => unfold UserService.createUser; exec
  | |- UserService.getAllUsers _ _ = _ => unfold UserService.getAllUsers; exec
  | |- OrderService.getOrderByID _ _ = _ => unfold OrderService.getOrderByID; exec
  | |- OrderService.getOrders _ _ = _ => unfold OrderService.getOrders; exec
  | |- OrderService.createOrder _ _ = _ => unfold OrderService.createOrder; exec
  | |- OrderService.callUserService _ _ _ _ = _ => unfold OrderService.callUserService; exec
  | |- NotificationService.sendEmail _ _ = _ => unfold NotificationService.sendEmail; exec
  | |- NotificationService.sendSMS _ _ = _ => unfold NotificationService.sendSMS; exec
  | |- NotificationService.sendFixed _ _ _ _ _ = _ =>
      unfold NotificationService.sendFixed; exec
  | |- NotificationService.sendNotification _ _ = _ =>
      unfold NotificationService.sendNotification; exec
  | |- NotificationService.simulateNotificationSending _ _ _ _ = _ =>
      unfold NotificationService.simulateNotificationSending; exec
  | |- Gateway.getUser _ _ = _ => unfold Gateway.getUser; exec
  | |- Gateway.getOrders _ _ = _ => unfold Gateway.getOrders; exec
  | |- Gateway.postOrders _ _ = _ => unfold Gateway.postOrders; exec
  | |- Gateway.callService _ _ _ _ _ = _ => unfold Gateway.callService; exec
  | |- LoggerApp.hello _ _ = _ => unfold LoggerApp.hello; exec
  | |- _ = _ => run_lhs; reflexivity
  end.

(** The root span's context and the id counter as opaque values, and the
    request and the world as their components. *)
Ltac open_entry req w :=
  unfold entry;
  repeat match goal with
         | |- context [root_context ?E ?r ?x] => generalize (root_context E r x); intro
         | |- context [match Propagation.Extract ?h with
                       | Some _ => Datatypes.S ?a | None => Datatypes.S (Datatypes.S ?b) end] =>
             generalize (match Propagation.Extract h with
                         | Some _ => Datatypes.S a | None => Datatypes.S (Datatypes.S b) end);
             intro
         | |- context [spanID <$> Propagation.Extract ?h] =>
             generalize (spanID <$> Propagation.Extract h); intro
         end;
  destruct w as [w_clock w_rand w_ids w_exported w_registry w_log w_outbound w_store];
  destruct req as [req_method req_path req_header req_payload];
  cbn [clock rand_pos id_pos exported registry log_output outbound store
       method path header payload] in *.

(** Replace the run of a handler by the state it computes. *)
Ltac run_entry :=
  run_hyps;
  match goal with
  | |- context [(?h ?st).2] =>
      let out := fresh "out" in
      let Hrun := fresh "Hrun" in
      let T := type of (h st) in
      evar (out : T);
      assert (Hrun : h st = out) by (subst out; exec);
      rewrite Hrun; subst out; clear Hrun
  | |- context [finish (?h ?st)] =>
      let out := fresh "out" in
      let Hrun := fresh "Hrun" in
      let T := type of (h st) in
      evar (out : T);
      assert (Hrun : h st = out) by (subst out; exec);
      rewrite Hrun; subst out; clear Hrun
  end.

(** [well_traced] of a state that has been computed. *)
Ltac pick_child :=
  first [ eexists; split; [apply list_elem_of_here | reflexivity]
        | eexists; split; [apply list_elem_of_further, list_elem_of_here | reflexivity] ].

Ltac prove_traced :=
  unfold well_traced; cbv zeta;
  split; [eexists; repeat split; reflexivity|];
  split; [repeat (constructor;
                  [repeat split; try reflexivity;
                   apply N.mod_lt, N.pow_nonzero; discriminate|]); constructor|];
  split; [reflexivity|];
  first [ exists []; split; [reflexivity|]
        | eexists [_]; split; [reflexivity|]
        | eexists [_; _]; split; [reflexivity|] ];
  repeat (constructor; [pick_child|]); constructor.

(** The facts of [framed], named. *)
Ltac framed_by H :=
  destruct H as (Hresp & Hstore & Hout & Hclock & Hspans & Herr & Hreg & Hlog).


(** *** Routes every service mounts *)

Lemma health_run {S} (name : string) (E : Env) (req : Request) (route : string)
    (ps : list (string * string)) (w : World S) :
  let st := (health name E (entry E req route ps 200 NoBody w)).2 in
  store (world st) = store w ∧ outbound (world st) = outbound w
  ∧ registry (world st) = registry w
  ∧ well_traced E req w st.
Proof.
  cbv zeta. unfold well_traced. open_entry req w; run_entry.
  repeat (split; [reflexivity|]). prove_traced.
Qed.

Lemma metrics_run {S} (fams : list Family) (E : Env) (req : Request) (route : string)
    (ps : list (string * string)) (w : World S) :
  let st := (metrics fams E (entry E req route ps 200 NoBody w)).2 in
  store (world st) = store w ∧ outbound (world st) = outbound w
  ∧ registry (world st) = registry w
  ∧ well_traced E req w st.
Proof.
  cbv zeta. unfold well_traced. open_entry req w; run_entry.
  repeat (split; [reflexivity|]). prove_traced.
Qed.

Lemma unrouted_run {S} (E : Env) (req : Request) (w : World S) :
  well_traced E req w (entry E req "" [] 404 (TextBody "404 page not found") w).
Proof. unfold well_traced. open_entry req w. prove_traced. Qed.

(** ** user-service *)

(** [getUserByID] from the entry state, along its three paths. *)
Lemma getUserByID_run (E : Env) (req : Request) (route : string)
    (ps : list (string * string)) (w : World (gmap Z User)) :
  let st := (UserService.getUserByID E (entry E req route ps 200 NoBody w)).2 in
  well_traced E req w st
  ∧ (  store (world st) = store w
  ∧ outbound (world st) = outbound w
  ∧ match Atoi (lookup_param "id" ps) with
    | None =>
        writer_status (gin st) = 400%Z
        ∧ writer_body (gin st) = JSONBody (JObj [("error", JStr "Invalid user ID")])
        ∧ drop 1 (spans st) = []
        ∧ clock (world st) = clock w
        ∧ registry (world st) = UserService.userOperations "get_user" "error" :: registry w
    | Some n =>
        match store w !! n with
        | None =>
            writer_status (gin st) = 404%Z
            ∧ writer_body (gin st) = JSONBody (JObj [("error", JStr "User not found")])
            ∧ span_name <$> drop 1 (spans st) = ["simulate-database_query"]
            ∧ registry (world st)
              = UserService.userOperations "get_user" "not_found" :: registry w
        | Some u =>
            writer_status (gin st) = 200%Z
            ∧ writer_body (gin st) = JSONBody (json_of_user u)
            ∧ span_name <$> drop 1 (spans st)
              = ["simulate-database_query"; "simulate-data_processing"]
            ∧ registry (world st)
              = UserService.userOperations "get_user" "success" :: registry w
        end
    end).
Proof.
  cbv zeta. unfold well_traced.
  destruct (Atoi (lookup_param "id" ps)) as [n|] eqn:Hatoi;
    [destruct (store w !! n) as [u|] eqn:Hlk|];
    open_entry req w; run_entry; (split; [prove_traced|]); repeat split; reflexivity.
Qed.

Lemma createUser_run (E : Env) (req : Request) (route : string)
    (ps : list (string * string)) (w : World (gmap Z User)) :
  let st := (UserService.createUser E (entry E req route ps 200 NoBody w)).2 in
  well_traced E req w st
  ∧ (  outbound (world st) = outbound w
  ∧ match bind_user E (payload req) with
    | inl err =>
        writer_status (gin st) = 400%Z
        ∧ writer_body (gin st) = JSONBody (JObj [("error", JStr err)])
        ∧ store (world st) = store w
        ∧ drop 1 (spans st) = []
        ∧ registry (world st)
          = UserService.userOperations "create_user" "error" :: registry w
    | inr u =>
        let new := mkUser (Z.of_nat (size (store w)) + 1) (user_Name u) (user_Email u)
                          (user_Age u) "active" (format_rfc3339 E (clock w)) in
        writer_status (gin st) = 201%Z
        ∧ writer_body (gin st) = JSONBody (json_of_user new)
        ∧ store (world st) = <[user_ID new := new]> (store w)
        ∧ span_name <$> drop 1 (spans st) = ["simulate-database_insert"]
        ∧ registry (world st)
          = UserService.userOperations "create_user" "success" :: registry w
    end).
Proof.
  cbv zeta. unfold well_traced.
  destruct (bind_user E (payload req)) as [err|u] eqn:Hbind;
    open_entry req w; run_entry; (split; [prove_traced|]); repeat split; reflexivity.
Qed.

Lemma getAllUsers_run (E : Env) (req : Request) (route : string)
    (ps : list (string * string)) (w : World (gmap Z User)) :
  let st := (UserService.getAllUsers E (entry E req route ps 200 NoBody w)).2 in
  well_traced E req w st
  ∧ (  let userList := snd <$> map_to_list (store w) in
  store (world st) = store w
  ∧ outbound (world st) = outbound w
  ∧ writer_status (gin st) = 200%Z
  ∧ writer_body (gin st)
    = JSONBody (JObj [("users", json_of_slice json_of_user userList);
                      ("total", JInt (Z.of_nat (length userList)))])
  ∧ span_name <$> drop 1 (spans st)
    = ["simulate-database_query_all"; "simulate-data_processing"]
  ∧ registry (world st)
    = UserService.userOperations "get_all_users" "success" :: registry w).
Proof.
  cbv zeta. unfold well_traced. open_entry req w; run_entry; (split; [prove_traced|]); repeat split; reflexivity.
Qed.

(** X1. [GET /users/:id] of the user service with an id that
    [strconv.Atoi] rejects answers 400 with [Invalid user ID], counts one
    [get_user]/[error], starts no span besides the root, does not sleep and
    leaves the users as they are. *)
Theorem getUserByID_invalid_id (E : Env) (hdr : gmap string string) (body : string)
    (w : World (gmap Z User)) (id : string) :
  segment id = true → id ≠ "" → Atoi id = None →
  let res := serve UserService.service E (mkRequest "GET" ("/users/" +:+ id) hdr body) w in
  response res = mkResponse 400 (JSONBody (JObj [("error", JStr "Invalid user ID")]))
  ∧ store (final_world res) = store w
  ∧ drop 1 (request_spans res) = []
  ∧ clock (final_world res) = clock w
  ∧ (∃ observation increment,
        registry (final_world res)
        = observation :: increment
          :: UserService.userOperations "get_user" "error" :: registry w).
Proof.
  intros Hseg Hne Hatoi res. subst res.
  pose proof (serve_entry UserService.service E (mkRequest "GET" ("/users/" +:+ id) hdr body)
                w _ _ (route_getUserByID id Hseg Hne)) as H.
  framed_by H. rewrite Hresp, Hstore, Hspans, Hclock.
  destruct Hreg as (ob & inc & ->).
  cbn [route_handler route_pattern].
  pose proof (getUserByID_run E (mkRequest "GET" ("/users/" +:+ id) hdr body)
                "/users/:id" [("id", id)] w) as Hrun.
  cbv zeta in Hrun. change (lookup_param "id" [("id", id)]) with id in Hrun.
  rewrite Hatoi in Hrun.
  destruct Hrun as (_ & Hs & _ & H1 & H2 & H3 & H4 & H5).
  rewrite H1, H2, H3, H4, H5, Hs. repeat split. eexists _, _. reflexivity.
Qed.

Lemma getUserByID_invalid_id_witness :
  response (serve UserService.service (Demo.env 0 Demo.unreachable) Scenario.get_user_abc
                  (Demo.world UserService.users))
  = mkResponse 400 (JSONBody (JObj [("error", JStr "Invalid user ID")])).
Proof.
  destruct (getUserByID_invalid_id (Demo.env 0 Demo.unreachable) ∅ ""
              (Demo.world UserService.users) "abc") as (H & _);
    [reflexivity | discriminate | reflexivity | exact H].
Defined.

(** X2. [GET /users/:id] with a numeric id answers 200 with the user
    stored under that id, after two simulated steps, or 404 with [User not
    found], after one; the users are left as they are and the counter gets
    [success] or [not_found] accordingly. *)
Theorem getUserByID_lookup (E : Env) (hdr : gmap string string) (body : string)
    (w : World (gmap Z User)) (id : string) (n : Z) :
  segment id = true → id ≠ "" → Atoi id = Some n →
  let res := serve UserService.service E (mkRequest "GET" ("/users/" +:+ id) hdr body) w in
  response res
  = match store w !! n with
    | Some u => mkResponse 200 (JSONBody (json_of_user u))
    | None => mkResponse 404 (JSONBody (JObj [("error", JStr "User not found")]))
    end
  ∧ store (final_world res) = store w
  ∧ span_name <$> drop 1 (request_spans res)
    = match store w !! n with
      | Some _ => ["simulate-database_query"; "simulate-data_processing"]
      | None => ["simulate-database_query"]
      end
  ∧ (∃ observation increment,
        registry (final_world res)
        = observation :: increment
          :: UserService.userOperations
               "get_user" (match store w !! n with
                           | Some _ => "success"
                           | None => "not_found"
                           end)
          :: registry w).
Proof.
  intros Hseg Hne Hatoi res. subst res.
  pose proof (serve_entry UserService.service E (mkRequest "GET" ("/users/" +:+ id) hdr body)
                w _ _ (route_getUserByID id Hseg Hne)) as H.
  framed_by H. rewrite Hresp, Hstore, Hspans.
  destruct Hreg as (ob & inc & ->).
  cbn [route_handler route_pattern].
  pose proof (getUserByID_run E (mkRequest "GET" ("/users/" +:+ id) hdr body)
                "/users/:id" [("id", id)] w) as Hrun.
  cbv zeta in Hrun. change (lookup_param "id" [("id", id)]) with id in Hrun.
  rewrite Hatoi in Hrun.
  destruct Hrun as (_ & Hs & _ & Hrun). rewrite Hs.
  destruct (store w !! n) as [u|]; destruct Hrun as (H1 & H2 & H3 & H4);
    rewrite H1, H2, H3, H4; repeat split; eexists _, _; reflexivity.
Qed.

Lemma getUserByID_lookup_witness :
  resp_status (response (serve UserService.service (Demo.env 0 Demo.unreachable)
                               Demo.get_user (Demo.world UserService.users)))
  = 200%Z.
Proof.
  destruct (getUserByID_lookup (Demo.env 0 Demo.unreachable) ∅ ""
              (Demo.world UserService.users) "1" 1) as (H & _);
    [reflexivity | discriminate | reflexivity |].
  exact (f_equal resp_status H).
Defined.

(** X3. [POST /users] with a body the binder refuses answers 400
    with the binder's message, stores nothing and starts no child span. *)
Theorem createUser_rejects (E : Env) (hdr : gmap string string) (body : string)
    (w : World (gmap Z User)) (err : string) :
  bind_user E body = inl err →
  let res := serve UserService.service E (mkRequest "POST" "/users" hdr body) w in
  response res = mkResponse 400 (JSONBody (JObj [("error", JStr err)]))
  ∧ store (final_world res) = store w
  ∧ drop 1 (request_spans res) = [].
Proof.
  intros Hbind res. subst res.
  pose proof (serve_entry UserService.service E (mkRequest "POST" "/users" hdr body)
                w (mkRoute "POST" "/users" UserService.createUser) [] eq_refl) as H.
  framed_by H. rewrite Hresp, Hstore, Hspans.
  cbn [route_handler route_pattern].
  pose proof (createUser_run E (mkRequest "POST" "/users" hdr body) "/users" [] w) as Hrun.
  cbv zeta in Hrun. cbn [payload] in Hrun. rewrite Hbind in Hrun.
  destruct Hrun as (_ & _ & H1 & H2 & H3 & H4 & _).
  rewrite H1, H2, H3, H4; repeat split; reflexivity.
Qed.

Lemma createUser_rejects_witness :
  response (serve UserService.service (Demo.env 0 Demo.unreachable)
                  (mkRequest "POST" "/users" ∅ "") (Demo.world UserService.users))
  = mkResponse 400 (JSONBody (JObj [("error", JStr "EOF")])).
Proof.
  destruct (createUser_rejects (Demo.env 0 Demo.unreachable) ∅ ""
              (Demo.world UserService.users) "EOF") as (H & _);
    [reflexivity | exact H].
Defined.

(** X4. [POST /users] with a body that binds answers 201 with the
    new user and stores it under the number of users plus one; name, email
    and age are the body's, while id, status ([active]) and creation time
    are set by the handler, whatever the body says. *)
Theorem createUser_stores (E : Env) (hdr : gmap string string) (body : string)
    (w : World (gmap Z User)) (u : User) :
  bind_user E body = inr u →
  let res := serve UserService.service E (mkRequest "POST" "/users" hdr body) w in
  let new := mkUser (Z.of_nat (size (store w)) + 1) (user_Name u) (user_Email u)
                    (user_Age u) "active" (format_rfc3339 E (clock w)) in
  response res = mkResponse 201 (JSONBody (json_of_user new))
  ∧ store (final_world res) = <[(Z.of_nat (size (store w)) + 1)%Z := new]> (store w)
  ∧ span_name <$> drop 1 (request_spans res) = ["simulate-database_insert"].
Proof.
  intros Hbind res new. subst res new.
  pose proof (serve_entry UserService.service E (mkRequest "POST" "/users" hdr body)
                w (mkRoute "POST" "/users" UserService.createUser) [] eq_refl) as H.
  framed_by H. rewrite Hresp, Hstore, Hspans.
  cbn [route_handler route_pattern].
  pose proof (createUser_run E (mkRequest "POST" "/users" hdr body) "/users" [] w) as Hrun.
  cbv zeta in Hrun. cbn [payload] in Hrun. rewrite Hbind in Hrun.
  destruct Hrun as (_ & _ & H1 & H2 & H3 & H4 & _).
  rewrite H1, H2, H3, H4; repeat split; reflexivity.
Qed.

Lemma createUser_stores_witness :
  store (final_world (serve UserService.service (Demo.env 0 Demo.unreachable)
                            Demo.create_user (Demo.world UserService.users)))
  !! 4%Z
  = Some (mkUser 4 "Zhao" "zhao@example.com" 41 "active" "100").
Proof.
  destruct (createUser_stores (Demo.env 0 Demo.unreachable) ∅ "new user"
              (Demo.world UserService.users)
              (mkUser 0 "Zhao" "zhao@example.com" 41 "" ""))
    as (_ & H & _); [reflexivity|].
  etransitivity; [exact (f_equal (λ m, m !! 4%Z) H)|]. vm_compute. reflexivity.
Defined.

(** X5. A user just created is found: a [GET /users/:id]
    for the id after the last one, served on the state the creation left,
    answers 200 with the body the creation answered. *)
Theorem created_user_is_found (E E' : Env) (hdr hdr' : gmap string string)
    (body body' : string) (w : World (gmap Z User)) (u : User) (id : string) :
  bind_user E body = inr u →
  segment id = true → id ≠ "" →
  Atoi id = Some (Z.of_nat (size (store w)) + 1)%Z →
  let created := serve UserService.service E (mkRequest "POST" "/users" hdr body) w in
  let found := serve UserService.service E'
                     (mkRequest "GET" ("/users/" +:+ id) hdr' body')
                     (final_world created) in
  resp_status (response created) = 201%Z
  ∧ response found = mkResponse 200 (resp_body (response created)).
Proof.
  intros Hbind Hseg Hne Hatoi created found. subst created found.
  pose proof (serve_entry UserService.service E (mkRequest "POST" "/users" hdr body)
                w (mkRoute "POST" "/users" UserService.createUser) [] eq_refl) as H.
  framed_by H. cbn [route_handler route_pattern] in *.
  pose proof (createUser_run E (mkRequest "POST" "/users" hdr body) "/users" [] w) as Hrun.
  cbv zeta in Hrun. cbn [payload] in Hrun. rewrite Hbind in Hrun.
  destruct Hrun as (_ & _ & H1 & H2 & H3 & _).
  rewrite H3 in Hstore. rename Hstore into Hcreated.
  rewrite Hresp, H1, H2. cbn [resp_status resp_body].
  split; [reflexivity|].
  clear Hresp Hout Hclock Hspans Herr Hreg Hlog H1 H2 H3.
  set (w1 := final_world (serve UserService.service E
                                (mkRequest "POST" "/users" hdr body) w)) in *.
  pose proof (serve_entry UserService.service E'
                (mkRequest "GET" ("/users/" +:+ id) hdr' body')
                w1 _ _ (route_getUserByID id Hseg Hne)) as H.
  framed_by H. rewrite Hresp. cbn [route_handler route_pattern].
  pose proof (getUserByID_run E' (mkRequest "GET" ("/users/" +:+ id) hdr' body')
                "/users/:id" [("id", id)] w1) as Hrun.
  cbv zeta in Hrun. change (lookup_param "id" [("id", id)]) with id in Hrun.
  rewrite Hatoi, Hcreated in Hrun. cbn [user_ID] in Hrun.
  rewrite lookup_insert_eq in Hrun.
  destruct Hrun as (_ & _ & _ & H1 & H2 & _). rewrite H1, H2; repeat split; reflexivity.
Qed.

Lemma created_user_is_found_witness :
  let created := serve UserService.service (Demo.env 0 Demo.unreachable)
                       Demo.create_user (Demo.world UserService.users) in
  resp_status
    (response (serve UserService.service (Demo.env 0 Demo.unreachable)
                     (mkRequest "GET" "/users/4" ∅ "") (final_world created)))
  = 200%Z.
Proof.
  destruct (created_user_is_found (Demo.env 0 Demo.unreachable)
              (Demo.env 0 Demo.unreachable) ∅ ∅ "new user" ""
              (Demo.world UserService.users)
              (mkUser 0 "Zhao" "zhao@example.com" 41 "" "") "4") as (_ & H);
    [reflexivity | reflexivity | discriminate | reflexivity |].
  exact (f_equal resp_status H).
Defined.

Lemma keys_in_range_spec (users : gmap Z User) :
  keys_in_range users = true
  ↔ ∀ k u, users !! k = Some u → (1 ≤ k ≤ Z.of_nat (size users))%Z.
Proof.
  unfold keys_in_range. rewrite forallb_forall. split.
  - intros Hall k u Hk.
    assert (Hin : In k (fst <$> map_to_list users)).
    { apply list_elem_of_In, list_elem_of_fmap. exists (k, u).
      split; [reflexivity | now apply elem_of_map_to_list]. }
    specialize (Hall k Hin). apply andb_prop in Hall as [H1 H2]. lia.
  - intros Hall k Hin.
    apply list_elem_of_In, list_elem_of_fmap in Hin as ([k' u] & -> & Hin).
    apply elem_of_map_to_list in Hin. specialize (Hall _ _ Hin). cbn.
    apply andb_true_intro. split; lia.
Qed.

(** Inserting at the key after the last one keeps the keys in range. *)
Lemma keys_in_range_insert (users : gmap Z User) (u : User) :
  keys_in_range users = true →
  users !! (Z.of_nat (size users) + 1)%Z = None
  ∧ keys_in_range (<[(Z.of_nat (size users) + 1)%Z := u]> users) = true.
Proof.
  intros Hr. pose proof (proj1 (keys_in_range_spec users) Hr) as Hk.
  assert (Hnone : users !! (Z.of_nat (size users) + 1)%Z = None).
  { destruct (users !! (Z.of_nat (size users) + 1)%Z) as [x|] eqn:Hx; [|reflexivity].
    specialize (Hk _ _ Hx). lia. }
  split; [exact Hnone|].
  apply keys_in_range_spec. intros k x Hx.
  rewrite map_size_insert_None by exact Hnone.
  destruct (decide (k = Z.of_nat (size users) + 1)%Z) as [->|Hne]; [lia|].
  rewrite lookup_insert_ne in Hx by congruence.
  specialize (Hk _ _ Hx). lia.
Qed.

(** X6. When every key of the users map lies between 1
    and the number of users, it does so after any request; no request removes
    or overwrites a user, and a request adds at most one. *)
Theorem users_keep_their_keys (E : Env) (req : Request) (w : World (gmap Z User)) :
  keys_in_range (store w) = true →
  let res := serve UserService.service E req w in
  keys_in_range (store (final_world res)) = true
  ∧ store w ⊆ store (final_world res)
  ∧ (size (store (final_world res)) ≤ Datatypes.S (size (store w)))%nat.
Proof.
  intros Hr res. subst res.
  assert (Hsame : ∀ s : gmap Z User,
             s = store w →
             keys_in_range s = true ∧ store w ⊆ s
             ∧ (size s ≤ Datatypes.S (size (store w)))%nat).
  { intros s ->. split; [exact Hr|]. split; [reflexivity | lia]. }
  destruct (dispatch (routes UserService.service) (method req) (path req))
    as [[r ps]|] eqn:Hd.
  - pose proof (serve_entry UserService.service E req w r ps Hd) as H.
    framed_by H. rewrite Hstore.
    apply dispatch_Some in Hd. unfold UserService.service, routes in Hd.
    repeat (apply elem_of_cons in Hd as [->|Hd]); cbn [route_handler route_pattern].
    + apply Hsame, health_run.
    + apply Hsame, metrics_run.
    + apply Hsame, getUserByID_run.
    + apply Hsame, getAllUsers_run.
    + pose proof (createUser_run E req "/users" ps w) as Hrun. cbv zeta in Hrun.
      destruct Hrun as (_ & Hrun).
      destruct (bind_user E (payload req)) as [err|u].
      * apply Hsame. now destruct Hrun as (_ & _ & _ & -> & _).
      * destruct Hrun as (_ & _ & _ & -> & _). cbn [user_ID].
        destruct (keys_in_range_insert (store w)
                    (mkUser (Z.of_nat (size (store w)) + 1) (user_Name u) (user_Email u)
                            (user_Age u) "active" (format_rfc3339 E (clock w))) Hr)
          as [Hnone Hr'].
        split; [exact Hr'|]. split; [now apply insert_subseteq|].
        rewrite map_size_insert_None by exact Hnone. lia.
    + now apply elem_of_nil in Hd.
  - pose proof (serve_unrouted UserService.service E req w Hd) as H.
    framed_by H. rewrite Hstore. now apply Hsame.
Qed.

Lemma users_keep_their_keys_witness :
  let res := serve UserService.service (Demo.env 0 Demo.unreachable) Demo.create_user
                   (Demo.world UserService.users) in
  keys_in_range (store (final_world res)) = true
  ∧ UserService.users ⊆ store (final_world res).
Proof.
  destruct (users_keep_their_keys (Demo.env 0 Demo.unreachable) Demo.create_user
              (Demo.world UserService.users)) as (H1 & H2 & _);
    [vm_compute; reflexivity|].
  split; [exact H1 | exact H2].
Defined.


(** X7. [GET /users] answers 200 with a list that
    holds exactly the stored users, and with their number as [total]; the
    users are left as they are. *)
Theorem getAllUsers_lists_every_user (E : Env) (hdr : gmap string string) (body : string)
    (w : World (gmap Z User)) :
  let res := serve UserService.service E (mkRequest "GET" "/users" hdr body) w in
  ∃ userList,
    response res
    = mkResponse 200 (JSONBody (JObj [("users", json_of_slice json_of_user userList);
                                      ("total", JInt (Z.of_nat (size (store w))))]))
    ∧ (∀ u, u ∈ userList ↔ ∃ k, store w !! k = Some u)
    ∧ length userList = size (store w)
    ∧ store (final_world res) = store w.
Proof.
  intros res. subst res. exists (snd <$> map_to_list (store w)).
  pose proof (serve_entry UserService.service E (mkRequest "GET" "/users" hdr body)
                w (mkRoute "GET" "/users" UserService.getAllUsers) [] eq_refl) as H.
  framed_by H. rewrite Hresp, Hstore. cbn [route_handler route_pattern].
  destruct (getAllUsers_run E (mkRequest "GET" "/users" hdr body) "/users" [] w)
    as (_ & Hs & _ & H1 & H2 & _).
  rewrite H1, H2, Hs.
  assert (Hlen : length (snd <$> map_to_list (store w)) = size (store w)).
  { rewrite length_fmap, length_map_to_list. reflexivity. }
  split; [rewrite Hlen; reflexivity|]. split; [|split; [exact Hlen | reflexivity]].
  intros u. rewrite list_elem_of_fmap. split.
  - intros ([k u'] & -> & Hin). exists k. now apply elem_of_map_to_list.
  - intros [k Hk]. exists (k, u). split; [reflexivity | now apply elem_of_map_to_list].
Qed.

(** ** order-service *)

Lemma getOrders_run (E : Env) (req : Request) (route : string)
    (ps : list (string * string)) (w : World OrderStore) :
  let st := (OrderService.getOrders E (entry E req route ps 200 NoBody w)).2 in
  well_traced E req w st
  ∧ (  store (world st) = store w
  ∧ outbound (world st) = outbound w
  ∧ writer_status (gin st) = 200%Z
  ∧ writer_body (gin st)
    = JSONBody (JObj [("orders", JArr (json_of_order <$> orders (store w)));
                      ("total", JInt (Z.of_nat (length (orders (store w)))))])
  ∧ span_name <$> drop 1 (spans st) = ["simulate-database_query"]
  ∧ registry (world st)
    = OrderService.orderOperations "get_orders" "success" :: registry w).
Proof.
  cbv zeta. unfold well_traced. open_entry req w; run_entry; (split; [prove_traced|]); repeat split; reflexivity.
Qed.

Lemma getOrderByID_run (E : Env) (req : Request) (route : string)
    (ps : list (string * string)) (w : World OrderStore) :
  let st := (OrderService.getOrderByID E (entry E req route ps 200 NoBody w)).2 in
  well_traced E req w st
  ∧ (  store (world st) = store w
  ∧ outbound (world st) = outbound w
  ∧ match Atoi (lookup_param "id" ps) with
    | None =>
        writer_status (gin st) = 400%Z
        ∧ writer_body (gin st) = JSONBody (JObj [("error", JStr "Invalid order ID")])
        ∧ drop 1 (spans st) = []
        ∧ registry (world st)
          = OrderService.orderOperations "get_order" "error" :: registry w
    | Some n =>
        match List.find (λ o, (order_ID o =? n)%Z) (orders (store w)) with
        | Some o =>
            writer_status (gin st) = 200%Z
            ∧ writer_body (gin st) = JSONBody (json_of_order o)
            ∧ span_name <$> drop 1 (spans st) = ["simulate-database_query"]
            ∧ registry (world st)
              = OrderService.orderOperations "get_order" "success" :: registry w
        | None =>
            writer_status (gin st) = 404%Z
            ∧ writer_body (gin st) = JSONBody (JObj [("error", JStr "Order not found")])
            ∧ span_name <$> drop 1 (spans st) = ["simulate-database_query"]
            ∧ registry (world st)
              = OrderService.orderOperations "get_order" "not_found" :: registry w
        end
    end).
Proof.
  cbv zeta. unfold well_traced.
  destruct (Atoi (lookup_param "id" ps)) as [n|] eqn:Hatoi;
    [destruct (List.find (λ o, (order_ID o =? n)%Z) (orders (store w))) as [o|] eqn:Hfind|];
    open_entry req w; run_entry; (split; [prove_traced|]); repeat split; reflexivity.
Qed.

Lemma createOrder_run (E : Env) (req : Request) (route : string)
    (ps : list (string * string)) (w : World OrderStore) :
  let st := (OrderService.createOrder E (entry E req route ps 200 NoBody w)).2 in
  well_traced E req w st
  ∧ (  match bind_order_req E (payload req) with
  | inl err =>
      writer_status (gin st) = 400%Z
      ∧ writer_body (gin st) = JSONBody (JObj [("error", JStr err)])
      ∧ store (world st) = store w
      ∧ outbound (world st) = outbound w
      ∧ drop 1 (spans st) = []
      ∧ registry (world st)
        = OrderService.orderOperations "create_order" "error" :: registry w
  | inr r =>
      match call_outcome E (length (outbound w)) (user_url E (req_UserID r)) with
      | (_, Some e) =>
          writer_status (gin st) = 400%Z
          ∧ writer_body (gin st) = JSONBody (JObj [("error", JStr "用户验证失败")])
          ∧ store (world st) = store w
          ∧ span_name <$> drop 1 (spans st) = ["call-user-service"]
          ∧ registry (world st)
            = OrderService.orderOperations "create_order" "error" :: registry w
      | (user, None) =>
          ∃ t hdr,
            let o := mkOrder (nextOrderID (store w)) (req_UserID r) (req_Product r)
                             (req_Amount r) "processing" t in
            writer_status (gin st) = 201%Z
            ∧ writer_body (gin st)
              = JSONBody (JObj [("order", json_of_order o); ("user", json_of_map user)])
            ∧ store (world st)
              = mkOrderStore (orders (store w) ++ [o]) (incr (nextOrderID (store w)))
            ∧ outbound (world st)
              = mkCall (user_url E (req_UserID r)) hdr :: outbound w
            ∧ span_name <$> drop 1 (spans st)
              = ["call-user-service"; "simulate-order_processing"]
            ∧ registry (world st)
              = OrderService.orderOperations "create_order" "success" :: registry w
      end
  end).
Proof.
  cbv zeta. unfold well_traced.
  destruct (bind_order_req E (payload req)) as [err|r] eqn:Hbind.
  - open_entry req w; run_entry; (split; [prove_traced|]); repeat split; reflexivity.
  - unfold call_outcome, user_url.
    destruct (new_request_error E _) as [e0|] eqn:Hnre;
      [|destruct (transport E _ _) as [d e1|d status [e2|bytes]] eqn:Htr;
        [| |destruct (json_unmarshal E bytes) as [e3|user] eqn:Hju]];
      open_entry req w; run_entry; (split; [prove_traced|]); lazy beta iota;
      first [ solve [repeat split; reflexivity]
            | eexists _, _; repeat split; reflexivity ].
Qed.

Lemma incr_succ (z : Z) : (- 2 ^ 63 ≤ z < 2 ^ 63 - 1)%Z → incr z = (z + 1)%Z.
Proof.
  intros Hz. unfold incr.
  rewrite Z.mod_small by lia. lia.
Qed.

Lemma well_numbered_spec (s : OrderStore) :
  well_numbered s = true
  ↔ NoDup (order_ID <$> orders s)
    ∧ Forall (λ o, (order_ID o < nextOrderID s)%Z) (orders s).
Proof.
  unfold well_numbered. rewrite andb_true_iff, bool_decide_eq_true, forallb_forall.
  rewrite Forall_forall.
  split; intros [Hnd Hlt]; (split; [exact Hnd|]); intros o Ho.
  - apply list_elem_of_In in Ho. apply Z.ltb_lt, Hlt, Ho.
  - apply list_elem_of_In in Ho. apply Z.ltb_lt, Hlt, Ho.
Qed.

(** Appending an order numbered [nextOrderID] keeps the numbering. *)
Lemma well_numbered_append (s : OrderStore) (o : Order) :
  well_numbered s = true →
  (- 2 ^ 63 ≤ nextOrderID s < 2 ^ 63 - 1)%Z →
  order_ID o = nextOrderID s →
  well_numbered (mkOrderStore (orders s ++ [o]) (incr (nextOrderID s))) = true.
Proof.
  intros Hw Hz Ho. apply well_numbered_spec in Hw as [Hnd Hlt].
  apply well_numbered_spec. cbn [orders nextOrderID].
  rewrite (incr_succ _ Hz). split.
  - rewrite fmap_app. apply NoDup_app. split; [exact Hnd|]. split.
    + intros x Hx Hx'. cbn in Hx'. apply list_elem_of_singleton in Hx'.
      apply list_elem_of_fmap in Hx as (o' & Heq & Ho').
      pose proof (proj1 (Forall_forall _ _) Hlt o' Ho') as Hlt'. cbn in Hlt'. lia.
    + cbn. apply NoDup_singleton.
  - apply Forall_app. split.
    + eapply Forall_impl; [exact Hlt|]. cbn. intros; lia.
    + constructor; [lia | constructor].
Qed.

(** In a well-numbered store the order appended last is the one found
    under its number. *)
Lemma find_appended (s : OrderStore) (o : Order) :
  well_numbered s = true →
  order_ID o = nextOrderID s →
  List.find (λ x, (order_ID x =? nextOrderID s)%Z) (orders s ++ [o]) = Some o.
Proof.
  intros Hw Ho. apply well_numbered_spec in Hw as [_ Hlt].
  induction (orders s) as [|x l IH]; cbn.
  - now rewrite Ho, Z.eqb_refl.
  - apply Forall_cons in Hlt as [Hx Hl].
    destruct (Z.eqb_spec (order_ID x) (nextOrderID s)) as [Heq|_]; [lia|].
    exact (IH Hl).
Qed.

Lemma find_first {A} (p : A → bool) (pre post : list A) (x : A) :
  Forall (λ y, p y = false) pre → p x = true →
  List.find p (pre ++ x :: post) = Some x.
Proof.
  intros Hpre Hx. induction Hpre as [|y pre Hy _ IH]; cbn.
  - rewrite Hx. reflexivity.
  - rewrite Hy. exact IH.
Qed.

Lemma find_none {A} (p : A → bool) (l : list A) :
  Forall (λ y, p y = false) l → List.find p l = None.
Proof.
  intros Hl. induction Hl as [|y l Hy _ IH]; cbn; [reflexivity|]. rewrite Hy. exact IH.
Qed.

(** X9. [GET /orders/:id] of the order service leaves the
    store as it is; it answers 400 when [strconv.Atoi] rejects the id, 404
    when no order has that id, and otherwise 200 with the first order of the
    list that has it. *)
Theorem getOrderByID_first_match (E : Env) (hdr : gmap string string) (body : string)
    (w : World OrderStore) (id : string) :
  segment id = true → id ≠ "" →
  let res := serve OrderService.service E (mkRequest "GET" ("/orders/" +:+ id) hdr body) w in
  store (final_world res) = store w
  ∧ (Atoi id = None →
     response res = mkResponse 400 (JSONBody (JObj [("error", JStr "Invalid order ID")])))
  ∧ (∀ n, Atoi id = Some n →
          Forall (λ o, order_ID o ≠ n) (orders (store w)) →
          response res = mkResponse 404 (JSONBody (JObj [("error", JStr "Order not found")])))
  ∧ (∀ n pre o post,
        Atoi id = Some n →
        orders (store w) = pre ++ o :: post →
        Forall (λ x, order_ID x ≠ n) pre → order_ID o = n →
        response res = mkResponse 200 (JSONBody (json_of_order o))).
Proof.
  intros Hseg Hne res. subst res.
  pose proof (serve_entry OrderService.service E
                (mkRequest "GET" ("/orders/" +:+ id) hdr body)
                w _ _ (route_getOrderByID id Hseg Hne)) as H.
  framed_by H. rewrite Hresp, Hstore. cbn [route_handler route_pattern].
  pose proof (getOrderByID_run E (mkRequest "GET" ("/orders/" +:+ id) hdr body)
                "/orders/:id" [("id", id)] w) as Hrun.
  cbv zeta in Hrun. change (lookup_param "id" [("id", id)]) with id in Hrun.
  destruct Hrun as (_ & Hs & _ & Hrun). split; [exact Hs|].
  split; [|split].
  - intros Hatoi. rewrite Hatoi in Hrun. destruct Hrun as (H1 & H2 & _).
    rewrite H1, H2; repeat split; reflexivity.
  - intros n Hatoi Hall. rewrite Hatoi in Hrun.
    rewrite find_none in Hrun.
    + destruct Hrun as (H1 & H2 & _). rewrite H1, H2; repeat split; reflexivity.
    + eapply Forall_impl; [exact Hall|]. cbn. intros o Ho. now apply Z.eqb_neq.
  - intros n pre o post Hatoi Heq Hpre Ho. rewrite Hatoi, Heq in Hrun.
    rewrite (find_first _ pre post o) in Hrun.
    + destruct Hrun as (H1 & H2 & _). rewrite H1, H2; repeat split; reflexivity.
    + eapply Forall_impl; [exact Hpre|]. cbn. intros x Hx. now apply Z.eqb_neq.
    + now apply Z.eqb_eq.
Qed.

Lemma getOrderByID_first_match_witness :
  store (final_world (serve OrderService.service (Demo.env 0 Demo.unreachable)
                            Scenario.get_order_1 (Demo.world OrderService.initial)))
  = OrderService.initial.
Proof.
  destruct (getOrderByID_first_match (Demo.env 0 Demo.unreachable) ∅ ""
              (Demo.world OrderService.initial) "1") as (H & _);
    [reflexivity | discriminate | exact H].
Defined.

(** X10. [POST /orders] with a body the binder refuses
    answers 400 with the binder's message; the store is unchanged, the user
    service is not called and no child span is started. *)
Theorem createOrder_rejects (E : Env) (hdr : gmap string string) (body : string)
    (w : World OrderStore) (err : string) :
  bind_order_req E body = inl err →
  let res := serve OrderService.service E (mkRequest "POST" "/orders" hdr body) w in
  response res = mkResponse 400 (JSONBody (JObj [("error", JStr err)]))
  ∧ store (final_world res) = store w
  ∧ outbound (final_world res) = outbound w
  ∧ drop 1 (request_spans res) = [].
Proof.
  intros Hbind res. subst res.
  pose proof (serve_entry OrderService.service E (mkRequest "POST" "/orders" hdr body)
                w (mkRoute "POST" "/orders" OrderService.createOrder) [] eq_refl) as H.
  framed_by H. rewrite Hresp, Hstore, Hout, Hspans. cbn [route_handler route_pattern].
  pose proof (createOrder_run E (mkRequest "POST" "/orders" hdr body) "/orders" [] w)
    as Hrun.
  cbv zeta in Hrun. cbn [payload] in Hrun. rewrite Hbind in Hrun.
  destruct Hrun as (_ & H1 & H2 & H3 & H4 & H5 & _).
  rewrite H1, H2, H3, H4, H5; repeat split; reflexivity.
Qed.

Lemma createOrder_rejects_witness :
  response (serve OrderService.service (Demo.env 0 Demo.unreachable)
                  (mkRequest "POST" "/orders" ∅ "") (Demo.world OrderService.initial))
  = mkResponse 400 (JSONBody (JObj [("error", JStr "EOF")])).
Proof.
  destruct (createOrder_rejects (Demo.env 0 Demo.unreachable) ∅ ""
              (Demo.world OrderService.initial) "EOF") as (H & _);
    [reflexivity | exact H].
Defined.

(** X11. [POST /orders] with a body that binds, when the call
    to the user service returns no error, answers 201 with the new order and
    the user service's answer; the order gets [nextOrderID] as id and status
    [processing], is appended to the orders, and [nextOrderID] is
    incremented; exactly one call went out, to the user's URL. *)
Theorem createOrder_appends (E : Env) (hdr : gmap string string) (body : string)
    (w : World OrderStore) (r : OrderReq) (user : option (list (string * JSON))) :
  bind_order_req E body = inr r →
  call_outcome E (length (outbound w)) (user_url E (req_UserID r)) = (user, None) →
  let res := serve OrderService.service E (mkRequest "POST" "/orders" hdr body) w in
  ∃ t carrier,
    let o := mkOrder (nextOrderID (store w)) (req_UserID r) (req_Product r)
                     (req_Amount r) "processing" t in
    response res
    = mkResponse 201 (JSONBody (JObj [("order", json_of_order o);
                                      ("user", json_of_map user)]))
    ∧ store (final_world res)
      = mkOrderStore (orders (store w) ++ [o]) (incr (nextOrderID (store w)))
    ∧ outbound (final_world res)
      = mkCall (user_url E (req_UserID r)) carrier :: outbound w.
Proof.
  intros Hbind Hcall res. subst res.
  pose proof (serve_entry OrderService.service E (mkRequest "POST" "/orders" hdr body)
                w (mkRoute "POST" "/orders" OrderService.createOrder) [] eq_refl) as H.
  framed_by H. rewrite Hresp, Hstore, Hout. cbn [route_handler route_pattern].
  pose proof (createOrder_run E (mkRequest "POST" "/orders" hdr body) "/orders" [] w)
    as Hrun.
  cbv zeta in Hrun. cbn [payload] in Hrun. rewrite Hbind, Hcall in Hrun.
  destruct Hrun as (_ & t & carrier & H1 & H2 & H3 & H4 & _).
  exists t, carrier. rewrite H1, H2, H3, H4; repeat split; reflexivity.
Qed.

Lemma createOrder_appends_witness :
  ∃ t carrier,
    store (final_world (serve OrderService.service (Demo.env 0 Scenario.all_up)
                              Demo.order_for_99 (Demo.world OrderService.initial)))
    = mkOrderStore (orders OrderService.initial
                    ++ [mkOrder 3 99 "book" 10 "processing" t]) (incr 3)
    ∧ outbound (final_world (serve OrderService.service (Demo.env 0 Scenario.all_up)
                                   Demo.order_for_99 (Demo.world OrderService.initial)))
      = [mkCall "http://localhost:8081/users/99" carrier].
Proof.
  destruct (createOrder_appends (Demo.env 0 Scenario.all_up) ∅ "order for 99"
              (Demo.world OrderService.initial) (mkOrderReq 99 "book" 10)
              (Some [("id", JStr "O123")]))
    as (t & carrier & _ & H1 & H2); [reflexivity | reflexivity |].
  exists t, carrier. split; [exact H1 | exact H2].
Defined.

(** X12. When the order ids are pairwise distinct and
    below [nextOrderID], and [nextOrderID] is not the last [int], they are so
    after any request; the orders only grow at the end and [nextOrderID]
    never decreases. *)
Theorem orders_stay_well_numbered (E : Env) (req : Request) (w : World OrderStore) :
  well_numbered (store w) = true →
  (- 2 ^ 63 ≤ nextOrderID (store w) < 2 ^ 63 - 1)%Z →
  let res := serve OrderService.service E req w in
  well_numbered (store (final_world res)) = true
  ∧ orders (store w) `prefix_of` orders (store (final_world res))
  ∧ (nextOrderID (store w) ≤ nextOrderID (store (final_world res)))%Z.
Proof.
  intros Hw Hz res. subst res.
  assert (Hsame : ∀ s : OrderStore,
             s = store w →
             well_numbered s = true ∧ orders (store w) `prefix_of` orders s
             ∧ (nextOrderID (store w) ≤ nextOrderID s)%Z).
  { intros s ->. split; [exact Hw|]. split; [reflexivity | lia]. }
  destruct (dispatch (routes OrderService.service) (method req) (path req))
    as [[r ps]|] eqn:Hd.
  - pose proof (serve_entry OrderService.service E req w r ps Hd) as H.
    framed_by H. rewrite Hstore.
    apply dispatch_Some in Hd. unfold OrderService.service, routes in Hd.
    repeat (apply elem_of_cons in Hd as [->|Hd]); cbn [route_handler route_pattern].
    + apply Hsame, health_run.
    + apply Hsame, metrics_run.
    + apply Hsame, getOrders_run.
    + pose proof (createOrder_run E req "/orders" ps w) as Hrun. cbv zeta in Hrun.
      destruct Hrun as (_ & Hrun).
      destruct (bind_order_req E (payload req)) as [err|r].
      * apply Hsame. now destruct Hrun as (_ & _ & -> & _).
      * destruct (call_outcome E _ _) as [user [e|]].
        -- apply Hsame. now destruct Hrun as (_ & _ & -> & _).
        -- destruct Hrun as (t & carrier & _ & _ & -> & _). cbn [orders nextOrderID].
           split; [now apply well_numbered_append|].
           split; [now apply prefix_app_r|].
           rewrite (incr_succ _ Hz). lia.
    + apply Hsame, getOrderByID_run.
    + now apply elem_of_nil in Hd.
  - pose proof (serve_unrouted OrderService.service E req w Hd) as H.
    framed_by H. rewrite Hstore. now apply Hsame.
Qed.

Lemma orders_stay_well_numbered_witness :
  well_numbered
    (store (final_world (serve OrderService.service (Demo.env 0 Scenario.all_up)
                               Demo.order_for_99 (Demo.world OrderService.initial))))
  = true.
Proof.
  destruct (orders_stay_well_numbered (Demo.env 0 Scenario.all_up) Demo.order_for_99
              (Demo.world OrderService.initial)) as (H & _);
    [vm_compute; reflexivity | cbn; lia | exact H].
Defined.

(** X13. An order just created is found: in a well-numbered
    store, a [GET /orders/:id] for the id the creation used, served on the
    state the creation left, answers 200 with the order the creation
    answered. *)
Theorem created_order_is_found (E E' : Env) (hdr hdr' : gmap string string)
    (body body' : string) (w : World OrderStore) (r : OrderReq)
    (user : option (list (string * JSON))) (id : string) :
  well_numbered (store w) = true →
  bind_order_req E body = inr r →
  call_outcome E (length (outbound w)) (user_url E (req_UserID r)) = (user, None) →
  segment id = true → id ≠ "" →
  Atoi id = Some (nextOrderID (store w)) →
  let created := serve OrderService.service E (mkRequest "POST" "/orders" hdr body) w in
  let found := serve OrderService.service E'
                     (mkRequest "GET" ("/orders/" +:+ id) hdr' body')
                     (final_world created) in
  ∃ order,
    response created
    = mkResponse 201 (JSONBody (JObj [("order", order); ("user", json_of_map user)]))
    ∧ response found = mkResponse 200 (JSONBody order).
Proof.
  intros Hw Hbind Hcall Hseg Hne Hatoi created found. subst created found.
  pose proof (serve_entry OrderService.service E (mkRequest "POST" "/orders" hdr body)
                w (mkRoute "POST" "/orders" OrderService.createOrder) [] eq_refl) as H.
  framed_by H. cbn [route_handler route_pattern] in *.
  pose proof (createOrder_run E (mkRequest "POST" "/orders" hdr body) "/orders" [] w)
    as Hrun.
  cbv zeta in Hrun. cbn [payload] in Hrun. rewrite Hbind, Hcall in Hrun.
  destruct Hrun as (_ & t & carrier & H1 & H2 & H3 & _).
  rewrite H3 in Hstore. rename Hstore into Hcreated.
  eexists. rewrite Hresp, H1, H2. split; [reflexivity|].
  clear Hresp Hout Hclock Hspans Herr Hreg Hlog H1 H2 H3.
  set (w1 := final_world (serve OrderService.service E
                                (mkRequest "POST" "/orders" hdr body) w)) in *.
  pose proof (serve_entry OrderService.service E'
                (mkRequest "GET" ("/orders/" +:+ id) hdr' body')
                w1 _ _ (route_getOrderByID id Hseg Hne)) as H.
  framed_by H. rewrite Hresp. cbn [route_handler route_pattern].
  pose proof (getOrderByID_run E' (mkRequest "GET" ("/orders/" +:+ id) hdr' body')
                "/orders/:id" [("id", id)] w1) as Hrun.
  cbv zeta in Hrun. change (lookup_param "id" [("id", id)]) with id in Hrun.
  rewrite Hatoi, Hcreated in Hrun. cbn [orders] in Hrun.
  rewrite (find_appended (store w)) in Hrun by (exact Hw || reflexivity).
  destruct Hrun as (_ & _ & _ & H1 & H2 & _). rewrite H1, H2; repeat split; reflexivity.
Qed.

Lemma created_order_is_found_witness :
  let created := serve OrderService.service (Demo.env 0 Scenario.all_up)
                       Demo.order_for_99 (Demo.world OrderService.initial) in
  resp_status
    (response (serve OrderService.service (Demo.env 0 Demo.unreachable)
                     (mkRequest "GET" "/orders/3" ∅ "") (final_world created)))
  = 200%Z.
Proof.
  destruct (created_order_is_found (Demo.env 0 Scenario.all_up)
              (Demo.env 0 Demo.unreachable) ∅ ∅ "order for 99" ""
              (Demo.world OrderService.initial) (mkOrderReq 99 "book" 10)
              (Some [("id", JStr "O123")]) "3") as (order & _ & H);
    [vm_compute; reflexivity | reflexivity | reflexivity | reflexivity | discriminate
    | reflexivity |].
  exact (f_equal resp_status H).
Defined.

(** X14. [GET /orders] answers 200 with the stored
    orders in their order and their number as [total]; it changes nothing in
    the store and calls no other service. *)
Theorem getOrders_lists_every_order (E : Env) (hdr : gmap string string) (body : string)
    (w : World OrderStore) :
  let res := serve OrderService.service E (mkRequest "GET" "/orders" hdr body) w in
  response res
  = mkResponse 200 (JSONBody (JObj [("orders", JArr (json_of_order <$> orders (store w)));
                                    ("total", JInt (Z.of_nat (length (orders (store w)))))]))
  ∧ store (final_world res) = store w
  ∧ outbound (final_world res) = outbound w.
Proof.
  intros res. subst res.
  pose proof (serve_entry OrderService.service E (mkRequest "GET" "/orders" hdr body)
                w (mkRoute "GET" "/orders" OrderService.getOrders) [] eq_refl) as H.
  framed_by H. rewrite Hresp, Hstore, Hout. cbn [route_handler route_pattern].
  destruct (getOrders_run E (mkRequest "GET" "/orders" hdr body) "/orders" [] w)
    as (_ & Hs & Ho & H1 & H2 & _).
  rewrite H1, H2, Hs, Ho; repeat split; reflexivity.
Qed.

(** ** notification-service *)

Lemma sendEmail_run (E : Env) (req : Request) (route : string)
    (ps : list (string * string)) (w : World Z) :
  let st := (NotificationService.sendEmail E (entry E req route ps 200 NoBody w)).2 in
  well_traced E req w st
  ∧ (  writer_status (gin st) = 200%Z
  ∧ writer_body (gin st)
    = JSONBody (json_of_notification
                  (mkNotification (store w) "email" "邮件通知已发送" "sent"
                                  (format_rfc3339 E (clock (world st)))))
  ∧ store (world st) = incr (store w)
  ∧ clock (world st)
    = (clock w + (Z.of_N (rand_src E (rand_pos w)) mod 1000 + 500) * millisecond)%Z
  ∧ outbound (world st) = outbound w
  ∧ span_name <$> drop 1 (spans st) = ["send-email-notification"]
  ∧ registry (world st)
    = NotificationService.notificationsSent
        "email" (if fixed_send_fails E w then "failed" else "success")
      :: registry w).
Proof.
  cbv zeta. unfold well_traced. unfold fixed_send_fails.
  destruct (NotificationService.Qltb _ _) eqn:Hfail;
    open_entry req w; run_entry; (split; [prove_traced|]); repeat split; reflexivity.
Qed.

Lemma sendSMS_run (E : Env) (req : Request) (route : string)
    (ps : list (string * string)) (w : World Z) :
  let st := (NotificationService.sendSMS E (entry E req route ps 200 NoBody w)).2 in
  well_traced E req w st
  ∧ (  writer_status (gin st) = 200%Z
  ∧ writer_body (gin st)
    = JSONBody (json_of_notification
                  (mkNotification (store w) "sms" "短信通知已发送" "sent"
                                  (format_rfc3339 E (clock (world st)))))
  ∧ store (world st) = incr (store w)
  ∧ clock (world st)
    = (clock w + (Z.of_N (rand_src E (rand_pos w)) mod 300 + 100) * millisecond)%Z
  ∧ outbound (world st) = outbound w
  ∧ span_name <$> drop 1 (spans st) = ["send-sms-notification"]
  ∧ registry (world st)
    = NotificationService.notificationsSent
        "sms" (if fixed_send_fails E w then "failed" else "success")
      :: registry w).
Proof.
  cbv zeta. unfold well_traced. unfold fixed_send_fails.
  destruct (NotificationService.Qltb _ _) eqn:Hfail;
    open_entry req w; run_entry; (split; [prove_traced|]); repeat split; reflexivity.
Qed.

Lemma sendNotification_run (E : Env) (req : Request) (route : string)
    (ps : list (string * string)) (w : World Z) :
  let st := (NotificationService.sendNotification E (entry E req route ps 200 NoBody w)).2 in
  well_traced E req w st
  ∧ store (world st) = incr (store w)
  ∧ outbound (world st) = outbound w
  ∧ ∃ ms, (50 ≤ ms < 1500)%Z ∧ clock (world st) = (clock w + ms * millisecond)%Z.
Proof.
  cbv zeta. unfold well_traced.
  destruct (NotificationService.notificationTypes
              !! Z.to_nat (Z.of_N (rand_src E (rand_pos w))
                           mod Z.of_nat (length NotificationService.notificationTypes)))
    as [t|] eqn:Hty.
  - apply list_elem_of_lookup_2 in Hty as Hin.
    destruct (send_fails E w) eqn:Hfail; unfold send_fails in Hfail;
      (repeat (apply elem_of_cons in Hin as [->|Hin]); [| | |now apply elem_of_nil in Hin]);
      open_entry req w; run_entry; (split; [prove_traced|]);
      (split; [reflexivity|]; split; [reflexivity|]);
      eexists; (split; [|reflexivity]);
      match goal with
      | |- (_ ≤ ?x `mod` ?n + _ < _)%Z =>
          pose proof (Z.mod_pos_bound x n ltac:(lia)); lia
      end.
  - apply lookup_ge_None in Hty.
    pose proof (Z.mod_pos_bound (Z.of_N (rand_src E (rand_pos w)))
                  (Z.of_nat (length NotificationService.notificationTypes))
                  ltac:(cbn; lia)) as Hb.
    cbn in Hb, Hty. lia.
Qed.

(** X16. [POST /email] and [POST /sms] of the
    notification service always answer 200 with a notification of their
    type whose id is [nextNotificationID] and whose status is [sent]; the
    notification counter is incremented under that type, with status
    [failed] exactly when the simulated send fails. *)
Theorem email_and_sms_always_sent (E : Env) (hdr : gmap string string) (body : string)
    (w : World Z) :
  let email := serve NotificationService.service E (mkRequest "POST" "/email" hdr body) w in
  let sms := serve NotificationService.service E (mkRequest "POST" "/sms" hdr body) w in
  (∃ t, response email
        = mkResponse 200 (JSONBody (json_of_notification
                                      (mkNotification (store w) "email" "邮件通知已发送"
                                                      "sent" t))))
  ∧ (∃ t, response sms
          = mkResponse 200 (JSONBody (json_of_notification
                                        (mkNotification (store w) "sms" "短信通知已发送"
                                                        "sent" t))))
  ∧ (∃ observation increment,
        registry (final_world email)
        = observation :: increment
          :: NotificationService.notificationsSent
               "email" (if fixed_send_fails E w then "failed" else "success")
          :: registry w)
  ∧ (∃ observation increment,
        registry (final_world sms)
        = observation :: increment
          :: NotificationService.notificationsSent
               "sms" (if fixed_send_fails E w then "failed" else "success")
          :: registry w).
Proof.
  intros email sms. subst email sms.
  pose proof (serve_entry NotificationService.service E (mkRequest "POST" "/email" hdr body)
                w (mkRoute "POST" "/email" NotificationService.sendEmail) [] eq_refl) as H.
  framed_by H. destruct Hreg as (ob & inc & Hreg). rewrite Hresp, Hreg.
  clear Hresp Hstore Hout Hclock Hspans Herr Hreg Hlog.
  pose proof (serve_entry NotificationService.service E (mkRequest "POST" "/sms" hdr body)
                w (mkRoute "POST" "/sms" NotificationService.sendSMS) [] eq_refl) as H.
  framed_by H. destruct Hreg as (ob' & inc' & Hreg). rewrite Hresp, Hreg.
  clear Hresp Hstore Hout Hclock Hspans Herr Hreg Hlog.
  cbn [route_handler route_pattern].
  destruct (sendEmail_run E (mkRequest "POST" "/email" hdr body) "/email" [] w)
    as (_ & H1 & H2 & _ & _ & _ & _ & H3).
  destruct (sendSMS_run E (mkRequest "POST" "/sms" hdr body) "/sms" [] w)
    as (_ & H4 & H5 & _ & _ & _ & _ & H6).
  rewrite H1, H2, H3, H4, H5, H6.
  split; [eexists; reflexivity|]. split; [eexists; reflexivity|].
  split; eexists _, _; reflexivity.
Qed.

(** X17. A request that the notification service routes
    to [/notify], [/email] or [/sms] increments [nextNotificationID] by one;
    no other request changes it. *)
Theorem notification_ids_consumed (E : Env) (req : Request) (w : World Z) :
  let res := serve NotificationService.service E req w in
  store (final_world res)
  = if one_of ["/notify"; "/email"; "/sms"] (route_of NotificationService.service req)
    then incr (store w)
    else store w.
Proof.
  intros res. subst res. unfold route_of.
  destruct (dispatch (routes NotificationService.service) (method req) (path req))
    as [[r ps]|] eqn:Hd.
  - pose proof (serve_entry NotificationService.service E req w r ps Hd) as H.
    framed_by H. rewrite Hstore.
    apply dispatch_Some in Hd. unfold NotificationService.service, routes in Hd.
    repeat (apply elem_of_cons in Hd as [->|Hd]); cbn [route_handler route_pattern].
    + apply health_run.
    + apply metrics_run.
    + apply sendNotification_run.
    + apply sendEmail_run.
    + apply sendSMS_run.
    + now apply elem_of_nil in Hd.
  - pose proof (serve_unrouted NotificationService.service E req w Hd) as H.
    framed_by H. rewrite Hstore. reflexivity.
Qed.

(** The latency observation is the time the clock moved. *)
(** How long the simulated send sleeps, and what its span records. *)
Lemma sendFixed_duration (operation type message : string) (n base : Z) (E : Env)
    (req : Request) (route : string) (ps : list (string * string)) (w : World Z) :
  (type = "email" ∧ n = 1000%Z ∧ base = 500%Z) ∨ (type = "sms" ∧ n = 300%Z ∧ base = 100%Z) →
  let st := (NotificationService.sendFixed operation type message E
               (entry E req route ps 200 NoBody w)).2 in
  let ms := (Z.of_N (rand_src E (rand_pos w)) mod n + base)%Z in
  clock (world st) = (clock w + ms * millisecond)%Z
  ∧ ∃ child, drop 1 (spans st) = [child]
             ∧ ("send_duration_ms", AInt ms) ∈ attributes child.
Proof.
  cbv zeta.
  intros [(-> & -> & ->)|(-> & -> & ->)];
    (destruct (fixed_send_fails E w) eqn:Hfail; unfold fixed_send_fails in Hfail;
     open_entry req w; run_entry;
     (split; [reflexivity|]);
     eexists; (split; [reflexivity|]);
     cbn [attributes]; rewrite Z.div_mul by discriminate; set_solver).
Qed.

Lemma sendNotification_duration (E : Env) (req : Request) (route : string)
    (ps : list (string * string)) (w : World Z) :
  let st := (NotificationService.sendNotification E (entry E req route ps 200 NoBody w)).2 in
  ∃ ms, (50 ≤ ms < 1500)%Z
        ∧ clock (world st) = (clock w + ms * millisecond)%Z
        ∧ ∃ child, drop 1 (spans st) = [child]
                   ∧ ("send_duration_ms", AInt ms) ∈ attributes child.
Proof.
  cbv zeta.
  destruct (NotificationService.notificationTypes
              !! Z.to_nat (Z.of_N (rand_src E (rand_pos w))
                           mod Z.of_nat (length NotificationService.notificationTypes)))
    as [t|] eqn:Hty.
  - apply list_elem_of_lookup_2 in Hty as Hin.
    destruct (send_fails E w) eqn:Hfail; unfold send_fails in Hfail;
      (repeat (apply elem_of_cons in Hin as [->|Hin]); [| | |now apply elem_of_nil in Hin]);
      open_entry req w; run_entry;
      eexists;
      (split;
       [| split; [reflexivity|];
          eexists; (split; [reflexivity|]);
          cbn [attributes]; rewrite Z.div_mul by discriminate; set_solver ]);
      match goal with
      | |- (_ ≤ ?x `mod` ?n + _ < _)%Z =>
          pose proof (Z.mod_pos_bound x n ltac:(lia)); lia
      end.
  - apply lookup_ge_None in Hty.
    pose proof (Z.mod_pos_bound (Z.of_N (rand_src E (rand_pos w)))
                  (Z.of_nat (length NotificationService.notificationTypes))
                  ltac:(cbn; lia)) as Hb.
    cbn in Hb, Hty. lia.
Qed.

(** X18. The simulated send takes from 500 to 1499 ms for
    [POST /email], from 100 to 399 ms for [POST /sms] and from 50 to 1499 ms
    for [GET /notify]: the handler sleeps that long, and the span of the
    send records that number as [send_duration_ms]. *)
Theorem send_time_bounds (E : Env) (hdr : gmap string string) (body : string)
    (w : World Z) :
  (∃ ms, (500 ≤ ms < 1500)%Z
         ∧ send_took NotificationService.service E (mkRequest "POST" "/email" hdr body) w ms)
  ∧ (∃ ms, (100 ≤ ms < 400)%Z
           ∧ send_took NotificationService.service E (mkRequest "POST" "/sms" hdr body) w ms)
  ∧ (∃ ms, (50 ≤ ms < 1500)%Z
           ∧ send_took NotificationService.service E (mkRequest "GET" "/notify" hdr body) w ms).
Proof.
  unfold send_took. cbv zeta.
  split; [|split].
  - eexists. split.
    2: { pose proof (serve_entry NotificationService.service E
                       (mkRequest "POST" "/email" hdr body) w
                       (mkRoute "POST" "/email" NotificationService.sendEmail) [] eq_refl)
           as H.
         framed_by H. rewrite Hclock, Hspans. cbn [route_handler route_pattern].
         apply (sendFixed_duration "send_email" "email" "邮件通知已发送" 1000 500).
         left. repeat split. }
    pose proof (Z.mod_pos_bound (Z.of_N (rand_src E (rand_pos w))) 1000 ltac:(lia)). lia.
  - eexists. split.
    2: { pose proof (serve_entry NotificationService.service E
                       (mkRequest "POST" "/sms" hdr body) w
                       (mkRoute "POST" "/sms" NotificationService.sendSMS) [] eq_refl)
           as H.
         framed_by H. rewrite Hclock, Hspans. cbn [route_handler route_pattern].
         apply (sendFixed_duration "send_sms" "sms" "短信通知已发送" 300 100).
         right. repeat split. }
    pose proof (Z.mod_pos_bound (Z.of_N (rand_src E (rand_pos w))) 300 ltac:(lia)). lia.
  - pose proof (serve_entry NotificationService.service E
                  (mkRequest "GET" "/notify" hdr body) w
                  (mkRoute "GET" "/notify" NotificationService.sendNotification) []
                  eq_refl) as H.
    framed_by H. rewrite Hclock, Hspans. cbn [route_handler route_pattern].
    apply sendNotification_duration.
Qed.

(** ** api-gateway *)

Lemma gateway_getUser_run (E : Env) (req : Request) (route : string)
    (ps : list (string * string)) (w : World unit) :
  let url := env_or E "USER_SERVICE_URL" "http://localhost:8081"
             +:+ "/users/" +:+ lookup_param "id" ps in
  let st := (Gateway.getUser E (entry E req route ps 200 NoBody w)).2 in
  well_traced E req w st
  ∧ (writer_status (gin st), writer_body (gin st))
    = match call_outcome E (length (outbound w)) url with
      | (_, Some e) => (500%Z, JSONBody (Gateway.error_body e))
      | (user, None) => (200%Z, JSONBody (json_of_map user))
      end
  ∧ registry (world st)
    = Gateway.serviceCalls "user-service" (call_status E (length (outbound w)) url)
      :: registry w
  ∧ call_url <$> outbound (world st)
    = match new_request_error E url with
      | Some _ => []
      | None => [url]
      end ++ (call_url <$> outbound w)
  ∧ span_name <$> drop 1 (spans st) = ["call-user-service"].
Proof.
  cbv zeta. unfold well_traced, call_outcome, call_status.
  destruct (new_request_error E _) as [e0|] eqn:Hnre;
    [|destruct (transport E _ _) as [d e1|d status [e2|bytes]] eqn:Htr;
      [| |destruct (json_unmarshal E bytes) as [e3|user] eqn:Hju]];
    try destruct (andb (Z.leb 200 status) (Z.ltb status 300)) eqn:Hcond;
    open_entry req w; run_entry; (split; [prove_traced|]); repeat split; reflexivity.
Qed.

Lemma gateway_getOrders_run (E : Env) (req : Request) (route : string)
    (ps : list (string * string)) (w : World unit) :
  let st := (Gateway.getOrders E (entry E req route ps 200 NoBody w)).2 in
  well_traced E req w st
  ∧ (writer_status (gin st), writer_body (gin st))
    = match call_outcome E (length (outbound w)) (order_url E) with
      | (_, Some e) => (500%Z, JSONBody (Gateway.error_body e))
      | (orders, None) => (200%Z, JSONBody (json_of_map orders))
      end
  ∧ registry (world st)
    = Gateway.serviceCalls "order-service"
                           (call_status E (length (outbound w)) (order_url E))
      :: registry w
  ∧ call_url <$> outbound (world st)
    = match new_request_error E (order_url E) with
      | Some _ => []
      | None => [order_url E]
      end ++ (call_url <$> outbound w)
  ∧ span_name <$> drop 1 (spans st) = ["call-order-service"].
Proof.
  cbv zeta. unfold well_traced, call_outcome, call_status, order_url.
  destruct (new_request_error E _) as [e0|] eqn:Hnre;
    [|destruct (transport E _ _) as [d e1|d status [e2|bytes]] eqn:Htr;
      [| |destruct (json_unmarshal E bytes) as [e3|user] eqn:Hju]];
    try destruct (andb (Z.leb 200 status) (Z.ltb status 300)) eqn:Hcond;
    open_entry req w; run_entry; (split; [prove_traced|]); repeat split; reflexivity.
Qed.

Lemma gateway_postOrders_run (E : Env) (req : Request) (route : string)
    (ps : list (string * string)) (w : World unit) :
  let st := (Gateway.postOrders E (entry E req route ps 200 NoBody w)).2 in
  well_traced E req w st
  ∧ match bind_map E (payload req) with
    | inl err =>
        writer_status (gin st) = 400%Z
        ∧ writer_body (gin st) = JSONBody (Gateway.error_body err)
        ∧ outbound (world st) = outbound w
        ∧ registry (world st) = registry w
        ∧ log_output (world st) = log_output w
        ∧ drop 1 (spans st) = []
    | inr _ =>
        match call_outcome E (length (outbound w)) (order_url E) with
        | (_, Some e) =>
            writer_status (gin st) = 500%Z
            ∧ writer_body (gin st) = JSONBody (Gateway.error_body e)
            ∧ span_name <$> drop 1 (spans st) = ["call-order-service"]
        | (order, None) =>
            let notification :=
              call_outcome E (Datatypes.S (length (outbound w))) (notify_url E) in
            writer_status (gin st) = 200%Z
            ∧ writer_body (gin st)
              = JSONBody (JObj [("order", json_of_map order);
                                ("notification", json_of_map notification.1)])
            ∧ call_url <$> outbound (world st)
              = match new_request_error E (notify_url E) with
                | Some _ => []
                | None => [notify_url E]
                end ++ order_url E :: (call_url <$> outbound w)
            ∧ span_name <$> drop 1 (spans st)
              = ["call-order-service"; "call-notification-service"]
            ∧ registry (world st)
              = [Gateway.serviceCalls
                   "notification-service"
                   (call_status E (Datatypes.S (length (outbound w))) (notify_url E));
                 Gateway.serviceCalls
                   "order-service" (call_status E (length (outbound w)) (order_url E))]
                ++ registry w
            ∧ log_output (world st)
              = match notification.2 with
                | Some e => [StdLog ("Failed to send notification: " +:+ e)]
                | None => []
                end ++ log_output w
        end
    end.
Proof.
  cbv zeta. unfold well_traced, call_outcome, call_status, order_url, notify_url.
  destruct (bind_map E (payload req)) as [err|r] eqn:Hbind.
  - open_entry req w; run_entry; (split; [prove_traced|]); repeat split; reflexivity.
  - destruct (new_request_error E (_ +:+ "/orders")) as [e0|] eqn:Hnre;
      [|destruct (transport E (length (outbound w)) _)
          as [d e1|d status [e2|bytes]] eqn:Htr;
        [| |destruct (json_unmarshal E bytes) as [e3|order] eqn:Hju]];
      try destruct (andb (Z.leb 200 status) (Z.ltb status 300)) eqn:Hcond.
    1-6: open_entry req w; run_entry; (split; [prove_traced|]); repeat split; reflexivity.
    all: destruct (new_request_error E (_ +:+ "/notify")) as [e0'|] eqn:Hnre';
      [|destruct (transport E (Datatypes.S (length (outbound w))) _)
          as [d' e1'|d' status' [e2'|bytes']] eqn:Htr';
        [| |destruct (json_unmarshal E bytes') as [e3'|notification] eqn:Hju']];
      try destruct (andb (Z.leb 200 status') (Z.ltb status' 300)) eqn:Hcond';
      open_entry req w; run_entry; (split; [prove_traced|]); repeat split; reflexivity.
Qed.

Lemma call_outcome_sent (E : Env) (k : nat) (url : string)
    (result : option (list (string * JSON))) :
  call_outcome E k url = (result, None) → new_request_error E url = None.
Proof.
  unfold call_outcome. destruct (new_request_error E url); [discriminate | reflexivity].
Qed.

(** X19. [GET /api/v1/users/:id] of the gateway
    calls the user service at [/users/] followed by the id as given, and
    answers 500 with the error when the call returns one, and otherwise 200
    with the JSON the user service sent, whatever its status code; the call
    counter is incremented once, by the transport outcome and the class of
    the status code alone. *)
Theorem gateway_getUser_passes_through (E : Env) (hdr : gmap string string)
    (body : string) (w : World unit) (id : string) :
  segment id = true → id ≠ "" →
  let url := env_or E "USER_SERVICE_URL" "http://localhost:8081" +:+ "/users/" +:+ id in
  let res := serve Gateway.service E
                   (mkRequest "GET" ("/api/v1/users/" +:+ id) hdr body) w in
  response res
  = match call_outcome E (length (outbound w)) url with
    | (_, Some e) => mkResponse 500 (JSONBody (JObj [("error", JStr e)]))
    | (user, None) => mkResponse 200 (JSONBody (json_of_map user))
    end
  ∧ call_url <$> outbound (final_world res)
    = match new_request_error E url with
      | Some _ => []
      | None => [url]
      end ++ (call_url <$> outbound w)
  ∧ ∃ observation increment,
      registry (final_world res)
      = observation :: increment
        :: Gateway.serviceCalls "user-service" (call_status E (length (outbound w)) url)
        :: registry w.
Proof.
  intros Hseg Hne url res. subst url res.
  pose proof (serve_entry Gateway.service E
                (mkRequest "GET" ("/api/v1/users/" +:+ id) hdr body)
                w _ _ (route_gateway_getUser id Hseg Hne)) as H.
  framed_by H. destruct Hreg as (ob & inc & Hreg). rewrite Hresp, Hout, Hreg.
  cbn [route_handler route_pattern].
  pose proof (gateway_getUser_run E (mkRequest "GET" ("/api/v1/users/" +:+ id) hdr body)
                "/api/v1/users/:id" [("id", id)] w) as Hrun.
  cbv zeta in Hrun. change (lookup_param "id" [("id", id)]) with id in Hrun.
  destruct Hrun as (_ & H1 & H2 & H3 & _).
  rewrite H2, H3. split; [|split; [reflexivity | eexists _, _; reflexivity]].
  revert H1. destruct (call_outcome E _ _) as [user [e|]]; intros [= -> ->]; reflexivity.
Qed.

Lemma gateway_getUser_passes_through_witness :
  response (serve Gateway.service (Demo.env 0 Demo.user_not_found)
                  Scenario.gateway_get_user_1 (Demo.world tt))
  = mkResponse 200 (JSONBody (JObj [("error", JStr "User not found")])).
Proof.
  destruct (gateway_getUser_passes_through (Demo.env 0 Demo.user_not_found) ∅ ""
              (Demo.world tt) "1") as (H & _);
    [reflexivity | discriminate |].
  etransitivity; [exact H|]. vm_compute. reflexivity.
Defined.

(** The user service answers 404 with a JSON error body; the gateway answers
    200 with that body and counts the call under [error]. *)
Example gateway_answers_200_for_unknown_user :
  let E := Demo.env 0 Demo.user_not_found in
  let res := serve Gateway.service E (mkRequest "GET" "/api/v1/users/99" ∅ "")
                   (Demo.world tt) in
  response res = mkResponse 200 (JSONBody (JObj [("error", JStr "User not found")]))
  ∧ registry (final_world res) !! 2%nat
    = Some (Gateway.serviceCalls "user-service" "error").
Proof. vm_compute. split; reflexivity. Qed.

(** X20. [GET /api/v1/orders] of the gateway
    calls the order service at [/orders], and answers 500 with the error
    when the call returns one, and otherwise 200 with the JSON the order
    service sent; the call counter is incremented once, by the transport
    outcome and the class of the status code alone. *)
Theorem gateway_getOrders_passes_through (E : Env) (hdr : gmap string string)
    (body : string) (w : World unit) :
  let res := serve Gateway.service E (mkRequest "GET" "/api/v1/orders" hdr body) w in
  response res
  = match call_outcome E (length (outbound w)) (order_url E) with
    | (_, Some e) => mkResponse 500 (JSONBody (JObj [("error", JStr e)]))
    | (orders, None) => mkResponse 200 (JSONBody (json_of_map orders))
    end
  ∧ call_url <$> outbound (final_world res)
    = match new_request_error E (order_url E) with
      | Some _ => []
      | None => [order_url E]
      end ++ (call_url <$> outbound w)
  ∧ ∃ observation increment,
      registry (final_world res)
      = observation :: increment
        :: Gateway.serviceCalls "order-service"
                                (call_status E (length (outbound w)) (order_url E))
        :: registry w.
Proof.
  intros res. subst res.
  pose proof (serve_entry Gateway.service E (mkRequest "GET" "/api/v1/orders" hdr body)
                w (mkRoute "GET" "/api/v1/orders" Gateway.getOrders) [] eq_refl) as H.
  framed_by H. destruct Hreg as (ob & inc & Hreg). rewrite Hresp, Hout, Hreg.
  cbn [route_handler route_pattern].
  destruct (gateway_getOrders_run E (mkRequest "GET" "/api/v1/orders" hdr body)
              "/api/v1/orders" [] w) as (_ & H1 & H2 & H3 & _).
  rewrite H2, H3. split; [|split; [reflexivity | eexists _, _; reflexivity]].
  revert H1. destruct (call_outcome E _ _) as [orders [e|]]; intros [= -> ->]; reflexivity.
Qed.

(** X21. [POST /api/v1/orders] of the gateway, when
    both calls return no error, answers 200 with the order service's answer
    under [order] and the notification service's under [notification]; the
    order service is called first, then the notification service, one span
    each, and nothing is logged besides the access-log line. *)
Theorem create_order_both_hops_succeed (E : Env) (hdr : gmap string string)
    (body : string) (w : World unit)
    (orderReq order notification : option (list (string * JSON))) :
  bind_map E body = inr orderReq →
  call_outcome E (length (outbound w)) (order_url E) = (order, None) →
  call_outcome E (Datatypes.S (length (outbound w))) (notify_url E) = (notification, None) →
  let res := serve Gateway.service E (mkRequest "POST" "/api/v1/orders" hdr body) w in
  response res
  = mkResponse 200 (JSONBody (JObj [("order", json_of_map order);
                                    ("notification", json_of_map notification)]))
  ∧ call_url <$> outbound (final_world res)
    = notify_url E :: order_url E :: (call_url <$> outbound w)
  ∧ span_name <$> drop 1 (request_spans res)
    = ["call-order-service"; "call-notification-service"]
  ∧ ∃ access, log_output (final_world res) = access :: log_output w.
Proof.
  intros Hbind Horder Hnotify res. subst res.
  pose proof (serve_entry Gateway.service E (mkRequest "POST" "/api/v1/orders" hdr body)
                w (mkRoute "POST" "/api/v1/orders" Gateway.postOrders) [] eq_refl) as H.
  framed_by H. destruct Hlog as (access & Hlog). rewrite Hresp, Hout, Hspans, Hlog.
  cbn [route_handler route_pattern].
  pose proof (gateway_postOrders_run E (mkRequest "POST" "/api/v1/orders" hdr body)
                "/api/v1/orders" [] w) as Hrun.
  cbv zeta in Hrun. cbn [payload] in Hrun.
  rewrite Hbind, Horder, Hnotify, (call_outcome_sent _ _ _ _ Hnotify) in Hrun.
  destruct Hrun as (_ & H1 & H2 & H3 & H4 & _ & H5).
  rewrite H1, H2, H3, H4, H5. repeat split. eexists. reflexivity.
Qed.

Lemma create_order_both_hops_succeed_witness :
  response (serve Gateway.service (Demo.env 0 Scenario.all_up) Demo.create_order
                  (Demo.world tt))
  = mkResponse 200 (JSONBody (JObj [("order", JObj [("id", JStr "O123")]);
                                    ("notification", JObj [("id", JStr "O123")])])).
Proof.
  destruct (create_order_both_hops_succeed (Demo.env 0 Scenario.all_up) Demo.traced "{}"
              (Demo.world tt) (Some []) (Some [("id", JStr "O123")])
              (Some [("id", JStr "O123")])) as (H & _);
    [reflexivity | reflexivity | reflexivity | exact H].
Defined.

(** X22. [POST /api/v1/orders] of the gateway
    with a body the binder refuses answers 400 with the binder's message,
    calls no service, starts no child span and counts no call. *)
Theorem create_order_rejects_unbound_body (E : Env) (hdr : gmap string string)
    (body : string) (w : World unit) (err : string) :
  bind_map E body = inl err →
  let res := serve Gateway.service E (mkRequest "POST" "/api/v1/orders" hdr body) w in
  response res = mkResponse 400 (JSONBody (JObj [("error", JStr err)]))
  ∧ outbound (final_world res) = outbound w
  ∧ drop 1 (request_spans res) = []
  ∧ ∃ observation increment,
      registry (final_world res) = observation :: increment :: registry w.
Proof.
  intros Hbind res. subst res.
  pose proof (serve_entry Gateway.service E (mkRequest "POST" "/api/v1/orders" hdr body)
                w (mkRoute "POST" "/api/v1/orders" Gateway.postOrders) [] eq_refl) as H.
  framed_by H. destruct Hreg as (ob & inc & Hreg). rewrite Hresp, Hout, Hspans, Hreg.
  cbn [route_handler route_pattern].
  pose proof (gateway_postOrders_run E (mkRequest "POST" "/api/v1/orders" hdr body)
                "/api/v1/orders" [] w) as Hrun.
  cbv zeta in Hrun. cbn [payload] in Hrun. rewrite Hbind in Hrun.
  destruct Hrun as (_ & H1 & H2 & H3 & H4 & _ & H5).
  rewrite H1, H2, H3, H4, H5. repeat split. eexists _, _. reflexivity.
Qed.

Lemma create_order_rejects_unbound_body_witness :
  response (serve Gateway.service Scenario.strict
                  (mkRequest "POST" "/api/v1/orders" Demo.traced "") (Demo.world tt))
  = mkResponse 400 (JSONBody (JObj [("error", JStr "EOF")])).
Proof.
  destruct (create_order_rejects_unbound_body Scenario.strict Demo.traced ""
              (Demo.world tt) "EOF") as (H & _);
    [reflexivity | exact H].
Defined.

(** ** The structured-logging application *)

(** X23. A request to [/hello] of the logging application takes from
    20 to 119 ms and logs two records, the first at [INFO] on receipt; it
    answers 500 with [Internal Server Error] exactly when the second record
    is the [ERROR] one, and 200 with [Hello Gopher!] when it is the [INFO]
    one. *)
Theorem hello_outcome (E : Env) (req : Request) (w : World unit) :
  let res := LoggerApp.serve_hello E req w in
  ∃ t1 t2 attrs1 attrs2 ms,
    (20 ≤ ms < 120)%Z
    ∧ clock (final_world res) = (clock w + ms * millisecond)%Z
    ∧ ((response res
        = mkResponse 500 (TextBody ("Internal Server Error" +:+ LoggerApp.newline))
        ∧ log_output (final_world res)
          = Structured t2 "ERROR" "Failed to process /hello request." attrs2
            :: Structured t1 "INFO" "Received request for /hello." attrs1
            :: log_output w)
       ∨ (response res
          = mkResponse 200 (TextBody ("Hello Gopher!" +:+ LoggerApp.newline))
          ∧ log_output (final_world res)
            = Structured t2 "INFO" "Successfully processed /hello request." attrs2
              :: Structured t1 "INFO" "Received request for /hello." attrs1
              :: log_output w)).
Proof.
  cbv zeta. unfold LoggerApp.serve_hello.
  assert (Hb : ∀ x, (20 ≤ x `mod` 100 + 20 < 120)%Z).
  { intros x. pose proof (Z.mod_pos_bound x 100 ltac:(lia)). lia. }
  destruct (String.eqb (default "" (header req !! "X-Request-Id")) "") eqn:Hrid.
  - destruct (Z.of_N (rand_src E (Datatypes.S (Datatypes.S (Datatypes.S (rand_pos w)))))
              mod 10 <? 2)%Z eqn:Hdraw;
      destruct w as [w_clock w_rand w_ids w_exported w_registry w_log w_outbound w_store];
      destruct req as [req_method req_path req_header req_payload];
      cbn [clock rand_pos log_output header] in *;
      run_entry; cbn [finish snd response final_world clock log_output gin world
                      writer_status writer_body];
      eexists _, _, _, _, _; (split; [apply Hb|]); (split; [reflexivity|]);
      [left | right]; split; reflexivity.
  - destruct (Z.of_N (rand_src E (Datatypes.S (Datatypes.S (rand_pos w)))) mod 10 <? 2)%Z
      eqn:Hdraw;
      destruct w as [w_clock w_rand w_ids w_exported w_registry w_log w_outbound w_store];
      destruct req as [req_method req_path req_header req_payload];
      cbn [clock rand_pos log_output header] in *;
      run_entry; cbn [finish snd response final_world clock log_output gin world
                      writer_status writer_body];
      eexists _, _, _, _, _; (split; [apply Hb|]); (split; [reflexivity|]);
      [left | right]; split; reflexivity.
Qed.

(** ** Spans, exporter and propagation over whole requests *)

Lemma hex_value_lt (c : ascii) (d : N) : Hex.value c = Some d → (d < 16)%N.
Proof.
  unfold Hex.value.
  destruct ((48 <=? N_of_ascii c)%N && (N_of_ascii c <=? 57)%N) eqn:H1.
  - apply andb_prop in H1 as [Ha Hb]. apply N.leb_le in Ha, Hb. intros [= <-]. lia.
  - destruct ((97 <=? N_of_ascii c)%N && (N_of_ascii c <=? 102)%N) eqn:H2; [|discriminate].
    apply andb_prop in H2 as [Ha Hb]. apply N.leb_le in Ha, Hb. intros [= <-]. lia.
Qed.

Lemma hex_parse_bound (s : string) (acc n : N) :
  Hex.parse acc s = Some n → (n < (acc + 1) * 16 ^ N.of_nat (String.length s))%N.
Proof.
  revert acc. induction s as [|c s IH]; intros acc; cbn [Hex.parse String.length].
  - intros [= <-]. cbn. lia.
  - destruct (Hex.value c) as [d|] eqn:Hd; [|discriminate].
    intros Hp. apply IH in Hp. apply hex_value_lt in Hd.
    rewrite Nat2N.inj_succ, N.pow_succ_r'. nia.
Qed.

Lemma split_at_length (n : nat) (s a b : string) :
  Propagation.split_at n s = Some (a, b) → String.length a = n.
Proof.
  revert s a b. induction n as [|n IH]; intros s a b; cbn.
  - intros [= <- _]. reflexivity.
  - destruct s as [|c s]; [discriminate|].
    destruct (Propagation.split_at n s) as [[a' b']|] eqn:Hs; [|discriminate].
    intros [= <- _]. cbn. f_equal. exact (IH _ _ _ Hs).
Qed.

Lemma field_bound (w : nat) (s rest : string) (n : N) :
  Propagation.field w s = Some (n, rest) → (n < 16 ^ N.of_nat w)%N.
Proof.
  unfold Propagation.field.
  destruct (Propagation.split_at w s) as [[a b]|] eqn:Hs; [|discriminate].
  destruct (Hex.parse 0 a) as [x|] eqn:Hp; [|discriminate].
  intros [= <- _]. apply hex_parse_bound in Hp.
  rewrite (split_at_length _ _ _ _ Hs) in Hp. lia.
Qed.

(** Only well-formed contexts are extracted. *)
Lemma Extract_wf (carrier : gmap string string) (sc : SpanContext) :
  Propagation.Extract carrier = Some sc → wf_context sc.
Proof.
  unfold Propagation.Extract.
  destruct (carrier !! Propagation.header_name) as [h|]; [|discriminate].
  cbn [mbind option_bind]. unfold Propagation.decode.
  destruct (Propagation.expect "00-" h) as [r0|]; [|discriminate]. cbn [mbind option_bind].
  destruct (Propagation.field 32 r0) as [[t r1]|] eqn:Ht; [|discriminate].
  cbn [mbind option_bind].
  destruct (Propagation.expect "-" r1) as [r2|]; [|discriminate]. cbn [mbind option_bind].
  destruct (Propagation.field 16 r2) as [[s r3]|] eqn:Hs; [|discriminate].
  cbn [mbind option_bind].
  destruct (Propagation.expect "-" r3) as [r4|]; [|discriminate]. cbn [mbind option_bind].
  destruct (Propagation.field 2 r4) as [[f r5]|]; [|discriminate]. cbn [mbind option_bind].
  destruct (String.eqb r5 ""); [|discriminate]. intros [= <-].
  apply field_bound in Ht, Hs. split; cbn; unfold trace_bits, span_bits.
  - change (2 ^ 128)%N with (16 ^ N.of_nat 32)%N. exact Ht.
  - change (2 ^ 64)%N with (16 ^ N.of_nat 16)%N. exact Hs.
Qed.

Lemma root_context_wf {S} (E : Env) (req : Request) (w : World S) :
  wf_context (root_context E req w).
Proof.
  unfold root_context.
  destruct (Propagation.Extract (header req)) as [sc|] eqn:Hex.
  - apply Extract_wf in Hex as [Ht _]. split; [exact Ht|].
    cbn. apply N.mod_lt, N.pow_nonzero. discriminate.
  - split; cbn; apply N.mod_lt, N.pow_nonzero; discriminate.
Qed.

Lemma Extract_Inject (sc : SpanContext) :
  wf_context sc → Propagation.Extract (Propagation.Inject sc ∅) = Some sc.
Proof.
  intros Hwf. unfold Propagation.Extract, Propagation.Inject.
  rewrite lookup_insert_eq. cbn [mbind option_bind]. exact (decode_encode sc Hwf).
Qed.

(** What the chain adds to a well-traced handler: the root span is closed
    and exported last. *)
Lemma chain_exit {S} (svc : Service S) (E : Env) (h : M S unit) (req : Request)
    (route : string) (ps : list (string * string)) (code : Z) (b : Body) (w : World S) :
  well_traced E req w (h (entry E req route ps code b w)).2 →
  traced_request E req w
    (finish (chain svc E h (mkSt (mkGin req Background route ps code b) [] w))).
Proof.
  unfold well_traced, traced_request, calls_of, entry, root_context, root_name.
  destruct (Propagation.Extract (header req)) as [sc|] eqn:Hex;
    cbn; rewrite Hex; cbn;
    match goal with |- context [h ?st] => destruct (h st) as [u [g2 sp2 w2]] end;
    cbn;
    intros ((root & Hroot & Hopen & Hctx & Hpar) & Hchildren & Hexp
            & calls & Hout & Hcalls);
    (destruct sp2 as [|r rest]; [discriminate|]);
    injection Hroot as ->; cbn in Hchildren, Hexp, Hcalls;
    destruct root as [rc rp rn ra re rs ro]; cbn in Hopen, Hctx, Hpar; subst;
    destruct (500 <=? writer_status g2)%Z; cbn;
    eexists _, rest;
    (split; [reflexivity|]); (split; [reflexivity|]); (split; [reflexivity|]);
    (split; [constructor; [reflexivity|];
             eapply Forall_impl; [exact Hchildren|]; cbn; tauto|]);
    (split; [eapply Forall_impl; [exact Hchildren|]; cbn; tauto|]);
    (split; [now rewrite Hexp|]);
    rewrite Hout, length_app, Nat.add_sub, take_app_length; exact Hcalls.
Qed.

Lemma traced_calls {S} (E : Env) (req : Request) (w : World S) (res : Result S)
    (c : OutboundCall) :
  traced_request E req w res → c ∈ calls_of res w →
  ∃ child,
    child ∈ drop 1 (request_spans res)
    ∧ call_header c = Propagation.Inject (span_context child) ∅
    ∧ Propagation.Extract (call_header c) = Some (span_context child)
    ∧ traceID (span_context child) = trace_of E req w.
Proof.
  intros (root & children & Hspans & _ & _ & _ & Hchildren & _ & Hcalls) Hc.
  cbv zeta in Hchildren.
  destruct (proj1 (Forall_forall _ _) Hcalls c Hc) as (child & Hin & Hhdr).
  destruct (proj1 (Forall_forall _ _) Hchildren child Hin) as (_ & Htrace & Hspan).
  exists child. rewrite Hspans. cbn [drop]. split; [exact Hin|]. split; [exact Hhdr|].
  rewrite <- root_context_trace, <- Htrace. split; [|reflexivity].
  rewrite Hhdr. apply Extract_Inject. split; [|exact Hspan].
  rewrite Htrace. apply root_context_wf.
Qed.

(** Every handler of a service leaves its requests well traced. *)
Lemma served_traced {S} (svc : Service S) (E : Env) (req : Request) (w : World S) :
  (∀ r route ps, r ∈ routes svc →
                 well_traced E req w (route_handler r E (entry E req route ps 200 NoBody w)).2) →
  traced_request E req w (serve svc E req w).
Proof.
  intros Hroutes. unfold serve.
  destruct (dispatch (routes svc) (method req) (path req)) as [[r ps]|] eqn:Hd.
  - apply chain_exit, Hroutes. exact (dispatch_Some _ _ _ _ _ Hd).
  - apply (chain_exit svc E (ret tt)), unrouted_run.
Qed.

Lemma gateway_traced (E : Env) (req : Request) (w : World unit) :
  traced_request E req w (serve Gateway.service E req w).
Proof.
  apply served_traced. intros r route ps Hr. unfold Gateway.service, routes in Hr.
  repeat (apply elem_of_cons in Hr as [->|Hr]); cbn [route_handler].
  - apply health_run.
  - apply metrics_run.
  - apply gateway_getUser_run.
  - apply gateway_postOrders_run.
  - apply gateway_getOrders_run.
  - now apply elem_of_nil in Hr.
Qed.

Lemma user_traced (E : Env) (req : Request) (w : World (gmap Z User)) :
  traced_request E req w (serve UserService.service E req w).
Proof.
  apply served_traced. intros r route ps Hr. unfold UserService.service, routes in Hr.
  repeat (apply elem_of_cons in Hr as [->|Hr]); cbn [route_handler].
  - apply health_run.
  - apply metrics_run.
  - apply getUserByID_run.
  - apply getAllUsers_run.
  - apply createUser_run.
  - now apply elem_of_nil in Hr.
Qed.

Lemma order_traced (E : Env) (req : Request) (w : World OrderStore) :
  traced_request E req w (serve OrderService.service E req w).
Proof.
  apply served_traced. intros r route ps Hr. unfold OrderService.service, routes in Hr.
  repeat (apply elem_of_cons in Hr as [->|Hr]); cbn [route_handler].
  - apply health_run.
  - apply metrics_run.
  - apply getOrders_run.
  - apply createOrder_run.
  - apply getOrderByID_run.
  - now apply elem_of_nil in Hr.
Qed.

Lemma notification_traced (E : Env) (req : Request) (w : World Z) :
  traced_request E req w (serve NotificationService.service E req w).
Proof.
  apply served_traced. intros r route ps Hr.
  unfold NotificationService.service, routes in Hr.
  repeat (apply elem_of_cons in Hr as [->|Hr]); cbn [route_handler].
  - apply health_run.
  - apply metrics_run.
  - apply sendNotification_run.
  - apply sendEmail_run.
  - apply sendSMS_run.
  - now apply elem_of_nil in Hr.
Qed.

Lemma traced_closes {S} (svc : Service S) :
  (∀ E req w, traced_request E req w (serve svc E req w)) → closes_spans svc.
Proof.
  intros Ht E req w. cbv zeta.
  destruct (Ht E req w) as (root & children & Hspans & _ & _ & Hended & _ & Hexp & _).
  rewrite Hspans. split; [exact Hended|]. now exists root, children.
Qed.

(** X24. In each of the four services, when a request
    has been handled every span started for it is ended, and each has been
    handed to the exporter once: the children in the order of their end,
    the root span last. *)
Theorem spans_closed_and_exported :
  closes_spans Gateway.service ∧ closes_spans UserService.service
  ∧ closes_spans OrderService.service ∧ closes_spans NotificationService.service.
Proof.
  split; [|split; [|split]]; apply traced_closes.
  - exact gateway_traced.
  - exact user_traced.
  - exact order_traced.
  - exact notification_traced.
Qed.

Lemma traced_flat {S} (svc : Service S) :
  (∀ E req w, traced_request E req w (serve svc E req w)) → flat_span_tree svc.
Proof.
  intros Ht E req w.
  destruct (Ht E req w) as (root & children & Hspans & Hctx & Hpar & _ & Hch & _).
  exists root, children. split; [exact Hspans|]. split; [exact Hpar|].
  cbv zeta in Hch. rewrite Hctx.
  eapply Forall_impl; [exact Hch|]. cbn. tauto.
Qed.

(** X25. In each of the four services, the spans of a request
    are the root span, whose parent is the span of the inbound header if any,
    and children whose parent is the root span and whose trace is the
    root's. *)
Theorem spans_form_flat_tree :
  flat_span_tree Gateway.service ∧ flat_span_tree UserService.service
  ∧ flat_span_tree OrderService.service ∧ flat_span_tree NotificationService.service.
Proof.
  split; [|split; [|split]]; apply traced_flat.
  - exact gateway_traced.
  - exact user_traced.
  - exact order_traced.
  - exact notification_traced.
Qed.

Lemma traced_injects {S} (svc : Service S) :
  (∀ E req w, traced_request E req w (serve svc E req w)) → injects_context svc.
Proof. intros Ht E req w c. cbv zeta. apply traced_calls, Ht. Qed.

(** X26. In each of the four services, every outbound
    call made while a request is handled carries the header that [Inject]
    writes for a child span of that request; [Extract] reads that span's
    context back from it, and its trace is the request's. *)
Theorem outbound_calls_carry_context :
  injects_context Gateway.service ∧ injects_context OrderService.service
  ∧ injects_context UserService.service ∧ injects_context NotificationService.service.
Proof.
  split; [|split; [|split]]; apply traced_injects.
  - exact gateway_traced.
  - exact order_traced.
  - exact user_traced.
  - exact notification_traced.
Qed.




(** ** Domain counters and leaf services *)

Lemma framed_registry {S} (res : Result S) (st : St S) (w : World S)
    (domain : list MetricEvent) :
  framed res st → registry (world st) = domain ++ registry w →
  ∃ observation increment,
    registry (final_world res) = observation :: increment :: domain ++ registry w.
Proof.
  intros H Hd. framed_by H. destruct Hreg as (ob & inc & Hreg).
  exists ob, inc. rewrite Hreg, Hd. reflexivity.
Qed.

(** What a routed request adds to the registry: the two HTTP events of the
    chain on top of what the route's handler added. *)
Lemma counted_by_handler {S} (svc : Service S) (counter : string → string → MetricEvent)
    (operation : Route S → option string) (E : Env) (req : Request) (w : World S)
    (r : Route S) (ps : list (string * string)) :
  dispatch (routes svc) (method req) (path req) = Some (r, ps) →
  (∃ domain,
      registry (world (route_handler r E (entry E req (route_pattern r) ps 200 NoBody w)).2)
      = domain ++ registry w
      ∧ match operation r with
        | Some op => ∃ status, domain = [counter op status]
                               ∧ one_of outcome_enumeration status = true
        | None => domain = []
        end) →
  ∃ observation increment domain,
    registry (final_world (serve svc E req w))
    = observation :: increment :: domain ++ registry w
    ∧ match operation r with
      | Some op => ∃ status, domain = [counter op status]
                             ∧ one_of outcome_enumeration status = true
      | None => domain = []
      end.
Proof.
  intros Hd (domain & Hr & Hop).
  destruct (framed_registry _ _ w domain (serve_entry svc E req w r ps Hd) Hr)
    as (ob & inc & Hreg).
  exists ob, inc, domain. split; [exact Hreg | exact Hop].
Qed.

Lemma counted_unrouted {S} (svc : Service S) (E : Env) (req : Request) (w : World S) :
  dispatch (routes svc) (method req) (path req) = None →
  ∃ observation increment,
    registry (final_world (serve svc E req w))
    = observation :: increment :: [] ++ registry w.
Proof.
  intros Hd.
  exact (framed_registry _ _ w [] (serve_unrouted svc E req w Hd) eq_refl).
Qed.

(** X8. A request to the user service increments
    [user_operations_total] exactly once, under the operation of the route
    it matched and a status of the outcome enumeration, when that route is
    one of the three user routes, and not at all otherwise. *)
Theorem user_operations_counted_once :
  counted_once UserService.service UserService.userOperations user_operation.
Proof.
  intros E req w.
  destruct (dispatch (routes UserService.service) (method req) (path req))
    as [[r ps]|] eqn:Hd.
  - apply (counted_by_handler _ _ _ E req w r ps Hd).
    apply dispatch_Some in Hd. unfold UserService.service, routes in Hd.
    repeat (apply elem_of_cons in Hd as [->|Hd]); cbn [route_handler route_pattern].
    + exists []. split; [apply health_run | reflexivity].
    + exists []. split; [apply metrics_run | reflexivity].
    + pose proof (getUserByID_run E req "/users/:id" ps w) as Hrun. cbv zeta in Hrun.
      destruct Hrun as (_ & _ & _ & Hrun).
      destruct (Atoi (lookup_param "id" ps)) as [n|];
        [destruct (store w !! n) as [u|]|];
        [destruct Hrun as (_ & _ & _ & Hr) | destruct Hrun as (_ & _ & _ & Hr)
         | destruct Hrun as (_ & _ & _ & _ & Hr)];
        eexists [_]; (split; [exact Hr|]); eexists; split; reflexivity.
    + destruct (getAllUsers_run E req "/users" ps w) as (_ & _ & _ & _ & _ & _ & Hr).
      eexists [_]. split; [exact Hr|]. eexists. split; reflexivity.
    + pose proof (createUser_run E req "/users" ps w) as Hrun. cbv zeta in Hrun.
      destruct Hrun as (_ & _ & Hrun).
      destruct (bind_user E (payload req)) as [err|u];
        destruct Hrun as (_ & _ & _ & _ & Hr);
        eexists [_]; (split; [exact Hr|]); eexists; split; reflexivity.
    + apply elem_of_nil in Hd. destruct Hd.
  - destruct (counted_unrouted UserService.service E req w Hd) as (ob & inc & Hreg).
    exists ob, inc, []. split; [exact Hreg | reflexivity].
Qed.

(** X15. A request to the order service increments
    [order_operations_total] exactly once, under the operation of the route
    it matched and a status of the outcome enumeration, when that route is
    one of the three order routes, and not at all otherwise. *)
Theorem order_operations_counted_once :
  counted_once OrderService.service OrderService.orderOperations order_operation.
Proof.
  intros E req w.
  destruct (dispatch (routes OrderService.service) (method req) (path req))
    as [[r ps]|] eqn:Hd.
  - apply (counted_by_handler _ _ _ E req w r ps Hd).
    apply dispatch_Some in Hd. unfold OrderService.service, routes in Hd.
    repeat (apply elem_of_cons in Hd as [->|Hd]); cbn [route_handler route_pattern].
    + exists []. split; [apply health_run | reflexivity].
    + exists []. split; [apply metrics_run | reflexivity].
    + destruct (getOrders_run E req "/orders" ps w) as (_ & _ & _ & _ & _ & _ & Hr).
      eexists [_]. split; [exact Hr|]. eexists. split; reflexivity.
    + pose proof (createOrder_run E req "/orders" ps w) as Hrun. cbv zeta in Hrun.
      destruct Hrun as (_ & Hrun).
      destruct (bind_order_req E (payload req)) as [err|r];
        [destruct Hrun as (_ & _ & _ & _ & _ & Hr)
        |destruct (call_outcome E _ _) as [user [e|]];
         [destruct Hrun as (_ & _ & _ & _ & Hr)
         |destruct Hrun as (t & carrier & _ & _ & _ & _ & _ & Hr)]];
        eexists [_]; (split; [exact Hr|]); eexists; split; reflexivity.
    + pose proof (getOrderByID_run E req "/orders/:id" ps w) as Hrun. cbv zeta in Hrun.
      destruct Hrun as (_ & _ & _ & Hrun).
      destruct (Atoi (lookup_param "id" ps)) as [n|];
        [destruct (List.find _ _) as [o|]|];
        destruct Hrun as (_ & _ & _ & Hr);
        eexists [_]; (split; [exact Hr|]); eexists; split; reflexivity.
    + apply elem_of_nil in Hd. destruct Hd.
  - destruct (counted_unrouted OrderService.service E req w Hd) as (ob & inc & Hreg).
    exists ob, inc, []. split; [exact Hreg | reflexivity].
Qed.

Lemma traced_no_calls {S} (E : Env) (req : Request) (w : World S) (st : St S)
    (res : Result S) :
  framed res st → outbound (world st) = outbound w →
  outbound (final_world res) = outbound w.
Proof. intros H Ho. framed_by H. rewrite Hout. exact Ho. Qed.

(** X28. The user service and the notification service
    make no outbound call, whatever the request. *)
Theorem leaf_services_make_no_calls :
  (∀ E req w, outbound (final_world (serve UserService.service E req w)) = outbound w)
  ∧ (∀ E req w,
        outbound (final_world (serve NotificationService.service E req w)) = outbound w).
Proof.
  split; intros E req w.
  - destruct (dispatch (routes UserService.service) (method req) (path req))
      as [[r ps]|] eqn:Hd.
    + pose proof (serve_entry UserService.service E req w r ps Hd) as H.
      apply (traced_no_calls E req w _ _ H).
      apply dispatch_Some in Hd. unfold UserService.service, routes in Hd.
      repeat (apply elem_of_cons in Hd as [->|Hd]); cbn [route_handler route_pattern].
      * apply health_run.
      * apply metrics_run.
      * apply getUserByID_run.
      * apply getAllUsers_run.
      * apply createUser_run.
      * apply elem_of_nil in Hd. destruct Hd.
    + exact (traced_no_calls E req w _ _
               (serve_unrouted UserService.service E req w Hd) eq_refl).
  - destruct (dispatch (routes NotificationService.service) (method req) (path req))
      as [[r ps]|] eqn:Hd.
    + pose proof (serve_entry NotificationService.service E req w r ps Hd) as H.
      apply (traced_no_calls E req w _ _ H).
      apply dispatch_Some in Hd. unfold NotificationService.service, routes in Hd.
      repeat (apply elem_of_cons in Hd as [->|Hd]); cbn [route_handler route_pattern].
      * apply health_run.
      * apply metrics_run.
      * apply sendNotification_run.
      * apply sendEmail_run.
      * apply sendSMS_run.
      * apply elem_of_nil in Hd. destruct Hd.
    + exact (traced_no_calls E req w _ _
               (serve_unrouted NotificationService.service E req w Hd) eq_refl).
Qed.
